(** * VanillaQuery: the query / mutation lifecycle engine

    A shallow embedding of the [VanillaQuery] class (vanilla-query.ts):
    the four keyed tables of the engine, the retry loop of [fetchQuery]
    and [mutate], subscriber notification, and the interval timers.

    Conventions of the embedding.
    - A JavaScript value is a [value]; the conditionals of the source that
      test a value ([x ? a : b], [x || y], [if (x)]) go through [truthy].
    - The engine instance is the record [VanillaQuery]; what lives outside
      of it (clock, timers of the host, pending timeouts, the calls made to
      user functions) is the record [Env].  A method is a function
      [World -> A * World].
    - A user supplied async function is a [QueryFn]: what its i-th
      invocation settles to.  User callbacks either return or throw.
      Neither calls the engine while it runs, and a delay function
      returns a number.
    - One call of an async method runs to completion: no other engine call
      is interleaved at its suspension points. *)

(** The reactive store of the Alpine.js plugin (alpine-plugin.js, [get]) is
    embedded after the engine, with the vocabulary of the statements: it
    is a client of [useQuery] and [subscribeToQuery]. *)

From stdpp Require Import gmap strings list fin_maps.
From Stdlib Require Import ZArith Lia.

Local Open Scope Z_scope.

(** ** JavaScript values *)

Inductive value :=
  | VUndefined
  | VNull
  | VBool (b : bool)
  | VNum (n : Z)
  | VStr (s : string)
  | VObj (ref : nat).

Global Instance value_eq_dec : EqDecision value.
Proof. solve_decision. Defined.

(** ToBoolean: [undefined], [null], [false], [0] and the empty string are
    falsy; objects and arrays are always truthy. *)
Definition truthy (v : value) : bool :=
  match v with
  | VUndefined | VNull => false
  | VBool b => b
  | VNum n => negb (n =? 0)
  | VStr s => negb (String.eqb s EmptyString)
  | VObj _ => true
  end.

(** [a || b] on values. *)
Definition js_or (a b : value) : value := if truthy a then a else b.

(** How a call of a user function ends. *)
Inductive completion :=
  | Normal
  | Throw (e : value).

(** How the promise of an async user function settles. *)
Inductive outcome :=
  | Resolve (v : value)
  | Reject (e : value).

(** The promise returned by an engine method. *)
Inductive promise :=
  | Resolved (v : value)
  | Rejected (e : value).

(** ** Data model (interfaces of vanilla-query.ts) *)

Inductive Status := StIdle | StLoading | StSuccess | StError.

Global Instance Status_eq_dec : EqDecision Status.
Proof. solve_decision. Defined.

(** [QueryState]: the three last fields are optional in the interface. *)
Record QueryState := mkQueryState {
  data : value;
  error : value;
  status : Status;
  isLoading : bool;
  isError : bool;
  isSuccess : bool;
  isFetching : bool;
  dataUpdatedAt : option Z;
  errorUpdatedAt : option Z;
  fetchCount : option Z;
}.

Global Instance QueryState_eq_dec : EqDecision QueryState.
Proof. solve_decision. Defined.

Record CacheEntry := mkCacheEntry {
  entry_data : value;
  timestamp : Z;
}.

Inductive RetryOption :=
  | RetryBool (b : bool)
  | RetryNum (n : Z).

Inductive DelayOption :=
  | DelayNum (ms : Z)
  | DelayFn (f : Z -> Z).

Inductive IntervalOption :=
  | IntervalFalse
  | IntervalNum (ms : Z).

(** [Required<QueryOptions>]; a callback that is [null] is [None]. *)
Record ResolvedOptions := mkResolvedOptions {
  enabled : bool;
  staleTime : Z;
  cacheTime : Z;
  retry : RetryOption;
  retryDelay : DelayOption;
  onSuccess : option (value -> completion);
  onError : option (value -> completion);
  onSettled : option (value -> value -> completion);
  refetchOnWindowFocus : bool;
  refetchInterval : IntervalOption;
  refetchIntervalInBackground : bool;
  keepPreviousData : bool;
}.

(** [QueryOptions] as the caller passes it: every field may be missing. *)
Record QueryOptions := mkQueryOptions {
  opt_enabled : option bool;
  opt_staleTime : option Z;
  opt_cacheTime : option Z;
  opt_retry : option RetryOption;
  opt_retryDelay : option DelayOption;
  opt_onSuccess : option (value -> completion);
  opt_onError : option (value -> completion);
  opt_onSettled : option (value -> value -> completion);
  opt_refetchOnWindowFocus : option bool;
  opt_refetchInterval : option IntervalOption;
  opt_refetchIntervalInBackground : option bool;
  opt_keepPreviousData : option bool;
}.

(** The options object [{}]. *)
Definition noOptions : QueryOptions :=
  mkQueryOptions None None None None None None None None None None None None.

(** An async user function: [fn_run i] is what its invocation number [i]
    (counted from 0) settles to; [fn_id] is the identity of the function. *)
Record QueryFn := mkQueryFn {
  fn_id : nat;
  fn_run : nat -> outcome;
}.

Record QueryConfig := mkQueryConfig {
  queryFn : QueryFn;
  options : ResolvedOptions;
}.

(** A subscriber callback; a [Set] compares callbacks by identity. *)
Record Observer := mkObserver {
  obs_id : nat;
  obs_run : QueryState -> completion;
}.

(** ** Insertion ordered [Map<string, _>] and [Set<callback>]

    [subscribers] is iterated with [forEach], so its order is kept. *)

Section OrderedMap.
Context {V : Type}.

Fixpoint omap_get (k : string) (m : list (string * V)) : option V :=
  match m with
  | [] => None
  | (k', v) :: m' => if String.eqb k k' then Some v else omap_get k m'
  end.

Definition omap_has (k : string) (m : list (string * V)) : bool :=
  match omap_get k m with Some _ => true | None => false end.

(** [Map.set]: an existing key keeps its place, a new one goes last. *)
Fixpoint omap_set (k : string) (v : V) (m : list (string * V)) : list (string * V) :=
  match m with
  | [] => [(k, v)]
  | (k', v') :: m' =>
      if String.eqb k k' then (k', v) :: m' else (k', v') :: omap_set k v m'
  end.

Definition omap_delete (k : string) (m : list (string * V)) : list (string * V) :=
  filter (fun kv => negb (String.eqb k (fst kv))) m.
End OrderedMap.

Definition set_has (c : Observer) (s : list Observer) : bool :=
  existsb (fun c' => Nat.eqb (obs_id c) (obs_id c')) s.

(** [Set.add]: no effect when the callback is already a member. *)
Definition set_add (c : Observer) (s : list Observer) : list Observer :=
  if set_has c s then s else s ++ [c].

Definition set_delete (c : Observer) (s : list Observer) : list Observer :=
  filter (fun c' => negb (Nat.eqb (obs_id c) (obs_id c'))) s.

(** ** The engine instance and its environment *)

Record VanillaQuery := mkVanillaQuery {
  cache : gmap string CacheEntry;
  subscribers : list (string * list Observer);
  queryConfigs : gmap string QueryConfig;
  queryStates : gmap string QueryState;
  intervals : option (gmap string nat);
}.

(** [new VanillaQuery()]: [intervals] is left undefined. *)
Definition newVanillaQuery : VanillaQuery :=
  mkVanillaQuery ∅ [] ∅ ∅ None.

(** What the host records of a [setInterval] that has not been cleared. *)
Record IntervalTimer := mkIntervalTimer {
  timer_id : nat;
  timer_key : string;
  timer_period : Z;
  timer_inBackground : bool;
}.

(** [MutationState] (its [reset] member is the method [reset] below);
    the record lives in a module because its fields are named like those of
    [QueryState]. *)
Module Mutation.
Record MutationState := mkMutationState {
  isIdle : bool;
  isLoading : bool;
  isSuccess : bool;
  isError : bool;
  data : value;
  error : value;
  status : Status;
}.
End Mutation.

Inductive event :=
  | EvQueryFn (fid : nat)
  | EvMutationFn (fid : nat) (variables : value)
  | EvMutationNotify (obs : nat) (st : Mutation.MutationState)
  | EvOnMutate (variables : value)
  | EvNotify (key : string) (obs : nat) (st : QueryState)
  | EvConsoleError (e : value)
  | EvOnSuccess (d : value)
  | EvOnError (e : value)
  | EvOnSettled (d e : value).

Record Env := mkEnv {
  now : Z;
  log : list event;
  hasWindow : bool;
  documentVisible : bool;
  timeouts : list string;
  focusListeners : list (string * bool);
  activeIntervals : list IntervalTimer;
  nextTimerId : nat;
}.

Record World := mkWorld {
  vq : VanillaQuery;
  env : Env;
}.

Definition browserEnv : Env := mkEnv 0 [] true true [] [] [] 0.

Definition newWorld : World := mkWorld newVanillaQuery browserEnv.

(** ** Effects: a state monad *)

Definition St (W A : Type) : Type := W -> A * W.

Definition ret {W A} (a : A) : St W A := fun w => (a, w).

Definition bind {W A B} (m : St W A) (f : A -> St W B) : St W B :=
  fun w => let (a, w') := m w in f a w'.

(** The methods of the class run over a [World]. *)
Abbreviation M := (St World).

Notation "'let*' x ':=' m 'in' k" := (bind m (fun x => k))
  (at level 10, x pattern, m at level 100, k at level 200).
Notation "'run' m 'in' k" := (bind m (fun _ => k))
  (at level 10, m at level 100, k at level 200).

Definition getVq : M VanillaQuery := fun w => (vq w, w).

Definition getEnv : M Env := fun w => (env w, w).

Definition modifyVq (f : VanillaQuery -> VanillaQuery) : M unit :=
  fun w => (tt, mkWorld (f (vq w)) (env w)).

Definition modifyEnv (f : Env -> Env) : M unit :=
  fun w => (tt, mkWorld (vq w) (f (env w))).

Definition env_emit (ev : event) (e : Env) : Env :=
  mkEnv (now e) (log e ++ [ev]) (hasWindow e) (documentVisible e)
        (timeouts e) (focusListeners e) (activeIntervals e) (nextTimerId e).

(** Awaiting a [setTimeout(resolve, ms)]: the clock moves on by the delay;
    a negative delay is no wait.  This is the timer of the host for a
    delay of at most [2^31 - 1] ms, which is where the statements about
    elapsed time are made; a longer delay the host cuts short. *)
Definition env_sleep (ms : Z) (e : Env) : Env :=
  mkEnv (now e + Z.max 0 ms) (log e) (hasWindow e) (documentVisible e)
        (timeouts e) (focusListeners e) (activeIntervals e) (nextTimerId e).

Definition emit (ev : event) : M unit := modifyEnv (env_emit ev).

(** [Date.now()] *)
Definition dateNow : M Z := fun w => (now (env w), w).

Definition sleep (ms : Z) : M unit := modifyEnv (env_sleep ms).

Definition set_cache (c : gmap string CacheEntry) (q : VanillaQuery) : VanillaQuery :=
  mkVanillaQuery c (subscribers q) (queryConfigs q) (queryStates q) (intervals q).
Definition set_subscribers (s : list (string * list Observer)) (q : VanillaQuery) : VanillaQuery :=
  mkVanillaQuery (cache q) s (queryConfigs q) (queryStates q) (intervals q).
Definition set_queryConfigs (c : gmap string QueryConfig) (q : VanillaQuery) : VanillaQuery :=
  mkVanillaQuery (cache q) (subscribers q) c (queryStates q) (intervals q).
Definition set_queryStates (s : gmap string QueryState) (q : VanillaQuery) : VanillaQuery :=
  mkVanillaQuery (cache q) (subscribers q) (queryConfigs q) s (intervals q).
Definition set_intervals (i : option (gmap string nat)) (q : VanillaQuery) : VanillaQuery :=
  mkVanillaQuery (cache q) (subscribers q) (queryConfigs q) (queryStates q) i.

(** Number of invocations of the user function [fid] recorded so far. *)
Fixpoint calls_of (fid : nat) (l : list event) : nat :=
  match l with
  | [] => 0%nat
  | EvQueryFn f :: l' => ((if Nat.eqb f fid then 1 else 0) + calls_of fid l')%nat
  | _ :: l' => calls_of fid l'
  end.

(** Invoke an async user function and await it. *)
Definition await_call (f : QueryFn) : M outcome :=
  fun w =>
    let i := calls_of (fn_id f) (log (env w)) in
    (fn_run f i, snd (emit (EvQueryFn (fn_id f)) w)).

(** ** Queries *)

(** The state [useQuery] seeds a key with. *)
Definition initialState : QueryState :=
  mkQueryState VUndefined VNull StIdle false false false false (Some 0) (Some 0) (Some 0).

(** The idle state without the optional fields: the default of
    [getQueryState] and the reset state of [clear]. *)
Definition idleState : QueryState :=
  mkQueryState VUndefined VNull StIdle false false false false None None None.

(** [(attempt) => Math.min(1000 * 2 ** attempt, 30000)] *)
Definition defaultRetryDelay (attempt : Z) : Z := Z.min (1000 * 2 ^ attempt) 30000.

Definition defaultOptions : ResolvedOptions :=
  {| enabled := true;
     staleTime := 0;
     cacheTime := 5 * 60 * 1000;
     retry := RetryNum 3;
     retryDelay := DelayFn defaultRetryDelay;
     onSuccess := None;
     onError := None;
     onSettled := None;
     refetchOnWindowFocus := true;
     refetchInterval := IntervalFalse;
     refetchIntervalInBackground := false;
     keepPreviousData := false |}.

(** [{ ...defaultOptions, ...options }] *)
Definition mergeOptions (d : ResolvedOptions) (o : QueryOptions) : ResolvedOptions :=
  {| enabled := default (enabled d) (opt_enabled o);
     staleTime := default (staleTime d) (opt_staleTime o);
     cacheTime := default (cacheTime d) (opt_cacheTime o);
     retry := default (retry d) (opt_retry o);
     retryDelay := default (retryDelay d) (opt_retryDelay o);
     onSuccess := match opt_onSuccess o with Some f => Some f | None => onSuccess d end;
     onError := match opt_onError o with Some f => Some f | None => onError d end;
     onSettled := match opt_onSettled o with Some f => Some f | None => onSettled d end;
     refetchOnWindowFocus := default (refetchOnWindowFocus d) (opt_refetchOnWindowFocus o);
     refetchInterval := default (refetchInterval d) (opt_refetchInterval o);
     refetchIntervalInBackground :=
       default (refetchIntervalInBackground d) (opt_refetchIntervalInBackground o);
     keepPreviousData := default (keepPreviousData d) (opt_keepPreviousData o) |}.

Definition getQueryState (queryKey : string) (q : VanillaQuery) : QueryState :=
  default idleState (queryStates q !! queryKey).

Definition getQueryData (queryKey : string) (q : VanillaQuery) : value :=
  match cache q !! queryKey with
  | Some cached => entry_data cached
  | None => VUndefined
  end.

Fixpoint forEach {W A} (f : A -> St W unit) (l : list A) : St W unit :=
  match l with
  | [] => ret tt
  | a :: l' => run f a in forEach f l'
  end.

(** One delivery of [notifySubscribers]: the callback runs inside
    [try ... catch], a thrown error goes to [console.error]. *)
Definition deliver (queryKey : string) (st : QueryState) (callback : Observer) : M unit :=
  run emit (EvNotify queryKey (obs_id callback) st) in
  match obs_run callback st with
  | Normal => ret tt
  | Throw e => emit (EvConsoleError e)
  end.

Definition notifySubscribers (queryKey : string) (st : QueryState) : M unit :=
  let* q := getVq in
  match omap_get queryKey (subscribers q) with
  | Some subs => forEach (deliver queryKey st) subs
  | None => ret tt
  end.

(** The result object of [performFetch] / [performMutation]. *)
Inductive FetchResult :=
  | FetchOk (d : value)
  | FetchErr (e : value).

Definition success (r : FetchResult) : bool :=
  match r with FetchOk _ => true | FetchErr _ => false end.

(** [try { data = await fn(); return { success: true, data } }
     catch (err) { return { success: false, error } }] *)
Definition toResult (o : outcome) : FetchResult :=
  match o with
  | Resolve d => FetchOk d
  | Reject e => FetchErr e
  end.

Definition performFetch (f : QueryFn) : M FetchResult :=
  let* o := await_call f in
  ret (toResult o).

Definition maxRetries (r : RetryOption) : Z :=
  match r with
  | RetryBool b => if b then 3 else 0
  | RetryNum n => n
  end.

Definition delayFor (d : DelayOption) (attempt : Z) : Z :=
  match d with
  | DelayFn f => f attempt
  | DelayNum ms => ms
  end.

(** [while (!result.success && attempt < maxRetries) { attempt++; ... }].
    The loop runs at most [maxRetries - attempt] times, which is the fuel
    its callers pass; with no fuel left the loop condition is false. *)
Fixpoint retryLoop {W} (sleep : Z -> St W unit) (fuel : nat) (perform : St W FetchResult)
    (delay : DelayOption) (budget attempt : Z) (result : FetchResult) : St W FetchResult :=
  match fuel with
  | O => ret result
  | S fuel' =>
      if negb (success result) && (attempt <? budget) then
        let attempt := attempt + 1 in
        run sleep (delayFor delay attempt) in
        let* result := perform in
        retryLoop sleep fuel' perform delay budget attempt result
      else ret result
  end.

Definition withRetries {W} (sleep : Z -> St W unit) (perform : St W FetchResult)
    (delay : DelayOption) (budget : Z) : St W FetchResult :=
  let* result := perform in
  retryLoop sleep (Z.to_nat budget) perform delay budget 0 result.

(** [newState] of [fetchQuery]. *)
Definition fetchingState (currentState : QueryState) : QueryState :=
  {| data := data currentState;
     error := error currentState;
     status := if truthy (data currentState) then StSuccess else StLoading;
     isLoading := negb (truthy (data currentState));
     isError := isError currentState;
     isSuccess := isSuccess currentState;
     isFetching := true;
     dataUpdatedAt := dataUpdatedAt currentState;
     errorUpdatedAt := errorUpdatedAt currentState;
     fetchCount := Some (default 0 (fetchCount currentState) + 1) |}.

Definition successState (d : value) (t : Z) : QueryState :=
  {| data := d;
     error := VNull;
     status := StSuccess;
     isLoading := false;
     isError := false;
     isSuccess := true;
     isFetching := false;
     dataUpdatedAt := Some t;
     errorUpdatedAt := None;
     fetchCount := None |}.

Definition errorState (newState : QueryState) (e : value) (t : Z) : QueryState :=
  {| data := data newState;
     error := js_or e VNull;
     status := StError;
     isLoading := false;
     isError := true;
     isSuccess := false;
     isFetching := false;
     dataUpdatedAt := dataUpdatedAt newState;
     errorUpdatedAt := Some t;
     fetchCount := fetchCount newState |}.

Definition setState (queryKey : string) (st : QueryState) : M unit :=
  modifyVq (fun q => set_queryStates (<[queryKey := st]> (queryStates q)) q).

(** A query callback is called without [try]: when it throws, the
    [async] method rejects with what was thrown. *)
Definition orReject (c : completion) (k : M promise) : M promise :=
  match c with
  | Normal => k
  | Throw e => ret (Rejected e)
  end.

Definition settleSuccess (queryKey : string) (opts : ResolvedOptions) (d : value)
    : M promise :=
  let* t := dateNow in
  let* t' := dateNow in
  run modifyVq (fun q => set_cache (<[queryKey := mkCacheEntry d t']> (cache q)) q) in
  run setState queryKey (successState d t) in
  run notifySubscribers queryKey (successState d t) in
  let settled :=
    match onSettled opts with
    | Some f => run emit (EvOnSettled d VNull) in orReject (f d VNull) (ret (Resolved d))
    | None => ret (Resolved d)
    end in
  match onSuccess opts with
  | Some f => run emit (EvOnSuccess d) in orReject (f d) settled
  | None => settled
  end.

Definition settleError (queryKey : string) (opts : ResolvedOptions)
    (newState : QueryState) (e : value) : M promise :=
  let* t := dateNow in
  run setState queryKey (errorState newState e t) in
  run notifySubscribers queryKey (errorState newState e t) in
  if truthy e then
    let settled :=
      match onSettled opts with
      | Some f =>
          run emit (EvOnSettled VUndefined e) in
          orReject (f VUndefined e) (ret (Resolved VUndefined))
      | None => ret (Resolved VUndefined)
      end in
    match onError opts with
    | Some f => run emit (EvOnError e) in orReject (f e) settled
    | None => settled
    end
  else ret (Resolved VUndefined).

Definition fetchQuery (queryKey : string) : M promise :=
  let* q := getVq in
  match queryConfigs q !! queryKey with
  | None => ret (Resolved VUndefined)
  | Some config =>
      match queryStates q !! queryKey with
      | None => ret (Resolved VUndefined)
      | Some currentState =>
          let newState := fetchingState currentState in
          run setState queryKey newState in
          run notifySubscribers queryKey newState in
          let* result :=
            withRetries sleep (performFetch (queryFn config))
              (retryDelay (options config)) (maxRetries (retry (options config))) in
          match result with
          | FetchOk d => settleSuccess queryKey (options config) d
          | FetchErr e => settleError queryKey (options config) newState e
          end
      end
  end.

Definition refetchQuery (queryKey : string) : M promise := fetchQuery queryKey.

Definition invalidateQuery (queryKey : string) : M promise :=
  run modifyVq (fun q => set_cache (delete queryKey (cache q)) q) in
  fetchQuery queryKey.

Definition cancelQuery (queryKey : string) : M unit :=
  let* q := getVq in
  match queryStates q !! queryKey with
  | Some st =>
      if isFetching st then
        let cancelledState :=
          mkQueryState (data st) (error st) (status st) (isLoading st) (isError st)
            (isSuccess st) false (dataUpdatedAt st) (errorUpdatedAt st) (fetchCount st) in
        run setState queryKey cancelledState in
        notifySubscribers queryKey cancelledState
      else ret tt
  | None => ret tt
  end.

(** [subscribeToQuery]: the first call of the callback is outside of any
    [try], so its completion is the completion of the method.  The
    unsubscribe closure it returns is [unsubscribe queryKey callback]. *)
Definition subscribeToQuery (queryKey : string) (callback : Observer) : M completion :=
  run modifyVq (fun q =>
    if omap_has queryKey (subscribers q) then q
    else set_subscribers (omap_set queryKey [] (subscribers q)) q) in
  run modifyVq (fun q =>
    match omap_get queryKey (subscribers q) with
    | Some subs => set_subscribers (omap_set queryKey (set_add callback subs) (subscribers q)) q
    | None => q
    end) in
  let* q := getVq in
  let currentState := getQueryState queryKey q in
  run emit (EvNotify queryKey (obs_id callback) currentState) in
  ret (obs_run callback currentState).

Definition unsubscribe (queryKey : string) (callback : Observer) : M unit :=
  modifyVq (fun q =>
    match omap_get queryKey (subscribers q) with
    | Some subs =>
        set_subscribers (omap_set queryKey (set_delete callback subs) (subscribers q)) q
    | None => q
    end).

Definition setQueryData (queryKey : string) (d : value) : M value :=
  let* t := dateNow in
  run modifyVq (fun q => set_cache (<[queryKey := mkCacheEntry d t]> (cache q)) q) in
  let* t' := dateNow in
  run setState queryKey (successState d t') in
  run notifySubscribers queryKey (successState d t') in
  ret d.

(** [setInterval] / [clearInterval] of the host. *)
Definition setInterval (queryKey : string) (period : Z) (inBackground : bool) : M nat :=
  fun w =>
    let e := env w in
    let id := nextTimerId e in
    (id, mkWorld (vq w)
           (mkEnv (now e) (log e) (hasWindow e) (documentVisible e) (timeouts e)
              (focusListeners e)
              (activeIntervals e ++ [mkIntervalTimer id queryKey period inBackground])
              (S id))).

Definition clearInterval (id : nat) : M unit :=
  modifyEnv (fun e =>
    mkEnv (now e) (log e) (hasWindow e) (documentVisible e) (timeouts e) (focusListeners e)
      (filter (fun t => negb (Nat.eqb (timer_id t) id)) (activeIntervals e))
      (nextTimerId e)).

(** [setTimeout(() => this.fetchQuery(queryKey), 0)] *)
Definition setTimeout0 (queryKey : string) : M unit :=
  modifyEnv (fun e =>
    mkEnv (now e) (log e) (hasWindow e) (documentVisible e) (timeouts e ++ [queryKey])
      (focusListeners e) (activeIntervals e) (nextTimerId e)).

(** [window.addEventListener('focus', ...)]; the listener closes over
    [finalOptions.enabled]. *)
Definition addFocusListener (queryKey : string) (isEnabled : bool) : M unit :=
  modifyEnv (fun e =>
    mkEnv (now e) (log e) (hasWindow e) (documentVisible e) (timeouts e)
      (focusListeners e ++ [(queryKey, isEnabled)]) (activeIntervals e) (nextTimerId e)).

Definition intervalTruthy (i : IntervalOption) : option Z :=
  match i with
  | IntervalFalse => None
  | IntervalNum ms => if ms =? 0 then None else Some ms
  end.

(** [useQuery].  The [QueryInstance] it returns only forwards to the
    methods of the class with [queryKey] fixed, so it is not modelled. *)
Definition useQuery (queryKey : string) (fn : QueryFn) (opts : QueryOptions) : M unit :=
  let finalOptions := mergeOptions defaultOptions opts in
  run modifyVq (fun q =>
    set_queryConfigs (<[queryKey := mkQueryConfig fn finalOptions]> (queryConfigs q)) q) in
  run modifyVq (fun q =>
    match queryStates q !! queryKey with
    | Some _ => q
    | None => set_queryStates (<[queryKey := initialState]> (queryStates q)) q
    end) in
  run (if enabled finalOptions then setTimeout0 queryKey else ret tt) in
  let* e := getEnv in
  run (if refetchOnWindowFocus finalOptions && hasWindow e
       then addFocusListener queryKey (enabled finalOptions) else ret tt) in
  match intervalTruthy (refetchInterval finalOptions) with
  | Some ms =>
      if enabled finalOptions then
        let* intervalId :=
          setInterval queryKey ms (refetchIntervalInBackground finalOptions) in
        modifyVq (fun q =>
          set_intervals (Some (<[queryKey := intervalId]> (default ∅ (intervals q)))) q)
      else ret tt
  | None => ret tt
  end.

Definition prefetchQuery (queryKey : string) (fn : QueryFn) (opts : QueryOptions)
    : M promise :=
  let finalOptions := mergeOptions defaultOptions opts in
  run modifyVq (fun q =>
    set_queryConfigs (<[queryKey := mkQueryConfig fn finalOptions]> (queryConfigs q)) q) in
  fetchQuery queryKey.

Definition removeQueryData (queryKey : string) : M unit :=
  run modifyVq (fun q => set_cache (delete queryKey (cache q)) q) in
  run modifyVq (fun q => set_queryStates (delete queryKey (queryStates q)) q) in
  run modifyVq (fun q => set_queryConfigs (delete queryKey (queryConfigs q)) q) in
  run modifyVq (fun q => set_subscribers (omap_delete queryKey (subscribers q)) q) in
  let* q := getVq in
  match intervals q with
  | Some im =>
      match im !! queryKey with
      | Some id =>
          run clearInterval id in
          modifyVq (set_intervals (Some (delete queryKey im)))
      | None => ret tt
      end
  | None => ret tt
  end.

(** The inner [forEach] of [clear]. *)
Definition deliverReset (queryKey : string) (callback : Observer) : M unit :=
  run emit (EvNotify queryKey (obs_id callback) idleState) in
  match obs_run callback idleState with
  | Normal => ret tt
  | Throw e => emit (EvConsoleError e)
  end.

Definition clear : M unit :=
  run modifyVq (set_cache ∅) in
  run modifyVq (set_queryStates ∅) in
  run modifyVq (set_queryConfigs ∅) in
  let* q := getVq in
  run match intervals q with
      | Some im =>
          run forEach (fun kv => clearInterval (snd kv)) (map_to_list im) in
          modifyVq (set_intervals (Some ∅))
      | None => ret tt
      end in
  let* q := getVq in
  run forEach (fun ks => forEach (deliverReset (fst ks)) (snd ks)) (subscribers q) in
  modifyVq (set_subscribers []).

(** The host fires the oldest pending zero-delay timeout. *)
Definition runTimeout : M promise :=
  fun w =>
    let e := env w in
    match timeouts e with
    | [] => (Resolved VUndefined, w)
    | k :: rest =>
        fetchQuery k
          (mkWorld (vq w)
             (mkEnv (now e) (log e) (hasWindow e) (documentVisible e) rest
                (focusListeners e) (activeIntervals e) (nextTimerId e)))
    end.

(** The window gets the focus: every listener runs, in registration
    order.  A listener starts its fetch and does not wait for it, so the
    fetches of two enabled listeners overlap in the source; here each runs
    to its end, which is the event when at most one listener is enabled.
    The statements about focus events are made for such events. *)
Definition focusWindow : M unit :=
  let* e := getEnv in
  forEach (fun l : string * bool =>
             if snd l then run fetchQuery (fst l) in ret tt else ret tt)
          (focusListeners e).

(** The host fires the interval timer [t]. *)
Definition tickInterval (t : IntervalTimer) : M promise :=
  fun w =>
    if timer_inBackground t || documentVisible (env w)
    then fetchQuery (timer_key t) w
    else (Resolved VUndefined, w).

(** ** Mutations ([useMutation])

    A mutation instance is a closure over its options, its state object
    and its own subscriber set; [Instance] is what the closure captures. *)

Module UseMutation.
Import Mutation.

(** [mfn_run variables i]: what invocation number [i] settles to. *)
Record MutationFn := mkMutationFn {
  mfn_id : nat;
  mfn_run : value -> nat -> outcome;
}.

(** [Required<MutationOptions>]; the callbacks are awaited. *)
Record MutationOptions := mkMutationOptions {
  onMutate : option (value -> outcome);
  onSuccess : option (value -> value -> value -> completion);
  onError : option (value -> value -> value -> completion);
  onSettled : option (value -> value -> value -> value -> completion);
  retry : Z;
  retryDelay : DelayOption;
}.

Record PartialOptions := mkPartialOptions {
  opt_onMutate : option (value -> outcome);
  opt_onSuccess : option (value -> value -> value -> completion);
  opt_onError : option (value -> value -> value -> completion);
  opt_onSettled : option (value -> value -> value -> value -> completion);
  opt_retry : option Z;
  opt_retryDelay : option DelayOption;
}.

Definition noOptions : PartialOptions := mkPartialOptions None None None None None None.

Definition defaultOptions : MutationOptions :=
  {| onMutate := None; onSuccess := None; onError := None; onSettled := None;
     retry := 0; retryDelay := DelayFn defaultRetryDelay |}.

Definition mergeOptions (d : MutationOptions) (o : PartialOptions) : MutationOptions :=
  {| onMutate := match opt_onMutate o with Some f => Some f | None => onMutate d end;
     onSuccess := match opt_onSuccess o with Some f => Some f | None => onSuccess d end;
     onError := match opt_onError o with Some f => Some f | None => onError d end;
     onSettled := match opt_onSettled o with Some f => Some f | None => onSettled d end;
     retry := default (retry d) (opt_retry o);
     retryDelay := default (retryDelay d) (opt_retryDelay o) |}.

Record MObserver := mkMObserver {
  mobs_id : nat;
  mobs_run : MutationState -> completion;
}.

Record Instance := mkInstance {
  mutationFn : MutationFn;
  finalOptions : MutationOptions;
  mutationState : MutationState;
  subscribers : list MObserver;
}.

Record MWorld := mkMWorld {
  inst : Instance;
  menv : Env;
}.

Definition idleMutation : MutationState :=
  mkMutationState true false false false VUndefined VNull StIdle.

Definition useMutation (fn : MutationFn) (opts : PartialOptions) : Instance :=
  mkInstance fn (mergeOptions defaultOptions opts) idleMutation [].

(** The [Partial<MutationState>] argument of [setState]. *)
Record Updates := mkUpdates {
  u_isIdle : option bool;
  u_isLoading : option bool;
  u_isSuccess : option bool;
  u_isError : option bool;
  u_data : option value;
  u_error : option value;
  u_status : option Status;
}.

(** [Object.assign(mutationState, updates)] *)
Definition assign (m : MutationState) (u : Updates) : MutationState :=
  {| isIdle := default (isIdle m) (u_isIdle u);
     isLoading := default (isLoading m) (u_isLoading u);
     isSuccess := default (isSuccess m) (u_isSuccess u);
     isError := default (isError m) (u_isError u);
     data := default (data m) (u_data u);
     error := default (error m) (u_error u);
     status := default (status m) (u_status u) |}.

Definition memit (ev : event) : St MWorld unit :=
  fun w => (tt, mkMWorld (inst w) (env_emit ev (menv w))).

Definition msleep (ms : Z) : St MWorld unit :=
  fun w => (tt, mkMWorld (inst w) (env_sleep ms (menv w))).

Definition getInst : St MWorld Instance := fun w => (inst w, w).

Definition mdeliver (st : MutationState) (callback : MObserver) : St MWorld unit :=
  run memit (EvMutationNotify (mobs_id callback) st) in
  match mobs_run callback st with
  | Normal => ret tt
  | Throw e => memit (EvConsoleError e)
  end.

Definition setState (updates : Updates) : St MWorld unit :=
  run (fun w =>
    let i := inst w in
    (tt, mkMWorld (mkInstance (mutationFn i) (finalOptions i)
                     (assign (mutationState i) updates) (subscribers i)) (menv w))) in
  let* i := getInst in
  forEach (mdeliver (mutationState i)) (subscribers i).

Definition reset : St MWorld unit :=
  setState (mkUpdates (Some true) (Some false) (Some false) (Some false)
              (Some VUndefined) (Some VNull) (Some StIdle)).

Fixpoint mcalls_of (fid : nat) (l : list event) : nat :=
  match l with
  | [] => 0%nat
  | EvMutationFn f _ :: l' => ((if Nat.eqb f fid then 1 else 0) + mcalls_of fid l')%nat
  | _ :: l' => mcalls_of fid l'
  end.

Definition performMutation (f : MutationFn) (variables : value) : St MWorld FetchResult :=
  fun w =>
    let i := mcalls_of (mfn_id f) (log (menv w)) in
    (toResult (mfn_run f variables i),
     snd (memit (EvMutationFn (mfn_id f) variables) w)).

(** An awaited callback that throws (or rejects) makes [mutate] reject. *)
Definition orReject (c : completion) (k : St MWorld promise) : St MWorld promise :=
  match c with
  | Normal => k
  | Throw e => ret (Rejected e)
  end.

(** [context = await finalOptions.onMutate(variables)] inside [try]. *)
Definition runOnMutate (opts : MutationOptions) (variables : value) : St MWorld value :=
  match onMutate opts with
  | Some f =>
      run memit (EvOnMutate variables) in
      match f variables with
      | Resolve c => ret c
      | Reject e => run memit (EvConsoleError e) in ret VUndefined
      end
  | None => ret VUndefined
  end.

Definition loadingUpdates : Updates :=
  mkUpdates (Some false) (Some true) None None None None (Some StLoading).

Definition successUpdates (d : value) : Updates :=
  mkUpdates None (Some false) (Some true) (Some false) (Some d) (Some VNull) (Some StSuccess).

Definition errorUpdates (e : value) : Updates :=
  mkUpdates None (Some false) (Some false) (Some true) (Some VUndefined) (Some e)
    (Some StError).

(** [return result.success && resultData ? resultData
                                          : Promise.reject(result.error)] *)
Definition returned (result : FetchResult) : promise :=
  match result with
  | FetchOk d => if truthy d then Resolved d else Rejected VUndefined
  | FetchErr e => Rejected e
  end.

(** The part of [mutate] after the retry loop. *)
Definition settle (opts : MutationOptions) (variables context : value)
    (result : FetchResult) : St MWorld promise :=
  let finish :=
    match onSettled opts with
    | Some f =>
        let d := match result with FetchOk d => d | FetchErr _ => VUndefined end in
        let e := match result with FetchOk _ => VNull | FetchErr e => js_or e VNull end in
        run memit (EvOnSettled d e) in
        orReject (f d e variables context) (ret (returned result))
    | None => ret (returned result)
    end in
  match result with
  | FetchOk d =>
      run setState (successUpdates d) in
      match onSuccess opts with
      | Some f => run memit (EvOnSuccess d) in orReject (f d variables context) finish
      | None => finish
      end
  | FetchErr e =>
      run setState (errorUpdates e) in
      match onError opts with
      | Some f =>
          if truthy e
          then run memit (EvOnError e) in orReject (f e variables context) finish
          else finish
      | None => finish
      end
  end.

Definition mutate (variables : value) : St MWorld promise :=
  let* i := getInst in
  let opts := finalOptions i in
  let* context := runOnMutate opts variables in
  run setState loadingUpdates in
  let* result :=
    withRetries msleep (performMutation (mutationFn i) variables)
      (retryDelay opts) (retry opts) in
  settle opts variables context result.

(** [subscribe]; its unsubscribe closure is [unsubscribe callback]. *)
Definition subscribe (callback : MObserver) : St MWorld completion :=
  run (fun w =>
    let i := inst w in
    let subs :=
      if existsb (fun c => Nat.eqb (mobs_id callback) (mobs_id c)) (subscribers i)
      then subscribers i else subscribers i ++ [callback] in
    (tt, mkMWorld (mkInstance (mutationFn i) (finalOptions i) (mutationState i) subs)
           (menv w))) in
  let* i := getInst in
  run memit (EvMutationNotify (mobs_id callback) (mutationState i)) in
  ret (mobs_run callback (mutationState i)).

Definition unsubscribe (callback : MObserver) : St MWorld unit :=
  fun w =>
    let i := inst w in
    (tt, mkMWorld
           (mkInstance (mutationFn i) (finalOptions i) (mutationState i)
              (filter (fun c => negb (Nat.eqb (mobs_id callback) (mobs_id c)))
                 (subscribers i)))
           (menv w)).
End UseMutation.

(** * Specification vocabulary and scenarios

    The predicates the statements below are written with, and the
    concrete producers, observers and worlds they are tried on. *)

(** [keeps R m]: running [m] relates the world before to the world after. *)
Definition keeps {W A} (R : W -> W -> Prop) (m : St W A) : Prop :=
  forall w, R w (snd (m w)).

(** [quiet w w']: between [w] and [w'] the engine tables, the clock and the
    timers of the host are untouched and no async user function ran; only
    notifications, callbacks and console output were logged. *)
Definition quiet (w w' : World) : Prop :=
  vq w' = vq w /\
  now (env w') = now (env w) /\
  activeIntervals (env w') = activeIntervals (env w) /\
  forall fid, calls_of fid (log (env w')) = calls_of fid (log (env w)).

(** What the retry loop of a query leaves alone. *)
Definition untouched (w w' : World) : Prop :=
  vq w' = vq w /\ activeIntervals (env w') = activeIntervals (env w).

Definition silent (ev : event) : Prop :=
  match ev with EvQueryFn _ => False | _ => True end.

(** Invocation number [i] of a user function is rejected. *)
Definition rejects (settles : nat -> outcome) (i : nat) : Prop :=
  exists e, settles i = Reject e.

Definition rejectsAt (f : QueryFn) (i : nat) : Prop := rejects (fn_run f) i.

(** The producer rejects on every invocation. *)
Definition alwaysRejects (f : QueryFn) : Prop := forall i, rejectsAt f i.

Definition callsIn (f : QueryFn) (w : World) : nat := calls_of (fn_id f) (log (env w)).

(** The callbacks of the options never throw. *)
Definition callbacksReturn (opts : ResolvedOptions) : Prop :=
  (forall f, onSuccess opts = Some f -> forall d, f d = Normal) /\
  (forall f, onError opts = Some f -> forall e, f e = Normal) /\
  (forall f, onSettled opts = Some f -> forall d e, f d e = Normal).

(** The cache and state writes of the success branch. *)
Definition storeSuccess (k : string) (d : value) (w : World) : World :=
  mkWorld
    (set_queryStates (<[k := successState d (now (env w))]> (queryStates (vq w)))
       (set_cache (<[k := mkCacheEntry d (now (env w))]> (cache (vq w))) (vq w)))
    (env w).

(** The world in which [fetchQuery] starts its producer: the fetching
    state is written and the subscribers have been told. *)
Definition started (k : string) (st : QueryState) (w : World) : World :=
  snd (notifySubscribers k (fetchingState st) (snd (setState k (fetchingState st) w))).

(** A producer that always rejects. *)
Definition failFn : QueryFn := mkQueryFn 0 (fun _ => Reject (VStr "Fetch failed")).

Definition retryOptions (r : RetryOption) : QueryOptions :=
  mkQueryOptions None None None (Some r) None None None None None None None None.

(** A producer that resolves once with ["X"] and rejects afterwards. *)
Definition onceFn : QueryFn :=
  mkQueryFn 0 (fun i => match i with O => Resolve (VStr "X") | _ => Reject (VStr "down") end).

(** The states delivered to observer [id] as a subscriber of key [k]. *)
Fixpoint notificationsTo (k : string) (id : nat) (l : list event) : list QueryState :=
  match l with
  | [] => []
  | EvNotify k' id' st :: l' =>
      if String.eqb k k' && Nat.eqb id id'
      then st :: notificationsTo k id l'
      else notificationsTo k id l'
  | _ :: l' => notificationsTo k id l'
  end.

Definition subscribed (k : string) (c : Observer) (q : VanillaQuery) : Prop :=
  exists subs, omap_get k (subscribers q) = Some subs /\ set_has c subs = true.

(** What a [Map] of [Set]s guarantees: no key twice, no callback twice in
    a set. *)
Definition subscribers_wf (m : list (string * list Observer)) : Prop :=
  NoDup (map fst m) /\ Forall (fun ks => NoDup (map obs_id (snd ks))) m.

(** Every timer the host still runs is the one recorded for its key. *)
Definition timers_tracked (w : World) : Prop :=
  forall t, t ∈ activeIntervals (env w) ->
    exists im, intervals (vq w) = Some im /\ im !! timer_key t = Some (timer_id t).

Definition resetEventsOf (k : string) (c : Observer) : list event :=
  EvNotify k (obs_id c) idleState ::
  match obs_run c idleState with Normal => [] | Throw e => [EvConsoleError e] end.

Definition resetEvents (m : list (string * list Observer)) : list event :=
  flat_map (fun ks => flat_map (resetEventsOf (fst ks)) (snd ks)) m.

(** [logs evs w w']: from [w] to [w'] exactly [evs] was logged and nothing
    else changed but pending host work. *)
Definition logs (evs : list event) (w w' : World) : Prop :=
  vq w' = vq w /\
  log (env w') = log (env w) ++ evs /\
  activeIntervals (env w') = activeIntervals (env w).

Definition okFn (v : value) : QueryFn := mkQueryFn 1 (fun _ => Resolve v).

Definition quietObserver (id : nat) : Observer := mkObserver id (fun _ => Normal).

(** One observer subscribed to two keys, a second one that throws. *)
Definition twoKeysWorld : World :=
  snd (subscribeToQuery "b" (mkObserver 8 (fun _ => Throw (VStr "oops")))
    (snd (subscribeToQuery "b" (quietObserver 7)
      (snd (subscribeToQuery "a" (quietObserver 7)
        (snd (useQuery "a" (okFn (VStr "X")) noOptions newWorld))))))).

Definition intervalOptions (ms : Z) : QueryOptions :=
  mkQueryOptions None None None None None None None None None (Some (IntervalNum ms))
    None None.

(** A mutation whose function resolves with the number [0]. *)
Definition zeroMutation : UseMutation.MutationFn :=
  UseMutation.mkMutationFn 0 (fun _ _ => Resolve (VNum 0)).

(** A mutation whose function always rejects with ["E"]. *)
Definition failingMutation : UseMutation.MutationFn :=
  UseMutation.mkMutationFn 1 (fun _ _ => Reject (VStr "E")).

(** A mutation whose function echoes its variables. *)
Definition echoMutation : UseMutation.MutationFn :=
  UseMutation.mkMutationFn 2 (fun v _ => Resolve v).

Definition mutationWorld (fn : UseMutation.MutationFn) : UseMutation.MWorld :=
  UseMutation.mkMWorld (UseMutation.useMutation fn UseMutation.noOptions) browserEnv.

(** [n] top-level fetches of a key, one after the other. *)
Fixpoint fetches (n : nat) (k : string) (w : World) : World :=
  match n with
  | O => w
  | S n' => snd (fetchQuery k (fetches n' k w))
  end.

(** The awaited callbacks of a mutation never throw or reject. *)
Definition mutationCallbacksReturn (opts : UseMutation.MutationOptions) : Prop :=
  (forall f, UseMutation.onSuccess opts = Some f -> forall d v c, f d v c = Normal) /\
  (forall f, UseMutation.onError opts = Some f -> forall e v c, f e v c = Normal) /\
  (forall f, UseMutation.onSettled opts = Some f -> forall d e v c, f d e v c = Normal).

(** Invocations of the mutation function [f] recorded in [w]. *)
Definition mutationCalls (f : UseMutation.MutationFn) (w : UseMutation.MWorld) : nat :=
  UseMutation.mcalls_of (UseMutation.mfn_id f) (log (UseMutation.menv w)).

Definition sameInstance (w w' : UseMutation.MWorld) : Prop :=
  UseMutation.inst w' = UseMutation.inst w.

(** Nothing happened to the instance and the mutation function did not run. *)
Definition mquiet (w w' : UseMutation.MWorld) : Prop :=
  UseMutation.inst w' = UseMutation.inst w /\
  forall fid, UseMutation.mcalls_of fid (log (UseMutation.menv w'))
              = UseMutation.mcalls_of fid (log (UseMutation.menv w)).

Definition msilent (ev : event) : Prop :=
  match ev with EvMutationFn _ _ => False | _ => True end.

(** The updates [mutate] applies once the retry loop has a result. *)
Definition updatesOf (r : FetchResult) : UseMutation.Updates :=
  match r with
  | FetchOk d => UseMutation.successUpdates d
  | FetchErr e => UseMutation.errorUpdates e
  end.

(** ** Traces

    The vocabulary of the statements about what a method logs. *)

(** [w] after the events [evs] have been logged. *)
Definition addLog (evs : list event) (w : World) : World :=
  mkWorld (vq w)
    (mkEnv (now (env w)) (log (env w) ++ evs) (hasWindow (env w)) (documentVisible (env w))
       (timeouts (env w)) (focusListeners (env w)) (activeIntervals (env w))
       (nextTimerId (env w))).

(** [w] with the clock at [t]. *)
Definition atTime (t : Z) (w : World) : World :=
  mkWorld (vq w)
    (mkEnv t (log (env w)) (hasWindow (env w)) (documentVisible (env w))
       (timeouts (env w)) (focusListeners (env w)) (activeIntervals (env w))
       (nextTimerId (env w))).

(** [w] with the engine instance replaced. *)
Definition withVq (q : VanillaQuery) (w : World) : World := mkWorld q (env w).

(** The subscriber set of a key, empty when the key has none. *)
Definition subsOf (k : string) (q : VanillaQuery) : list Observer :=
  default [] (omap_get k (subscribers q)).

(** What one delivery of [st] to [c] logs. *)
Definition deliveryOf (k : string) (st : QueryState) (c : Observer) : list event :=
  EvNotify k (obs_id c) st ::
  match obs_run c st with Normal => [] | Throw e => [EvConsoleError e] end.

Definition deliveries (k : string) (st : QueryState) (subs : list Observer) : list event :=
  flat_map (deliveryOf k st) subs.

(** The retry loop seen from outside: the number of calls of the user
    function so far and the clock. *)
Definition pureAttempt (settles : nat -> outcome) : St (nat * Z) FetchResult :=
  fun ct => (toResult (settles (fst ct)), (S (fst ct), snd ct)).

Definition purePause (ms : Z) : St (nat * Z) unit :=
  fun ct => (tt, (fst ct, snd ct + Z.max 0 ms)).

(** Result, number of calls and clock after the attempts of one fetch
    that starts with [c] calls made, at time [t]. *)
Definition attemptsFrom (settles : nat -> outcome) (delay : DelayOption) (budget : Z)
    (c : nat) (t : Z) : FetchResult * (nat * Z) :=
  withRetries purePause (pureAttempt settles) delay budget (c, t).

(** The [onSettled] call and what the promise becomes. *)
Definition settledCall (f : option (value -> value -> completion)) (d e : value)
    (p : promise) : list event * promise :=
  match f with
  | Some f => ([EvOnSettled d e], match f d e with Normal => p | Throw x => Rejected x end)
  | None => ([], p)
  end.

(** The callbacks of a successful fetch, in call order, and its promise. *)
Definition successCallbacks (opts : ResolvedOptions) (d : value) : list event * promise :=
  match onSuccess opts with
  | Some f =>
      match f d with
      | Normal =>
          (EvOnSuccess d :: fst (settledCall (onSettled opts) d VNull (Resolved d)),
           snd (settledCall (onSettled opts) d VNull (Resolved d)))
      | Throw x => ([EvOnSuccess d], Rejected x)
      end
  | None => settledCall (onSettled opts) d VNull (Resolved d)
  end.

(** The callbacks of a failed fetch, in call order, and its promise. *)
Definition errorCallbacks (opts : ResolvedOptions) (e : value) : list event * promise :=
  if truthy e then
    match onError opts with
    | Some f =>
        match f e with
        | Normal =>
            (EvOnError e
               :: fst (settledCall (onSettled opts) VUndefined e (Resolved VUndefined)),
             snd (settledCall (onSettled opts) VUndefined e (Resolved VUndefined)))
        | Throw x => ([EvOnError e], Rejected x)
        end
    | None => settledCall (onSettled opts) VUndefined e (Resolved VUndefined)
    end
  else ([], Resolved VUndefined).

(** The state a fetch ends in. *)
Definition finalState (st : QueryState) (r : FetchResult) (t : Z) : QueryState :=
  match r with
  | FetchOk d => successState d t
  | FetchErr e => errorState (fetchingState st) e t
  end.

(** The engine after a fetch of [k] that started in state [st]. *)
Definition finalVq (k : string) (st : QueryState) (r : FetchResult) (t : Z)
    (q : VanillaQuery) : VanillaQuery :=
  set_queryStates (<[k := finalState st r t]> (queryStates q))
    (match r with
     | FetchOk d => set_cache (<[k := mkCacheEntry d t]> (cache q)) q
     | FetchErr _ => q
     end).

(** The callbacks a fetch ends with. *)
Definition finalCallbacks (opts : ResolvedOptions) (r : FetchResult) : list event * promise :=
  match r with
  | FetchOk d => successCallbacks opts d
  | FetchErr e => errorCallbacks opts e
  end.

(** The callback calls in a trace. *)
Definition isCallback (ev : event) : bool :=
  match ev with
  | EvOnSuccess _ | EvOnError _ | EvOnSettled _ _ => true
  | _ => false
  end.

(** The waits of the retries number [a + 1] to [a + m]: a negative or zero
    delay is no wait. *)
Fixpoint waitsFrom (delay : DelayOption) (a : Z) (m : nat) : Z :=
  match m with
  | O => 0
  | S m' => Z.max 0 (delayFor delay (a + 1)) + waitsFrom delay (a + 1) m'
  end.

(** The time spent waiting before attempt number [m] (the first attempt is
    number 0 and waits for nothing). *)
Definition waits (delay : DelayOption) (m : nat) : Z := waitsFrom delay 0 m.

(** Events logged between [w] and [w']. *)
Definition traceBetween (w w' : World) : list event :=
  drop (length (log (env w))) (log (env w')).

(** Query options with the three callbacks set. *)
Definition callbackOptions (fs fe : value -> completion) (fd : value -> value -> completion)
    (r : RetryOption) : QueryOptions :=
  mkQueryOptions None None None (Some r) None (Some fs) (Some fe) (Some fd) None None
    None None.

(** A producer that always rejects with [undefined]. *)
Definition voidFailFn : QueryFn := mkQueryFn 3 (fun _ => Reject VUndefined).

(** A producer that rejects twice and then resolves with ["late"]. *)
Definition thirdTimeFn : QueryFn :=
  mkQueryFn 4 (fun i => if (i <? 2)%nat then Reject (VStr "busy") else Resolve (VStr "late")).

(** A key registered with three callbacks that return. *)
Definition callbackWorld (fn : QueryFn) (r : RetryOption) : World :=
  snd (useQuery "cb" fn
         (callbackOptions (fun _ => Normal) (fun _ => Normal) (fun _ _ => Normal) r)
         newWorld).

(** A key registered with an [onSuccess] that throws. *)
Definition throwingWorld : World :=
  snd (useQuery "cb" (okFn (VStr "X"))
         (callbackOptions (fun _ => Throw (VStr "bad callback")) (fun _ => Normal)
            (fun _ _ => Normal) (RetryNum 0))
         newWorld).

(** The errors passed to [console.error], in order. *)
Fixpoint consoleErrors (l : list event) : list value :=
  match l with
  | [] => []
  | EvConsoleError e :: l' => e :: consoleErrors l'
  | _ :: l' => consoleErrors l'
  end.

(** What the callbacks of [subs] throw when they are given [st]. *)
Fixpoint thrownBy (st : QueryState) (subs : list Observer) : list value :=
  match subs with
  | [] => []
  | c :: subs' =>
      match obs_run c st with
      | Throw e => e :: thrownBy st subs'
      | Normal => thrownBy st subs'
      end
  end.

(** No entry at all for the key, in any table of the engine. *)
Definition unknownKey (k : string) (q : VanillaQuery) : Prop :=
  cache q !! k = None /\
  queryStates q !! k = None /\
  queryConfigs q !! k = None /\
  omap_get k (subscribers q) = None /\
  (forall im, intervals q = Some im -> im !! k = None).

(** The instance after [c] has been added to the subscriber set of [k]. *)
Definition withSubscriber (k : string) (c : Observer) (q : VanillaQuery) : VanillaQuery :=
  set_subscribers (omap_set k (set_add c (subsOf k q)) (subscribers q)) q.

(** [{...state, isFetching: false}] *)
Definition cancelledState (st : QueryState) : QueryState :=
  {| data := data st;
     error := error st;
     status := status st;
     isLoading := isLoading st;
     isError := isError st;
     isSuccess := isSuccess st;
     isFetching := false;
     dataUpdatedAt := dataUpdatedAt st;
     errorUpdatedAt := errorUpdatedAt st;
     fetchCount := fetchCount st |}.

(** [twoKeysWorld] while a fetch of ["a"] is waiting for its producer. *)
Definition fetchingWorld : World := started "a" initialState twoKeysWorld.

(** The instance without the entries of [k] in the cache, the states, the
    configs and the subscriber map. *)
Definition forgetKey (k : string) (q : VanillaQuery) : VanillaQuery :=
  mkVanillaQuery (delete k (cache q)) (omap_delete k (subscribers q))
    (delete k (queryConfigs q)) (delete k (queryStates q)) (intervals q).

(** A state as it is stored between two calls: no fetch is running, and
    the flags agree with the status. *)
Definition settled (st : QueryState) : Prop :=
  isFetching st = false /\ isLoading st = false /\
  match status st with
  | StIdle => st = initialState
  | StLoading => False
  | StSuccess => isSuccess st = true /\ isError st = false /\ error st = VNull
  | StError => isSuccess st = false /\ isError st = true
  end.

(** Every stored state is settled, and every cache entry belongs to a key
    whose state carries the cached data. *)
Definition coherent (q : VanillaQuery) : Prop :=
  (forall k st, queryStates q !! k = Some st -> settled st) /\
  (forall k e, cache q !! k = Some e ->
     exists st, queryStates q !! k = Some st /\ data st = entry_data e).

(** The calls a client and the host can make. *)
Inductive Op :=
  | OpUseQuery (k : string) (fn : QueryFn) (opts : QueryOptions)
  | OpPrefetch (k : string) (fn : QueryFn) (opts : QueryOptions)
  | OpFetch (k : string)
  | OpRefetch (k : string)
  | OpInvalidate (k : string)
  | OpCancel (k : string)
  | OpSubscribe (k : string) (c : Observer)
  | OpUnsubscribe (k : string) (c : Observer)
  | OpSetData (k : string) (d : value)
  | OpRemove (k : string)
  | OpClear
  | OpTimeout
  | OpFocus
  | OpTick (t : IntervalTimer).

Definition runOp (o : Op) (w : World) : World :=
  match o with
  | OpUseQuery k fn opts => snd (useQuery k fn opts w)
  | OpPrefetch k fn opts => snd (prefetchQuery k fn opts w)
  | OpFetch k => snd (fetchQuery k w)
  | OpRefetch k => snd (refetchQuery k w)
  | OpInvalidate k => snd (invalidateQuery k w)
  | OpCancel k => snd (cancelQuery k w)
  | OpSubscribe k c => snd (subscribeToQuery k c w)
  | OpUnsubscribe k c => snd (unsubscribe k c w)
  | OpSetData k d => snd (setQueryData k d w)
  | OpRemove k => snd (removeQueryData k w)
  | OpClear => snd (clear w)
  | OpTimeout => snd (runTimeout w)
  | OpFocus => snd (focusWindow w)
  | OpTick t => snd (tickInterval t w)
  end.

(** The calls of [ops], one after the other, each run to its end. *)
Definition runOps (ops : list Op) (w : World) : World :=
  fold_left (fun w o => runOp o w) ops w.

(** The cache and the states are the same in [w'] as in [w]. *)
Definition sameData (w w' : World) : Prop :=
  cache (vq w') = cache (vq w) /\ queryStates (vq w') = queryStates (vq w).

(** Two configs that agree on everything [fetchQuery] reads: the
    producer, the retry options and the three callbacks.  They may differ
    in [enabled], [staleTime], [cacheTime], [keepPreviousData] and the
    refetch options. *)
Definition sameFetchSetup (c1 c2 : QueryConfig) : Prop :=
  queryFn c1 = queryFn c2 /\
  retry (options c1) = retry (options c2) /\
  retryDelay (options c1) = retryDelay (options c2) /\
  onSuccess (options c1) = onSuccess (options c2) /\
  onError (options c1) = onError (options c2) /\
  onSettled (options c1) = onSettled (options c2).

(** Options that only set [enabled], [staleTime] and [cacheTime]. *)
Definition freshnessOptions (en : bool) (stale cacheFor : Z) : QueryOptions :=
  mkQueryOptions (Some en) (Some stale) (Some cacheFor) None None None None None None None
    None None.

(** ** Vocabulary for mutations *)

(** A mutation world after the events [evs] have been logged. *)
Definition maddLog (evs : list event) (w : UseMutation.MWorld) : UseMutation.MWorld :=
  UseMutation.mkMWorld (UseMutation.inst w)
    (mkEnv (now (UseMutation.menv w)) (log (UseMutation.menv w) ++ evs)
       (hasWindow (UseMutation.menv w)) (documentVisible (UseMutation.menv w))
       (timeouts (UseMutation.menv w)) (focusListeners (UseMutation.menv w))
       (activeIntervals (UseMutation.menv w)) (nextTimerId (UseMutation.menv w))).

(** A mutation world with the clock at [t]. *)
Definition matTime (t : Z) (w : UseMutation.MWorld) : UseMutation.MWorld :=
  UseMutation.mkMWorld (UseMutation.inst w)
    (mkEnv t (log (UseMutation.menv w))
       (hasWindow (UseMutation.menv w)) (documentVisible (UseMutation.menv w))
       (timeouts (UseMutation.menv w)) (focusListeners (UseMutation.menv w))
       (activeIntervals (UseMutation.menv w)) (nextTimerId (UseMutation.menv w))).

(** A mutation world with the state object holding [m]. *)
Definition withState (m : Mutation.MutationState) (w : UseMutation.MWorld)
    : UseMutation.MWorld :=
  UseMutation.mkMWorld
    (UseMutation.mkInstance (UseMutation.mutationFn (UseMutation.inst w))
       (UseMutation.finalOptions (UseMutation.inst w)) m
       (UseMutation.subscribers (UseMutation.inst w)))
    (UseMutation.menv w).

(** A mutation world with the subscriber set [subs]. *)
Definition withObservers (subs : list UseMutation.MObserver) (w : UseMutation.MWorld)
    : UseMutation.MWorld :=
  UseMutation.mkMWorld
    (UseMutation.mkInstance (UseMutation.mutationFn (UseMutation.inst w))
       (UseMutation.finalOptions (UseMutation.inst w))
       (UseMutation.mutationState (UseMutation.inst w)) subs)
    (UseMutation.menv w).

(** What one delivery of the mutation state [st] to [c] logs. *)
Definition mdeliveryOf (st : Mutation.MutationState) (c : UseMutation.MObserver)
    : list event :=
  EvMutationNotify (UseMutation.mobs_id c) st ::
  match UseMutation.mobs_run c st with Normal => [] | Throw e => [EvConsoleError e] end.

Definition mdeliveries (st : Mutation.MutationState) (subs : list UseMutation.MObserver)
    : list event :=
  flat_map (mdeliveryOf st) subs.

(** The mutation states the observer [id] was given, in order. *)
Fixpoint mutationNotificationsTo (id : nat) (l : list event)
    : list Mutation.MutationState :=
  match l with
  | [] => []
  | EvMutationNotify id' st :: l' =>
      if Nat.eqb id id' then st :: mutationNotificationsTo id l'
      else mutationNotificationsTo id l'
  | _ :: l' => mutationNotificationsTo id l'
  end.

Definition mutationTraceBetween (w w' : UseMutation.MWorld) : list event :=
  drop (length (log (UseMutation.menv w))) (log (UseMutation.menv w')).

Definition msubscribed (c : UseMutation.MObserver) (w : UseMutation.MWorld) : bool :=
  existsb (fun c' => Nat.eqb (UseMutation.mobs_id c) (UseMutation.mobs_id c'))
    (UseMutation.subscribers (UseMutation.inst w)).

(** What [onMutate] logs, and the context [mutate] goes on with. *)
Definition onMutateEvents (opts : UseMutation.MutationOptions) (v : value)
    : list event * value :=
  match UseMutation.onMutate opts with
  | Some f =>
      match f v with
      | Resolve c => ([EvOnMutate v], c)
      | Reject e => ([EvOnMutate v; EvConsoleError e], VUndefined)
      end
  | None => ([], VUndefined)
  end.

(** The [onSettled] call of a mutation and what the promise becomes. *)
Definition mutationSettled (opts : UseMutation.MutationOptions) (v ctx : value)
    (r : FetchResult) : list event * promise :=
  match UseMutation.onSettled opts with
  | Some f =>
      let d := match r with FetchOk d => d | FetchErr _ => VUndefined end in
      let e := match r with FetchOk _ => VNull | FetchErr e => js_or e VNull end in
      ([EvOnSettled d e],
       match f d e v ctx with
       | Normal => UseMutation.returned r
       | Throw x => Rejected x
       end)
  | None => ([], UseMutation.returned r)
  end.

(** The callbacks a mutation ends with, in call order, and its promise. *)
Definition mutationCallbacks (opts : UseMutation.MutationOptions) (v ctx : value)
    (r : FetchResult) : list event * promise :=
  match r with
  | FetchOk d =>
      match UseMutation.onSuccess opts with
      | Some f =>
          match f d v ctx with
          | Normal =>
              (EvOnSuccess d :: fst (mutationSettled opts v ctx r),
               snd (mutationSettled opts v ctx r))
          | Throw x => ([EvOnSuccess d], Rejected x)
          end
      | None => mutationSettled opts v ctx r
      end
  | FetchErr e =>
      match UseMutation.onError opts with
      | Some f =>
          if truthy e then
            match f e v ctx with
            | Normal =>
                (EvOnError e :: fst (mutationSettled opts v ctx r),
                 snd (mutationSettled opts v ctx r))
            | Throw x => ([EvOnError e], Rejected x)
            end
          else mutationSettled opts v ctx r
      | None => mutationSettled opts v ctx r
      end
  end.

(** The state object while the mutation function runs, and when the
    mutation has ended with [r]. *)
Definition loadingMutation (m : Mutation.MutationState) : Mutation.MutationState :=
  UseMutation.assign m UseMutation.loadingUpdates.

Definition finalMutation (m : Mutation.MutationState) (r : FetchResult)
    : Mutation.MutationState :=
  UseMutation.assign (loadingMutation m) (updatesOf r).

(** A mutation instance with two subscribers, the second of which throws. *)
Definition observedMutation (fn : UseMutation.MutationFn) (opts : UseMutation.PartialOptions)
    : UseMutation.MWorld :=
  snd (UseMutation.subscribe (UseMutation.mkMObserver 2 (fun _ => Throw (VStr "oops")))
    (snd (UseMutation.subscribe (UseMutation.mkMObserver 1 (fun _ => Normal))
      (UseMutation.mkMWorld (UseMutation.useMutation fn opts) browserEnv)))).

(** Mutation options with the four callbacks set; the last three return. *)
Definition mutationCallbackOptions (fm : value -> outcome) (r : Z)
    : UseMutation.PartialOptions :=
  UseMutation.mkPartialOptions (Some fm) (Some (fun _ _ _ => Normal))
    (Some (fun _ _ _ => Normal)) (Some (fun _ _ _ _ => Normal)) (Some r) (Some (DelayNum 10)).

(** A mutation whose function always rejects with [undefined]. *)
Definition voidMutation : UseMutation.MutationFn :=
  UseMutation.mkMutationFn 5 (fun _ _ => Reject VUndefined).

(** [onMutate] is not called (again). *)
Definition notOnMutate (ev : event) : Prop :=
  match ev with EvOnMutate _ => False | _ => True end.

(** ** The Alpine.js plugin ([alpine-plugin.js], [$query.get])

    [get] registers the key, builds a reactive store from the state of the
    key and subscribes a callback that copies each property of a notified
    state into the store when the store has a property of that name.  The
    store has all ten properties of a state, so the callback overwrites
    the properties the notified state has and leaves the others.  The
    callback does nothing else and does not throw; what it has done to the
    store is determined by the states it was called with. *)

Record QueryStore := mkQueryStore {
  store_data : value;
  store_error : value;
  store_status : Status;
  store_isLoading : bool;
  store_isError : bool;
  store_isSuccess : bool;
  store_isFetching : bool;
  store_dataUpdatedAt : Z;
  store_errorUpdatedAt : Z;
  store_fetchCount : Z;
}.

(** [Alpine.reactive({ data: query.state.data, ...,
                       dataUpdatedAt: query.state.dataUpdatedAt || 0, ... })] *)
Definition newStore (st : QueryState) : QueryStore :=
  {| store_data := data st;
     store_error := error st;
     store_status := status st;
     store_isLoading := isLoading st;
     store_isError := isError st;
     store_isSuccess := isSuccess st;
     store_isFetching := isFetching st;
     store_dataUpdatedAt := default 0 (dataUpdatedAt st);
     store_errorUpdatedAt := default 0 (errorUpdatedAt st);
     store_fetchCount := default 0 (fetchCount st) |}.

(** [Object.entries(state).forEach(([key, value]) => {
       if (key in queryStore) queryStore[key] = value })] *)
Definition syncStore (store : QueryStore) (st : QueryState) : QueryStore :=
  {| store_data := data st;
     store_error := error st;
     store_status := status st;
     store_isLoading := isLoading st;
     store_isError := isError st;
     store_isSuccess := isSuccess st;
     store_isFetching := isFetching st;
     store_dataUpdatedAt := default (store_dataUpdatedAt store) (dataUpdatedAt st);
     store_errorUpdatedAt := default (store_errorUpdatedAt store) (errorUpdatedAt st);
     store_fetchCount := default (store_fetchCount store) (fetchCount st) |}.

(** The store after its callback has been called with each of [sts]. *)
Definition syncAll (store : QueryStore) (sts : list QueryState) : QueryStore :=
  fold_left syncStore sts store.

(** The callback of the store; [cb] is its identity. *)
Definition storeObserver (cb : nat) : Observer := mkObserver cb (fun _ => Normal).

(** [get(key, fetcher, options)]: the store it returns, after the call the
    subscription makes at once. *)
Definition alpineGet (key : string) (fetcher : QueryFn) (options : QueryOptions) (cb : nat)
    : M QueryStore :=
  run useQuery key fetcher options in
  let* q := getVq in
  let queryStore := newStore (getQueryState key q) in
  let* e := getEnv in
  run subscribeToQuery key (storeObserver cb) in
  let* e' := getEnv in
  ret (syncAll queryStore (notificationsTo key cb (drop (length (log e)) (log e')))).

(** The store after the notifications logged between [w0] and [w]. *)
Definition storeAfter (key : string) (cb : nat) (store : QueryStore) (w0 w : World)
    : QueryStore :=
  syncAll store (notificationsTo key cb (traceBetween w0 w)).

(** The store shows the seven properties every state object has. *)
Definition mirrors (s : QueryStore) (st : QueryState) : Prop :=
  store_data s = data st /\
  store_error s = error st /\
  store_status s = status st /\
  store_isLoading s = isLoading st /\
  store_isError s = isError st /\
  store_isSuccess s = isSuccess st /\
  store_isFetching s = isFetching st.

(** The calls that leave the subscription of the store in place. *)
Definition keepsSubscription (key : string) (cb : nat) (o : Op) : Prop :=
  match o with
  | OpRemove k => k <> key
  | OpClear => False
  | OpUnsubscribe k c => k <> key \/ obs_id c <> cb
  | _ => True
  end.

(** The store is subscribed and shows the state of its key. *)
Definition inSync (key : string) (cb : nat) (w : World) (s : QueryStore) : Prop :=
  subscribed key (storeObserver cb) (vq w) /\ mirrors s (getQueryState key (vq w)).

(** From [w] to [w'] events were logged that keep a store in sync. *)
Definition syncStep (key : string) (cb : nat) (w w' : World) : Prop :=
  exists evs,
    log (env w') = log (env w) ++ evs /\
    forall s, inSync key cb w s -> inSync key cb w' (syncAll s (notificationsTo key cb evs)).

(** The states the callback [id] was called with, under whatever key: the
    key of a notification is kept by the log only, a callback is given the
    state alone. *)
Fixpoint callsTo (id : nat) (l : list event) : list QueryState :=
  match l with
  | [] => []
  | EvNotify _ id' st :: l' =>
      if Nat.eqb id id' then st :: callsTo id l' else callsTo id l'
  | _ :: l' => callsTo id l'
  end.

(** The number of keys whose subscriber set holds the callback. *)
Fixpoint subscriptionsOf (c : Observer) (m : list (string * list Observer)) : nat :=
  match m with
  | [] => 0%nat
  | ks :: m' => ((if set_has c (snd ks) then 1 else 0) + subscriptionsOf c m')%nat
  end.

(** The longest delay a timer of the host waits for, [2^31 - 1] ms. *)
Definition maxTimerDelay : Z := 2147483647.

(** The focus listeners that fetch. *)
Fixpoint enabledListeners (l : list (string * bool)) : nat :=
  match l with
  | [] => 0%nat
  | kl :: l' => ((if snd kl then 1 else 0) + enabledListeners l')%nat
  end.

(** A call that runs to its end before the next one starts.  The
    listeners of a focus event start their fetches in the same turn, so a
    focus event is such a call only when at most one listener fetches. *)
Definition sequential (o : Op) (w : World) : Prop :=
  match o with
  | OpFocus => (enabledListeners (focusListeners (env w)) <= 1)%nat
  | _ => True
  end.

(** Every call of [ops], made from [w] on, is sequential. *)
Fixpoint admissible (ops : list Op) (w : World) : Prop :=
  match ops with
  | [] => True
  | o :: ops' => sequential o w /\ admissible ops' (runOp o w)
  end.

(** * Properties of the engine *)

(** ** Frame reasoning

    [R] relates the world before a computation to the world after it. *)

Section Frame.
Context {W : Type}.
Variable R : W -> W -> Prop.
Hypothesis R_refl : forall w, R w w.
Hypothesis R_trans : forall w1 w2 w3, R w1 w2 -> R w2 w3 -> R w1 w3.

Lemma keeps_ret {A} (a : A) : keeps R (ret a).
Proof. intros w. apply R_refl. Qed.

Lemma keeps_bind {A B} (m : St W A) (f : A -> St W B) :
  keeps R m -> (forall a, keeps R (f a)) -> keeps R (bind m f).
Proof.
  intros Hm Hf w. unfold bind.
  specialize (Hm w). destruct (m w) as [a w1]. simpl in Hm.
  eapply R_trans; [exact Hm | apply Hf].
Qed.

Lemma keeps_forEach {A} (f : A -> St W unit) (l : list A) :
  (forall a, keeps R (f a)) -> keeps R (forEach f l).
Proof.
  intros Hf. induction l as [|a l IH]; simpl.
  - apply keeps_ret.
  - apply keeps_bind; [apply Hf | intros _; exact IH].
Qed.
End Frame.

Lemma bind_snd {W A B} (m : St W A) (f : A -> St W B) (w : W) :
  snd (bind m f w) = snd (f (fst (m w)) (snd (m w))).
Proof. unfold bind. destruct (m w). reflexivity. Qed.

Lemma calls_of_app fid l1 l2 :
  calls_of fid (l1 ++ l2) = (calls_of fid l1 + calls_of fid l2)%nat.
Proof.
  induction l1 as [|ev l1 IH]; simpl; [reflexivity|].
  destruct ev; simpl; rewrite IH; lia.
Qed.

Lemma quiet_refl w : quiet w w.
Proof. repeat split. Qed.

Lemma quiet_trans w1 w2 w3 : quiet w1 w2 -> quiet w2 w3 -> quiet w1 w3.
Proof.
  intros (A1 & B1 & C1 & D1) (A2 & B2 & C2 & D2).
  split; [congruence|]. split; [congruence|]. split; [congruence|].
  intros fid. rewrite D2. apply D1.
Qed.

Lemma emit_quiet ev : silent ev -> keeps quiet (emit ev).
Proof.
  intros Hev w. split; [reflexivity|]. split; [reflexivity|]. split; [reflexivity|].
  intros fid. simpl. rewrite calls_of_app.
  destruct ev; simpl in *; first [contradiction | lia].
Qed.

Lemma deliver_quiet k st c : keeps quiet (deliver k st c).
Proof.
  unfold deliver. apply (keeps_bind quiet quiet_trans).
  - apply emit_quiet. exact I.
  - intros _. destruct (obs_run c st).
    + apply keeps_ret. apply quiet_refl.
    + apply emit_quiet. exact I.
Qed.

Lemma notifySubscribers_quiet k st : keeps quiet (notifySubscribers k st).
Proof.
  intros w. unfold notifySubscribers, bind, getVq.
  destruct (omap_get k (subscribers (vq w))) as [subs|].
  - apply (keeps_forEach quiet quiet_refl quiet_trans). apply deliver_quiet.
  - apply quiet_refl.
Qed.

(** ** The retry loop

    The loop of [fetchQuery] and the loop of [mutate] are the same code
    over different state, so they are studied once: [perform] settles to
    what invocation number [calls w] of the user function settles to and
    counts one more call; [pause] counts none; both respect [frame]. *)

(** The fuel [Z.to_nat (budget - attempt)] is never what stops the loop:
    with more fuel the loop does exactly the same. *)
Lemma retryLoop_fuel_enough {W} (pause : Z -> St W unit) (perform : St W FetchResult)
    delay budget :
  forall (fuel : nat) (attempt : Z) (result : FetchResult) (w : W) (extra : nat),
    fuel = Z.to_nat (budget - attempt) ->
    retryLoop pause (fuel + extra) perform delay budget attempt result w
      = retryLoop pause fuel perform delay budget attempt result w.
Proof.
  induction fuel as [|fuel IH]; intros attempt result w extra Hfuel.
  - assert (Hge : (attempt <? budget) = false) by (apply Z.ltb_ge; lia).
    destruct extra as [|extra]; [reflexivity|].
    cbn [Nat.add retryLoop]. rewrite Hge, andb_false_r. reflexivity.
  - cbn [Nat.add retryLoop].
    destruct (negb (success result) && (attempt <? budget)); [|reflexivity].
    unfold bind. destruct (pause _ w) as [[] w1]. destruct (perform w1) as [r w2].
    apply IH. lia.
Qed.

Section RetryLoop.
Context {W : Type}.
Variable pause : Z -> St W unit.
Variable perform : St W FetchResult.
Variable calls : W -> nat.
Variable settles : nat -> outcome.
Variable frame : W -> W -> Prop.
Hypothesis frame_refl : forall w, frame w w.
Hypothesis frame_trans : forall w1 w2 w3, frame w1 w2 -> frame w2 w3 -> frame w1 w3.
Hypothesis pause_calls : forall ms w, calls (snd (pause ms w)) = calls w.
Hypothesis pause_frame : forall ms w, frame w (snd (pause ms w)).
Hypothesis perform_result : forall w, fst (perform w) = toResult (settles (calls w)).
Hypothesis perform_calls : forall w, calls (snd (perform w)) = S (calls w).
Hypothesis perform_frame : forall w, frame w (snd (perform w)).

(** One turn of the loop body: pause, then perform. *)
Lemma retry_turn (ms : Z) (w : W) :
  exists w2,
    (let* _ := pause ms in perform) w = (toResult (settles (calls w)), w2) /\
    frame w w2 /\ calls w2 = S (calls w).
Proof.
  unfold bind. pose proof (pause_calls ms w) as Hc. pose proof (pause_frame ms w) as Hf.
  destruct (pause ms w) as [[] w1]. cbn [snd] in Hc, Hf.
  pose proof (perform_result w1) as Hr. pose proof (perform_calls w1) as Hc2.
  pose proof (perform_frame w1) as Hf2.
  destruct (perform w1) as [r w2]. cbn [fst snd] in Hr, Hc2, Hf2.
  exists w2. rewrite Hr, Hc. split; [reflexivity|]. split; [|congruence].
  eapply frame_trans; eassumption.
Qed.

Lemma retryLoop_step (fuel : nat) delay budget attempt e (w : W) :
  attempt < budget ->
  retryLoop pause (S fuel) perform delay budget attempt (FetchErr e) w =
    (let* result := (let* _ := pause (delayFor delay (attempt + 1)) in perform) in
     retryLoop pause fuel perform delay budget (attempt + 1) result) w.
Proof.
  intros Hlt. apply Z.ltb_lt in Hlt. cbn [retryLoop success negb andb]. rewrite Hlt.
  unfold bind. destruct (pause _ w) as [[] w1]. reflexivity.
Qed.

(** A loop entered after a failure, whose user function keeps rejecting,
    calls it once per unit of fuel and ends on a failure. *)
Lemma retryLoop_rejects delay budget :
  forall (fuel : nat) (attempt : Z) (e : value) (w : W),
    fuel = Z.to_nat (budget - attempt) ->
    (forall i, (i < fuel)%nat -> rejects settles (calls w + i)) ->
    exists e' w',
      retryLoop pause fuel perform delay budget attempt (FetchErr e) w = (FetchErr e', w') /\
      frame w w' /\
      calls w' = (calls w + fuel)%nat /\
      (fuel = 0%nat -> e' = e) /\
      (forall n, fuel = S n -> settles (calls w + n) = Reject e').
Proof.
  induction fuel as [|fuel IH]; intros attempt e w Hfuel Hrej.
  - exists e, w. simpl. rewrite Nat.add_0_r.
    split; [reflexivity|]. split; [apply frame_refl|]. split; [reflexivity|].
    split; [reflexivity|]. intros n Hn. discriminate Hn.
  - rewrite retryLoop_step by lia. unfold bind at 1.
    destruct (retry_turn (delayFor delay (attempt + 1)) w) as (w2 & Heq & Hf & Hc).
    rewrite Heq. destruct (Hrej 0%nat ltac:(lia)) as [e1 He1].
    rewrite Nat.add_0_r in He1. rewrite He1. cbn [toResult].
    destruct (IH (attempt + 1) e1 w2) as (e' & w' & Hloop & Hf' & Hc' & Hzero & Hlast).
    + lia.
    + intros i Hi. rewrite Hc.
      replace (S (calls w) + i)%nat with (calls w + S i)%nat by lia.
      apply Hrej. lia.
    + exists e', w'. split; [exact Hloop|]. split; [eapply frame_trans; eassumption|].
      split; [rewrite Hc', Hc; lia|]. split; [intros Hn; discriminate Hn|].
      intros n Hn. injection Hn as Hn. subst n. destruct fuel as [|m].
      * rewrite (Hzero eq_refl), Nat.add_0_r. exact He1.
      * rewrite <- (Hlast m eq_refl), Hc. f_equal. lia.
Qed.

(** A loop entered after a failure stops at the first invocation that
    resolves, when the budget reaches that far. *)
Lemma retryLoop_resolves delay budget (d : value) :
  forall (j fuel : nat) (attempt : Z) (e : value) (w : W),
    fuel = Z.to_nat (budget - attempt) ->
    (j < fuel)%nat ->
    (forall i, (i < j)%nat -> rejects settles (calls w + i)) ->
    settles (calls w + j) = Resolve d ->
    exists w',
      retryLoop pause fuel perform delay budget attempt (FetchErr e) w = (FetchOk d, w') /\
      frame w w' /\
      calls w' = (calls w + S j)%nat.
Proof.
  induction j as [|j IH]; intros fuel attempt e w Hfuel Hj Hrej Hres;
    (destruct fuel as [|fuel]; [lia|]);
    rewrite retryLoop_step by lia; unfold bind at 1;
    destruct (retry_turn (delayFor delay (attempt + 1)) w) as (w2 & Heq & Hf & Hc);
    rewrite Heq.
  - rewrite Nat.add_0_r in Hres. rewrite Hres. cbn [toResult].
    exists w2. split; [destruct fuel; reflexivity|]. split; [exact Hf|]. rewrite Hc. lia.
  - destruct (Hrej 0%nat ltac:(lia)) as [e1 He1].
    rewrite Nat.add_0_r in He1. rewrite He1. cbn [toResult].
    destruct (IH fuel (attempt + 1) e1 w2) as (w' & Hloop & Hf' & Hc').
    + lia.
    + lia.
    + intros i Hi. rewrite Hc.
      replace (S (calls w) + i)%nat with (calls w + S i)%nat by lia.
      apply Hrej. lia.
    + rewrite Hc.
      replace (S (calls w) + j)%nat with (calls w + S j)%nat by lia.
      exact Hres.
    + exists w'. split; [exact Hloop|]. split; [eapply frame_trans; eassumption|].
      rewrite Hc', Hc. lia.
Qed.

Lemma first_attempt (w : W) :
  exists w1,
    perform w = (toResult (settles (calls w)), w1) /\
    frame w w1 /\ calls w1 = S (calls w).
Proof.
  pose proof (perform_result w) as Hr. pose proof (perform_calls w) as Hc.
  pose proof (perform_frame w) as Hf.
  destruct (perform w) as [r w1]. cbn [fst snd] in Hr, Hc, Hf.
  exists w1. rewrite Hr. auto.
Qed.

(** All [1 + budget] attempts are rejected: the result is the last error. *)
Lemma withRetries_rejects delay budget (w : W) :
  (forall i, (i <= Z.to_nat budget)%nat -> rejects settles (calls w + i)) ->
  exists e w',
    withRetries pause perform delay budget w = (FetchErr e, w') /\
    frame w w' /\
    calls w' = (calls w + S (Z.to_nat budget))%nat /\
    settles (calls w + Z.to_nat budget) = Reject e.
Proof.
  intros Hrej. unfold withRetries, bind.
  destruct (first_attempt w) as (w1 & Heq & Hf & Hc). rewrite Heq.
  destruct (Hrej 0%nat ltac:(lia)) as [e0 He0]. rewrite Nat.add_0_r in He0.
  rewrite He0. cbn [toResult].
  destruct (retryLoop_rejects delay budget (Z.to_nat budget) 0 e0 w1)
    as (e' & w' & Hloop & Hf' & Hc' & Hzero & Hlast).
  - f_equal. lia.
  - intros i Hi. rewrite Hc.
    replace (S (calls w) + i)%nat with (calls w + S i)%nat by lia.
    apply Hrej. lia.
  - exists e', w'. split; [exact Hloop|]. split; [eapply frame_trans; eassumption|].
    split; [rewrite Hc', Hc; lia|].
    destruct (Z.to_nat budget) as [|n] eqn:En.
    + rewrite (Hzero eq_refl), Nat.add_0_r. exact He0.
    + rewrite <- (Hlast n eq_refl), Hc. f_equal. lia.
Qed.

(** Attempt number [j], within budget, is the first to resolve. *)
Lemma withRetries_first_success delay budget (w : W) (j : nat) (d : value) :
  (j <= Z.to_nat budget)%nat ->
  (forall i, (i < j)%nat -> rejects settles (calls w + i)) ->
  settles (calls w + j) = Resolve d ->
  exists w',
    withRetries pause perform delay budget w = (FetchOk d, w') /\
    frame w w' /\
    calls w' = (calls w + S j)%nat.
Proof.
  intros Hj Hrej Hres. unfold withRetries, bind.
  destruct (first_attempt w) as (w1 & Heq & Hf & Hc). rewrite Heq.
  destruct j as [|j].
  - rewrite Nat.add_0_r in Hres. rewrite Hres. cbn [toResult].
    exists w1. split; [destruct (Z.to_nat budget); reflexivity|].
    split; [exact Hf|]. rewrite Hc. lia.
  - destruct (Hrej 0%nat ltac:(lia)) as [e0 He0]. rewrite Nat.add_0_r in He0.
    rewrite He0. cbn [toResult].
    destruct (retryLoop_resolves delay budget d j (Z.to_nat budget) 0 e0 w1)
      as (w' & Hloop & Hf' & Hc').
    + f_equal. lia.
    + lia.
    + intros i Hi. rewrite Hc.
      replace (S (calls w) + i)%nat with (calls w + S i)%nat by lia.
      apply Hrej. lia.
    + rewrite Hc.
      replace (S (calls w) + j)%nat with (calls w + S j)%nat by lia.
      exact Hres.
    + exists w'. split; [exact Hloop|]. split; [eapply frame_trans; eassumption|].
      rewrite Hc', Hc. lia.
Qed.

(** Within [n] retries a user function either rejects every time or
    there is a first invocation that resolves. *)
Lemma attempts_cases (c n : nat) :
  (forall i, (i <= n)%nat -> rejects settles (c + i)) \/
  (exists j d, (j <= n)%nat /\
     (forall i, (i < j)%nat -> rejects settles (c + i)) /\ settles (c + j) = Resolve d).
Proof.
  induction n as [|n [IH|(j & d & Hj & Hrej & Hres)]].
  - destruct (settles (c + 0)) as [d|e] eqn:E.
    + right. exists 0%nat, d. split; [lia|]. split; [intros i Hi; lia | exact E].
    + left. intros i Hi. replace i with 0%nat by lia. exists e. exact E.
  - destruct (settles (c + S n)) as [d|e] eqn:E.
    + right. exists (S n), d. split; [lia|]. split; [|exact E].
      intros i Hi. apply IH. lia.
    + left. intros i Hi. destruct (decide (i = S n)) as [->|Hne].
      * exists e. exact E.
      * apply IH. lia.
  - right. exists j, d. split; [lia|]. split; assumption.
Qed.
End RetryLoop.

(** *** The loop of [fetchQuery] *)

(** What the retry loop of a query leaves alone. *)
Lemma untouched_refl w : untouched w w.
Proof. split; reflexivity. Qed.

Lemma untouched_trans w1 w2 w3 : untouched w1 w2 -> untouched w2 w3 -> untouched w1 w3.
Proof. intros [A1 B1] [A2 B2]. split; congruence. Qed.

Lemma callsIn_emit f w :
  callsIn f (snd (emit (EvQueryFn (fn_id f)) w)) = S (callsIn f w).
Proof.
  unfold callsIn. simpl. rewrite calls_of_app. simpl. rewrite Nat.eqb_refl. lia.
Qed.

Lemma withRetries_exhausted f delay budget w :
  (forall i, (i <= Z.to_nat budget)%nat -> rejectsAt f (callsIn f w + i)) ->
  exists e w',
    withRetries sleep (performFetch f) delay budget w = (FetchErr e, w') /\
    vq w' = vq w /\
    activeIntervals (env w') = activeIntervals (env w) /\
    callsIn f w' = (callsIn f w + S (Z.to_nat budget))%nat.
Proof.
  intros Hrej.
  destruct (withRetries_rejects sleep (performFetch f) (callsIn f) (fn_run f) untouched
              untouched_refl untouched_trans
              (fun ms w => eq_refl) (fun ms w => untouched_refl _)
              (fun w => eq_refl) (callsIn_emit f) (fun w => untouched_refl _)
              delay budget w Hrej)
    as (e & w' & Heq & [Hvq Hti] & Hc & _).
  exists e, w'. auto.
Qed.

Lemma withRetries_resolves f delay budget w (j : nat) (d : value) :
  (j <= Z.to_nat budget)%nat ->
  (forall i, (i < j)%nat -> rejectsAt f (callsIn f w + i)) ->
  fn_run f (callsIn f w + j) = Resolve d ->
  exists w',
    withRetries sleep (performFetch f) delay budget w = (FetchOk d, w') /\
    vq w' = vq w /\
    activeIntervals (env w') = activeIntervals (env w) /\
    callsIn f w' = (callsIn f w + S j)%nat.
Proof.
  intros Hj Hrej Hres.
  destruct (withRetries_first_success sleep (performFetch f) (callsIn f) (fn_run f)
              untouched untouched_trans
              (fun ms w => eq_refl) (fun ms w => untouched_refl _)
              (fun w => eq_refl) (callsIn_emit f) (fun w => untouched_refl _)
              delay budget w j d Hj Hrej Hres)
    as (w' & Heq & [Hvq Hti] & Hc).
  exists w'. auto.
Qed.

(** ** Settling a fetch *)

Lemma orReject_quiet c (k : M promise) : keeps quiet k -> keeps quiet (orReject c k).
Proof. intros Hk. destruct c; [exact Hk | apply keeps_ret, quiet_refl]. Qed.

Ltac quiet_steps :=
  repeat first
    [ apply (keeps_bind quiet quiet_trans); [|intros ?]
    | apply emit_quiet; exact I
    | apply notifySubscribers_quiet
    | apply orReject_quiet
    | apply keeps_ret, quiet_refl ].

(** Turn a goal [quiet w (snd (m w))] into [keeps quiet m]. *)
Ltac as_keeps :=
  match goal with
  | |- quiet ?W (snd (?m ?W)) => generalize W; change (keeps quiet m)
  end.

(** After the state write, [settleError] only notifies and calls back. *)
Lemma settleError_frame k opts ns e w :
  quiet (snd (setState k (errorState ns e (now (env w))) w))
        (snd (settleError k opts ns e w)).
Proof.
  unfold settleError. unfold bind at 1. cbn [dateNow].
  unfold bind at 1. cbn [setState modifyVq snd].
  as_keeps.
  apply (keeps_bind quiet quiet_trans); [apply notifySubscribers_quiet|intros _].
  destruct (truthy e); [|apply keeps_ret, quiet_refl].
  destruct (onError opts), (onSettled opts); cbv zeta; quiet_steps.
Qed.

Lemma settleError_result k opts ns e w :
  callbacksReturn opts -> fst (settleError k opts ns e w) = Resolved VUndefined.
Proof.
  intros (_ & HE & HS). unfold settleError, bind. cbn [dateNow setState modifyVq].
  destruct (notifySubscribers _ _ _) as [[] w2].
  destruct (truthy e); [|reflexivity].
  destruct (onError opts) as [fe|] eqn:E1; destruct (onSettled opts) as [fs|] eqn:E2;
    cbn; rewrite ?(HE _ eq_refl), ?(HS _ eq_refl); reflexivity.
Qed.

Lemma settleSuccess_frame k opts d w :
  quiet (storeSuccess k d w) (snd (settleSuccess k opts d w)).
Proof.
  unfold settleSuccess. unfold bind at 1. cbn [dateNow].
  unfold bind at 1. cbn [dateNow].
  unfold bind at 1. cbn [modifyVq].
  unfold bind at 1. cbn [setState modifyVq snd].
  change (mkWorld _ _) with (storeSuccess k d w).
  as_keeps.
  apply (keeps_bind quiet quiet_trans); [apply notifySubscribers_quiet|intros _].
  destruct (onSuccess opts), (onSettled opts); cbv zeta; quiet_steps.
Qed.

Lemma settleSuccess_result k opts d w :
  callbacksReturn opts -> fst (settleSuccess k opts d w) = Resolved d.
Proof.
  intros (HO & _ & HS). unfold settleSuccess, bind. cbn [dateNow setState modifyVq].
  destruct (notifySubscribers _ _ _) as [[] w2].
  destruct (onSuccess opts) as [fo|] eqn:E1; destruct (onSettled opts) as [fs|] eqn:E2;
    cbn; rewrite ?(HO _ eq_refl), ?(HS _ eq_refl); reflexivity.
Qed.

(** ** [fetchQuery] on a registered key *)

Lemma started_spec k st w :
  vq (started k st w)
    = set_queryStates (<[k := fetchingState st]> (queryStates (vq w))) (vq w) /\
  now (env (started k st w)) = now (env w) /\
  activeIntervals (env (started k st w)) = activeIntervals (env w) /\
  forall f, callsIn f (started k st w) = callsIn f w.
Proof.
  unfold started.
  destruct (notifySubscribers_quiet k (fetchingState st)
              (snd (setState k (fetchingState st) w))) as (A & B & C & D).
  split; [rewrite A; reflexivity|]. split; [rewrite B; reflexivity|].
  split; [rewrite C; reflexivity|]. intros f. unfold callsIn. rewrite D. reflexivity.
Qed.

Lemma fetchQuery_unfold k cfg st w :
  queryConfigs (vq w) !! k = Some cfg ->
  queryStates (vq w) !! k = Some st ->
  fetchQuery k w =
    let rw := withRetries sleep (performFetch (queryFn cfg)) (retryDelay (options cfg))
                (maxRetries (retry (options cfg))) (started k st w) in
    match fst rw with
    | FetchOk d => settleSuccess k (options cfg) d (snd rw)
    | FetchErr e => settleError k (options cfg) (fetchingState st) e (snd rw)
    end.
Proof.
  intros Hcfg Hst. unfold fetchQuery. unfold bind at 1. cbn [getVq].
  rewrite Hcfg, Hst. cbv zeta. unfold started.
  unfold bind at 1. destruct (setState k (fetchingState st) w) as [[] w1]. cbn [snd].
  unfold bind at 1. destruct (notifySubscribers k (fetchingState st) w1) as [[] w2]. cbn [snd].
  unfold bind at 1. destruct (withRetries _ _ _ _ w2) as [r w3].
  destruct r; reflexivity.
Qed.

(** A fetch whose producer rejects every attempt the budget allows. *)
Lemma fetchQuery_failure k cfg st w :
  queryConfigs (vq w) !! k = Some cfg ->
  queryStates (vq w) !! k = Some st ->
  (forall i, (i <= Z.to_nat (maxRetries (retry (options cfg))))%nat ->
     rejectsAt (queryFn cfg) (callsIn (queryFn cfg) w + i)) ->
  exists e,
    let w' := snd (fetchQuery k w) in
    vq w' = set_queryStates
              (<[k := errorState (fetchingState st) e (now (env w'))]> (queryStates (vq w)))
              (vq w) /\
    callsIn (queryFn cfg) w'
      = (callsIn (queryFn cfg) w + S (Z.to_nat (maxRetries (retry (options cfg)))))%nat /\
    activeIntervals (env w') = activeIntervals (env w) /\
    (callbacksReturn (options cfg) -> fst (fetchQuery k w) = Resolved VUndefined).
Proof.
  intros Hcfg Hst Hrej. rewrite (fetchQuery_unfold k cfg st w Hcfg Hst). cbv zeta.
  destruct (started_spec k st w) as (Svq & Snow & Sti & Scalls).
  destruct (withRetries_exhausted (queryFn cfg) (retryDelay (options cfg))
              (maxRetries (retry (options cfg))) (started k st w))
    as (e & w3 & Heq & Hvq & Hti & Hcalls).
  { intros i Hi. rewrite Scalls. apply Hrej, Hi. }
  rewrite Heq. cbn [fst snd]. exists e.
  destruct (settleError_frame k (options cfg) (fetchingState st) e w3) as (A & B & C & D).
  cbn [setState modifyVq snd vq env] in A, B, C, D.
  split; [|split; [|split]].
  - rewrite A, B, Hvq, Svq. unfold set_queryStates. cbn.
    rewrite insert_insert_eq. reflexivity.
  - unfold callsIn in *. rewrite D, Hcalls, Scalls. reflexivity.
  - rewrite C, Hti, Sti. reflexivity.
  - apply settleError_result.
Qed.

(** A fetch whose producer resolves with [d] at attempt [j], within budget. *)
Lemma fetchQuery_success k cfg st w (j : nat) (d : value) :
  queryConfigs (vq w) !! k = Some cfg ->
  queryStates (vq w) !! k = Some st ->
  (j <= Z.to_nat (maxRetries (retry (options cfg))))%nat ->
  (forall i, (i < j)%nat -> rejectsAt (queryFn cfg) (callsIn (queryFn cfg) w + i)) ->
  fn_run (queryFn cfg) (callsIn (queryFn cfg) w + j) = Resolve d ->
  let w' := snd (fetchQuery k w) in
  vq w' = set_queryStates
            (<[k := successState d (now (env w'))]> (queryStates (vq w)))
            (set_cache (<[k := mkCacheEntry d (now (env w'))]> (cache (vq w))) (vq w)) /\
  callsIn (queryFn cfg) w' = (callsIn (queryFn cfg) w + S j)%nat /\
  activeIntervals (env w') = activeIntervals (env w) /\
  (callbacksReturn (options cfg) -> fst (fetchQuery k w) = Resolved d).
Proof.
  intros Hcfg Hst Hj Hrej Hres. rewrite (fetchQuery_unfold k cfg st w Hcfg Hst). cbv zeta.
  destruct (started_spec k st w) as (Svq & Snow & Sti & Scalls).
  destruct (withRetries_resolves (queryFn cfg) (retryDelay (options cfg))
              (maxRetries (retry (options cfg))) (started k st w) j d)
    as (w3 & Heq & Hvq & Hti & Hcalls).
  { exact Hj. }
  { intros i Hi. rewrite Scalls. apply Hrej, Hi. }
  { rewrite Scalls. exact Hres. }
  rewrite Heq. cbn [fst snd].
  destruct (settleSuccess_frame k (options cfg) d w3) as (A & B & C & D).
  cbn [storeSuccess vq env] in A, B, C, D.
  split; [|split; [|split]].
  - rewrite A, B, Hvq, Svq. unfold set_queryStates, set_cache. cbn.
    rewrite insert_insert_eq. reflexivity.
  - unfold callsIn in *. rewrite D, Hcalls, Scalls. reflexivity.
  - rewrite C, Hti, Sti. reflexivity.
  - apply settleSuccess_result.
Qed.

(** ** Retry exhaustion *)

(** Every state written by the failure branch is an error state. *)
Lemma errorState_flags ns e t :
  status (errorState ns e t) = StError /\
  isError (errorState ns e t) = true /\
  isLoading (errorState ns e t) = false /\
  isFetching (errorState ns e t) = false /\
  isSuccess (errorState ns e t) = false /\
  errorUpdatedAt (errorState ns e t) = Some t /\
  data (errorState ns e t) = data ns.
Proof. repeat split. Qed.

(** C1.  For a key that has a config and a state (what [useQuery] sets up)
    and whose producer always rejects, [fetchQuery] invokes the producer
    exactly [1 + n] times, [n] being the resolved retry budget, and leaves
    the state at status ['error'] with [isError] true.  The budget resolves
    as: [true] to 3, [false] to 0, a number to itself. *)
Theorem fetchQuery_retry_exhaustion (k : string) (cfg : QueryConfig) (st : QueryState)
    (w : World) :
  queryConfigs (vq w) !! k = Some cfg ->
  queryStates (vq w) !! k = Some st ->
  alwaysRejects (queryFn cfg) ->
  0 <= maxRetries (retry (options cfg)) ->
  let n := maxRetries (retry (options cfg)) in
  let w' := snd (fetchQuery k w) in
  Z.of_nat (callsIn (queryFn cfg) w') = Z.of_nat (callsIn (queryFn cfg) w) + (1 + n) /\
  status (getQueryState k (vq w')) = StError /\
  isError (getQueryState k (vq w')) = true /\
  maxRetries (RetryBool true) = 3 /\
  maxRetries (RetryBool false) = 0 /\
  (forall m, maxRetries (RetryNum m) = m).
Proof.
  intros Hcfg Hst Hrej Hn n w'.
  destruct (fetchQuery_failure k cfg st w Hcfg Hst) as (e & Hvq & Hcalls & _ & _).
  { intros i _. apply Hrej. }
  cbv zeta in Hvq, Hcalls. fold w' in Hvq, Hcalls.
  split.
  - rewrite Hcalls. subst n. lia.
  - unfold getQueryState. rewrite Hvq. cbn [queryStates set_queryStates].
    rewrite lookup_insert_eq. cbn. repeat split.
Qed.

Lemma fetchQuery_retry_exhaustion_witness :
  let w := snd (useQuery "errorQuery" failFn (retryOptions (RetryNum 2)) newWorld) in
  callsIn failFn w = 0%nat /\
  Z.of_nat (callsIn failFn (snd (fetchQuery "errorQuery" w))) = 3.
Proof.
  intros w. split; [reflexivity|].
  refine (proj1 (fetchQuery_retry_exhaustion "errorQuery"
            (mkQueryConfig failFn (mergeOptions defaultOptions (retryOptions (RetryNum 2))))
            initialState w _ _ _ _)).
  - reflexivity.
  - reflexivity.
  - intros i. exists (VStr "Fetch failed"). reflexivity.
  - cbn. lia.
Defined.

(** The budgets named in the specification: [retry: true] gives four
    invocations, [retry: false] and [retry: 0] give one, the default
    (3) gives four. *)
Lemma retry_budget_examples :
  let calls r :=
    callsIn failFn (snd (fetchQuery "q" (snd (useQuery "q" failFn r newWorld)))) in
  calls (retryOptions (RetryBool true)) = 4%nat /\
  calls (retryOptions (RetryBool false)) = 1%nat /\
  calls (retryOptions (RetryNum 0)) = 1%nat /\
  calls (retryOptions (RetryNum 2)) = 3%nat /\
  calls noOptions = 4%nat.
Proof. vm_compute. repeat split. Qed.

(** ** A failing refetch keeps the cache *)

(** C4.  After a fetch that succeeded with [V], a [fetchQuery] (which is
    all [refetchQuery] does) whose producer rejects until the retry budget
    is used up leaves the cache entry as it was, so [getQueryData] is still
    [V]; the state becomes status ['error'] with [isError] true, [isLoading]
    and [isFetching] false and [errorUpdatedAt] set to the time of the
    failure. *)
Theorem failed_refetch_keeps_cache (k : string) (cfg : QueryConfig) (st : QueryState)
    (w : World) (j : nat) (V : value) :
  queryConfigs (vq w) !! k = Some cfg ->
  queryStates (vq w) !! k = Some st ->
  (j <= Z.to_nat (maxRetries (retry (options cfg))))%nat ->
  (forall i, (i < j)%nat -> rejectsAt (queryFn cfg) (callsIn (queryFn cfg) w + i)) ->
  fn_run (queryFn cfg) (callsIn (queryFn cfg) w + j) = Resolve V ->
  let w1 := snd (fetchQuery k w) in
  (forall i, (i <= Z.to_nat (maxRetries (retry (options cfg))))%nat ->
     rejectsAt (queryFn cfg) (callsIn (queryFn cfg) w1 + i)) ->
  let w2 := snd (refetchQuery k w1) in
  refetchQuery k w1 = fetchQuery k w1 /\
  getQueryData k (vq w1) = V /\
  cache (vq w2) = cache (vq w1) /\
  getQueryData k (vq w2) = V /\
  status (getQueryState k (vq w2)) = StError /\
  isError (getQueryState k (vq w2)) = true /\
  isLoading (getQueryState k (vq w2)) = false /\
  isFetching (getQueryState k (vq w2)) = false /\
  errorUpdatedAt (getQueryState k (vq w2)) = Some (now (env w2)).
Proof.
  intros Hcfg Hst Hj Hrej Hres w1 Hfail w2.
  destruct (fetchQuery_success k cfg st w j V Hcfg Hst Hj Hrej Hres) as (Hvq1 & _).
  cbv zeta in Hvq1. fold w1 in Hvq1.
  assert (Hcfg1 : queryConfigs (vq w1) !! k = Some cfg) by (rewrite Hvq1; exact Hcfg).
  assert (Hst1 : queryStates (vq w1) !! k = Some (successState V (now (env w1)))).
  { rewrite Hvq1. cbn. apply lookup_insert_eq. }
  assert (Hdata1 : getQueryData k (vq w1) = V).
  { unfold getQueryData. rewrite Hvq1. cbn. rewrite lookup_insert_eq. reflexivity. }
  destruct (fetchQuery_failure k cfg _ w1 Hcfg1 Hst1 Hfail) as (e & Hvq2 & _).
  cbv zeta in Hvq2. change (snd (fetchQuery k w1)) with w2 in Hvq2.
  assert (Hcache : cache (vq w2) = cache (vq w1)) by (rewrite Hvq2; reflexivity).
  split; [reflexivity|]. split; [exact Hdata1|]. split; [exact Hcache|].
  split; [unfold getQueryData in *; rewrite Hcache; exact Hdata1|].
  unfold getQueryState. rewrite Hvq2. cbn [queryStates set_queryStates].
  rewrite lookup_insert_eq. cbn. repeat split.
Qed.

Lemma failed_refetch_keeps_cache_witness :
  let w1 := snd (fetchQuery "users" (snd (useQuery "users" onceFn noOptions newWorld))) in
  getQueryData "users" (vq (snd (refetchQuery "users" w1))) = VStr "X".
Proof.
  intros w1.
  refine (proj1 (proj2 (proj2 (proj2
    (failed_refetch_keeps_cache "users"
       (mkQueryConfig onceFn (mergeOptions defaultOptions noOptions)) initialState
       (snd (useQuery "users" onceFn noOptions newWorld)) 0%nat (VStr "X") _ _ _ _ _ _))))).
  - reflexivity.
  - reflexivity.
  - cbn. lia.
  - intros i Hi. lia.
  - reflexivity.
  - intros i _. exists (VStr "down"). reflexivity.
Defined.

(** ** What the promise of [fetchQuery] settles to *)

(** C6.  For a key with a config and a state, and callbacks that do not
    throw, the promise of [fetchQuery] resolves with the data of the first
    attempt that succeeds within the retry budget, resolves with
    [undefined] when every attempt the budget allows is rejected (the
    failure is then recorded in the state), and is never rejected. *)
Theorem fetchQuery_never_rejects (k : string) (cfg : QueryConfig) (st : QueryState)
    (w : World) :
  queryConfigs (vq w) !! k = Some cfg ->
  queryStates (vq w) !! k = Some st ->
  callbacksReturn (options cfg) ->
  let f := queryFn cfg in
  let budget := Z.to_nat (maxRetries (retry (options cfg))) in
  (forall (j : nat) (d : value),
     (j <= budget)%nat ->
     (forall i, (i < j)%nat -> rejectsAt f (callsIn f w + i)) ->
     fn_run f (callsIn f w + j) = Resolve d ->
     fst (fetchQuery k w) = Resolved d) /\
  ((forall i, (i <= budget)%nat -> rejectsAt f (callsIn f w + i)) ->
     fst (fetchQuery k w) = Resolved VUndefined /\
     status (getQueryState k (vq (snd (fetchQuery k w)))) = StError /\
     isError (getQueryState k (vq (snd (fetchQuery k w)))) = true) /\
  (forall e, fst (fetchQuery k w) <> Rejected e).
Proof.
  intros Hcfg Hst Hcb f budget.
  assert (Hok : forall (j : nat) (d : value),
     (j <= budget)%nat ->
     (forall i, (i < j)%nat -> rejectsAt f (callsIn f w + i)) ->
     fn_run f (callsIn f w + j) = Resolve d ->
     fst (fetchQuery k w) = Resolved d).
  { intros j d Hj Hrej Hres.
    destruct (fetchQuery_success k cfg st w j d Hcfg Hst Hj Hrej Hres) as (_ & _ & _ & Hr).
    apply Hr, Hcb. }
  assert (Hko : (forall i, (i <= budget)%nat -> rejectsAt f (callsIn f w + i)) ->
     fst (fetchQuery k w) = Resolved VUndefined /\
     status (getQueryState k (vq (snd (fetchQuery k w)))) = StError /\
     isError (getQueryState k (vq (snd (fetchQuery k w)))) = true).
  { intros Hrej.
    destruct (fetchQuery_failure k cfg st w Hcfg Hst Hrej) as (e & Hvq & _ & _ & Hr).
    cbv zeta in Hvq. split; [apply Hr, Hcb|].
    unfold getQueryState. rewrite Hvq. cbn [queryStates set_queryStates].
    rewrite lookup_insert_eq. cbn. split; reflexivity. }
  split; [exact Hok|]. split; [exact Hko|].
  intros e He.
  destruct (attempts_cases (fn_run f) (callsIn f w) budget)
    as [Hrej|(j & d & Hj & Hrej & Hres)].
  - destruct (Hko Hrej) as [Hr _]. congruence.
  - pose proof (Hok j d Hj Hrej Hres). congruence.
Qed.

Lemma fetchQuery_never_rejects_witness :
  fst (fetchQuery "users" (snd (useQuery "users" onceFn noOptions newWorld)))
    = Resolved (VStr "X").
Proof.
  refine (proj1
    (fetchQuery_never_rejects "users"
       (mkQueryConfig onceFn (mergeOptions defaultOptions noOptions)) initialState
       (snd (useQuery "users" onceFn noOptions newWorld)) _ _ _) 0%nat (VStr "X") _ _ _).
  - reflexivity.
  - reflexivity.
  - repeat split; intros f Hf; discriminate Hf.
  - cbn. lia.
  - intros i Hi. lia.
  - reflexivity.
Defined.

(** ** Invalidation followed by a failing fetch *)

Lemma invalidateQuery_unfold k w :
  invalidateQuery k w
    = fetchQuery k (mkWorld (set_cache (delete k (cache (vq w))) (vq w)) (env w)).
Proof. reflexivity. Qed.

(** C10.  After a fetch that succeeded with [V] and cached it,
    [invalidateQuery] with a producer that now rejects until the budget is
    used up leaves no cache entry for the key ([getQueryData] is
    [undefined]), while the error state it writes still has [V] in its
    [data] field; a plain failing refetch from the same world keeps the
    cache entry. *)
Theorem invalidate_failure_drops_cache (k : string) (cfg : QueryConfig) (st : QueryState)
    (w : World) (j : nat) (V : value) :
  queryConfigs (vq w) !! k = Some cfg ->
  queryStates (vq w) !! k = Some st ->
  (j <= Z.to_nat (maxRetries (retry (options cfg))))%nat ->
  (forall i, (i < j)%nat -> rejectsAt (queryFn cfg) (callsIn (queryFn cfg) w + i)) ->
  fn_run (queryFn cfg) (callsIn (queryFn cfg) w + j) = Resolve V ->
  let w1 := snd (fetchQuery k w) in
  (forall i, (i <= Z.to_nat (maxRetries (retry (options cfg))))%nat ->
     rejectsAt (queryFn cfg) (callsIn (queryFn cfg) w1 + i)) ->
  let w2 := snd (invalidateQuery k w1) in
  (exists t, cache (vq w1) !! k = Some (mkCacheEntry V t)) /\
  cache (vq w2) !! k = None /\
  getQueryData k (vq w2) = VUndefined /\
  status (getQueryState k (vq w2)) = StError /\
  isError (getQueryState k (vq w2)) = true /\
  data (getQueryState k (vq w2)) = V /\
  (exists t, cache (vq (snd (refetchQuery k w1))) !! k = Some (mkCacheEntry V t)).
Proof.
  intros Hcfg Hst Hj Hrej Hres w1 Hfail w2.
  destruct (fetchQuery_success k cfg st w j V Hcfg Hst Hj Hrej Hres) as (Hvq1 & _).
  cbv zeta in Hvq1. fold w1 in Hvq1.
  assert (Hcfg1 : queryConfigs (vq w1) !! k = Some cfg) by (rewrite Hvq1; exact Hcfg).
  assert (Hst1 : queryStates (vq w1) !! k = Some (successState V (now (env w1)))).
  { rewrite Hvq1. cbn. apply lookup_insert_eq. }
  assert (Hc1 : cache (vq w1) !! k = Some (mkCacheEntry V (now (env w1)))).
  { rewrite Hvq1. cbn. apply lookup_insert_eq. }
  split; [eexists; exact Hc1|].
  set (w1' := mkWorld (set_cache (delete k (cache (vq w1))) (vq w1)) (env w1)).
  destruct (fetchQuery_failure k cfg _ w1' Hcfg1 Hst1 Hfail) as (e & Hvq2 & _).
  cbv zeta in Hvq2. change (fetchQuery k w1') with (invalidateQuery k w1) in Hvq2.
  fold w2 in Hvq2.
  assert (Hc2 : cache (vq w2) !! k = None).
  { rewrite Hvq2. cbn. apply lookup_delete_eq. }
  split; [exact Hc2|]. split; [unfold getQueryData; rewrite Hc2; reflexivity|].
  destruct (fetchQuery_failure k cfg _ w1 Hcfg1 Hst1 Hfail) as (e' & Hvq3 & _).
  cbv zeta in Hvq3.
  assert (Hlast : exists t, cache (vq (snd (refetchQuery k w1))) !! k
                            = Some (mkCacheEntry V t)).
  { exists (now (env w1)). unfold refetchQuery. rewrite Hvq3. exact Hc1. }
  unfold getQueryState. rewrite Hvq2. cbn [queryStates set_queryStates].
  rewrite lookup_insert_eq. cbn. repeat split. exact Hlast.
Qed.

Lemma invalidate_failure_drops_cache_witness :
  let w1 := snd (fetchQuery "users" (snd (useQuery "users" onceFn noOptions newWorld))) in
  getQueryData "users" (vq (snd (invalidateQuery "users" w1))) = VUndefined /\
  data (getQueryState "users" (vq (snd (invalidateQuery "users" w1)))) = VStr "X".
Proof.
  intros w1.
  destruct (invalidate_failure_drops_cache "users"
       (mkQueryConfig onceFn (mergeOptions defaultOptions noOptions)) initialState
       (snd (useQuery "users" onceFn noOptions newWorld)) 0%nat (VStr "X"))
    as (_ & _ & H1 & _ & _ & H2 & _).
  - reflexivity.
  - reflexivity.
  - cbn. lia.
  - intros i Hi. lia.
  - reflexivity.
  - intros i _. exists (VStr "down"). reflexivity.
  - split; [exact H1 | exact H2].
Defined.

(** ** [clear] *)

Lemma forEach_logs {A} (f : A -> M unit) (evs : A -> list event) (l : list A) :
  (forall a w, logs (evs a) w (snd (f a w))) ->
  forall w, logs (flat_map evs l) w (snd (forEach f l w)).
Proof.
  intros Hf. induction l as [|a l IH]; intros w.
  - repeat split. simpl. rewrite app_nil_r. reflexivity.
  - simpl. unfold bind. specialize (Hf a w). destruct (f a w) as [[] w1].
    destruct Hf as (A1 & B1 & C1). destruct (IH w1) as (A2 & B2 & C2).
    cbn [snd] in *. split; [congruence|]. split; [|congruence].
    rewrite B2, B1, app_assoc. reflexivity.
Qed.

Lemma deliverReset_logs k c w : logs (resetEventsOf k c) w (snd (deliverReset k c w)).
Proof.
  unfold deliverReset, resetEventsOf, bind. cbn [emit modifyEnv].
  destruct (obs_run c idleState); repeat split; cbn.
  rewrite <- app_assoc. reflexivity.
Qed.

Lemma flat_map_step {A B} (f : A -> list B) (a : A) (l : list A) :
  flat_map f (a :: l) = f a ++ flat_map f l.
Proof. reflexivity. Qed.

Lemma notificationsTo_app k id l1 l2 :
  notificationsTo k id (l1 ++ l2) = notificationsTo k id l1 ++ notificationsTo k id l2.
Proof.
  induction l1 as [|ev l1 IH]; [reflexivity|].
  destruct ev; simpl; try exact IH.
  destruct (String.eqb k key && Nat.eqb id obs); simpl; rewrite IH; reflexivity.
Qed.

Lemma notificationsTo_resetEventsOf k id k' c :
  notificationsTo k id (resetEventsOf k' c)
    = if String.eqb k k' && Nat.eqb id (obs_id c) then [idleState] else [].
Proof.
  unfold resetEventsOf. simpl.
  destruct (String.eqb k k' && Nat.eqb id (obs_id c)), (obs_run c idleState); reflexivity.
Qed.

Lemma notificationsTo_other_key k id k' (s : list Observer) :
  k <> k' -> notificationsTo k id (flat_map (resetEventsOf k') s) = [].
Proof.
  intros Hne. induction s as [|c s IH]; [reflexivity|].
  rewrite flat_map_step. rewrite notificationsTo_app, notificationsTo_resetEventsOf, IH.
  apply String.eqb_neq in Hne. rewrite Hne. reflexivity.
Qed.

Lemma notificationsTo_absent_key k id (m : list (string * list Observer)) :
  k ∉ map fst m -> notificationsTo k id (resetEvents m) = [].
Proof.
  induction m as [|[k' s] m IH]; intros Hk; [reflexivity|].
  unfold resetEvents in *. rewrite flat_map_step. rewrite notificationsTo_app.
  simpl in Hk. rewrite not_elem_of_cons in Hk. destruct Hk as [Hne Hk].
  rewrite (notificationsTo_other_key _ _ _ _ Hne), (IH Hk). reflexivity.
Qed.

Lemma notificationsTo_absent_observer k id (s : list Observer) :
  id ∉ map obs_id s -> notificationsTo k id (flat_map (resetEventsOf k) s) = [].
Proof.
  induction s as [|c s IH]; intros Hid; [reflexivity|].
  rewrite flat_map_step. rewrite notificationsTo_app, notificationsTo_resetEventsOf.
  simpl in Hid. rewrite not_elem_of_cons in Hid. destruct Hid as [Hne Hid].
  apply Nat.eqb_neq in Hne. rewrite Hne, andb_false_r, (IH Hid). reflexivity.
Qed.

Lemma notificationsTo_member k (c : Observer) (s : list Observer) :
  NoDup (map obs_id s) -> set_has c s = true ->
  notificationsTo k (obs_id c) (flat_map (resetEventsOf k) s) = [idleState].
Proof.
  induction s as [|c' s IH]; intros Hnd Hin; [discriminate Hin|].
  simpl in Hnd. apply NoDup_cons in Hnd. destruct Hnd as [Hc' Hnd].
  rewrite flat_map_step. rewrite notificationsTo_app, notificationsTo_resetEventsOf.
  rewrite String.eqb_refl. cbn [andb]. simpl in Hin.
  destruct (Nat.eqb (obs_id c) (obs_id c')) eqn:E.
  - apply Nat.eqb_eq in E. rewrite E.
    rewrite (notificationsTo_absent_observer _ _ _ Hc'). reflexivity.
  - simpl in Hin. rewrite (IH Hnd Hin). reflexivity.
Qed.

Lemma omap_get_elem_of {V} k (m : list (string * V)) v :
  omap_get k m = Some v -> k ∈ map fst m.
Proof.
  induction m as [|[k' v'] m IH]; simpl; [discriminate|].
  destruct (String.eqb k k') eqn:E.
  - intros _. apply String.eqb_eq in E. subst. apply list_elem_of_here.
  - intros H. apply list_elem_of_further, IH, H.
Qed.

Lemma notificationsTo_resetEvents k c (m : list (string * list Observer)) subs :
  subscribers_wf m ->
  omap_get k m = Some subs -> set_has c subs = true ->
  notificationsTo k (obs_id c) (resetEvents m) = [idleState].
Proof.
  intros [Hkeys Hsets]. induction m as [|[k' s] m IH]; [discriminate|].
  simpl in Hkeys. apply NoDup_cons in Hkeys. destruct Hkeys as [Hk' Hkeys].
  apply Forall_cons in Hsets. destruct Hsets as [Hs Hsets]. simpl in Hs.
  unfold resetEvents in *. simpl omap_get. rewrite flat_map_step. rewrite notificationsTo_app.
  destruct (String.eqb k k') eqn:E.
  - apply String.eqb_eq in E. subst k'. intros [= ->] Hin.
    rewrite (notificationsTo_member _ _ _ Hs Hin).
    rewrite (notificationsTo_absent_key _ _ _ Hk'). reflexivity.
  - intros Hget Hin. apply String.eqb_neq in E.
    rewrite (notificationsTo_other_key _ _ _ _ E). simpl. apply IH; assumption.
Qed.

Lemma clearIntervals_spec (kvs : list (string * nat)) :
  forall w,
    let w' := snd (forEach (fun kv : string * nat => clearInterval (snd kv)) kvs w) in
    vq w' = vq w /\
    log (env w') = log (env w) /\
    forall t, t ∈ activeIntervals (env w') <->
      t ∈ activeIntervals (env w) /\ forall kv, kv ∈ kvs -> timer_id t <> snd kv.
Proof.
  induction kvs as [|kv kvs IH]; intros w; cbv zeta.
  - split; [reflexivity|]. split; [reflexivity|]. intros t. simpl. split.
    + intros H. split; [exact H|]. intros kv Hkv. inversion Hkv.
    + intros [H _]. exact H.
  - simpl forEach. unfold bind. cbn [clearInterval modifyEnv].
    set (w1 := mkWorld _ _).
    destruct (IH w1) as (A & B & C). split; [rewrite A; reflexivity|].
    split; [rewrite B; reflexivity|]. intros t. rewrite C. unfold w1. cbn [env activeIntervals].
    rewrite list_elem_of_filter. split.
    + intros [[Hne Hin] Hrest]. split; [exact Hin|].
      intros kv' Hkv'. apply elem_of_cons in Hkv'. destruct Hkv' as [->|Hkv'].
      * intros Heq. rewrite Heq, Nat.eqb_refl in Hne. exact Hne.
      * apply Hrest, Hkv'.
    + intros [Hin Hall]. split; [split; [|exact Hin]|].
      * specialize (Hall kv (list_elem_of_here _ _)).
        apply Nat.eqb_neq in Hall. rewrite Hall. exact I.
      * intros kv' Hkv'. apply Hall. apply list_elem_of_further, Hkv'.
Qed.

Lemma callsTo_app id l1 l2 : callsTo id (l1 ++ l2) = callsTo id l1 ++ callsTo id l2.
Proof.
  induction l1 as [|ev l1 IH]; [reflexivity|].
  destruct ev; simpl; try exact IH.
  destruct (Nat.eqb id obs); simpl; rewrite IH; reflexivity.
Qed.

Lemma callsTo_resetEventsOf id k c :
  callsTo id (resetEventsOf k c) = if Nat.eqb id (obs_id c) then [idleState] else [].
Proof.
  unfold resetEventsOf. simpl.
  destruct (Nat.eqb id (obs_id c)), (obs_run c idleState); reflexivity.
Qed.

Lemma callsTo_absent id k (s : list Observer) :
  id ∉ map obs_id s -> callsTo id (flat_map (resetEventsOf k) s) = [].
Proof.
  induction s as [|c s IH]; intros Hid; [reflexivity|].
  rewrite flat_map_step, callsTo_app, callsTo_resetEventsOf.
  simpl in Hid. rewrite not_elem_of_cons in Hid. destruct Hid as [Hne Hid].
  apply Nat.eqb_neq in Hne. rewrite Hne, (IH Hid). reflexivity.
Qed.

Lemma callsTo_set (c : Observer) k (s : list Observer) :
  NoDup (map obs_id s) ->
  callsTo (obs_id c) (flat_map (resetEventsOf k) s)
    = if set_has c s then [idleState] else [].
Proof.
  induction s as [|c' s IH]; intros Hnd; [reflexivity|].
  simpl in Hnd. apply NoDup_cons in Hnd. destruct Hnd as [Hc' Hnd].
  rewrite flat_map_step, callsTo_app, callsTo_resetEventsOf.
  unfold set_has. cbn [existsb]. fold (set_has c s).
  destruct (Nat.eqb (obs_id c) (obs_id c')) eqn:E; cbn [orb].
  - apply Nat.eqb_eq in E. rewrite E, (callsTo_absent _ k s Hc'). reflexivity.
  - rewrite (IH Hnd). reflexivity.
Qed.

(** [clear] calls a callback once for each key whose set holds it. *)
Lemma callsTo_resetEvents (c : Observer) (m : list (string * list Observer)) :
  Forall (fun ks => NoDup (map obs_id (snd ks))) m ->
  callsTo (obs_id c) (resetEvents m) = repeat idleState (subscriptionsOf c m).
Proof.
  induction m as [|ks m IH]; intros Hall; [reflexivity|].
  apply Forall_cons in Hall. destruct Hall as [Hs Hall].
  unfold resetEvents in *. rewrite flat_map_step, callsTo_app.
  rewrite (callsTo_set c (fst ks) (snd ks) Hs), (IH Hall). cbn [subscriptionsOf].
  destruct (set_has c (snd ks)); reflexivity.
Qed.

(** C9.  [clear] calls every callback once for each key it was subscribed
    to, each time with the canonical idle state: a callback subscribed to
    [n] keys is called [n] times, not once.  Afterwards [getQueryData] is
    [undefined] for every key, the cache, the states, the configs and the
    subscriber sets are empty, the table of interval handles is empty and
    every handle it held has been cancelled. *)
Theorem clear_resets_all (w : World) :
  subscribers_wf (subscribers (vq w)) ->
  let w' := snd (clear w) in
  (exists evs, log (env w') = log (env w) ++ evs /\
     (forall k c, subscribed k c (vq w) -> notificationsTo k (obs_id c) evs = [idleState]) /\
     (forall c, callsTo (obs_id c) evs
                = repeat idleState (subscriptionsOf c (subscribers (vq w))))) /\
  (status idleState = StIdle /\ data idleState = VUndefined /\ error idleState = VNull /\
   isLoading idleState = false /\ isError idleState = false /\
   isSuccess idleState = false /\ isFetching idleState = false) /\
  (forall k, getQueryData k (vq w') = VUndefined) /\
  cache (vq w') = ∅ /\
  queryStates (vq w') = ∅ /\
  queryConfigs (vq w') = ∅ /\
  subscribers (vq w') = [] /\
  (forall im, intervals (vq w) = Some im ->
     intervals (vq w') = Some ∅ /\
     forall k id t, im !! k = Some id -> t ∈ activeIntervals (env w') -> timer_id t <> id) /\
  (timers_tracked w -> activeIntervals (env w') = []).
Proof.
  intros Hwf w'.
  set (q0 := set_queryConfigs ∅ (set_queryStates ∅ (set_cache ∅ (vq w)))).
  set (w0 := mkWorld q0 (env w)).
  (* the interval handles *)
  set (cancel := match intervals q0 with
                 | Some im =>
                     run forEach (fun kv : string * nat => clearInterval (snd kv))
                           (map_to_list im) in
                     modifyVq (set_intervals (Some ∅))
                 | None => ret tt
                 end : M unit).
  set (w1 := snd (cancel w0)).
  assert (H1 : subscribers (vq w1) = subscribers (vq w) /\
               cache (vq w1) = ∅ /\ queryStates (vq w1) = ∅ /\ queryConfigs (vq w1) = ∅ /\
               log (env w1) = log (env w) /\
               (forall im, intervals (vq w) = Some im -> intervals (vq w1) = Some ∅) /\
               (forall t, t ∈ activeIntervals (env w1) ->
                  t ∈ activeIntervals (env w) /\
                  forall im k, intervals (vq w) = Some im -> im !! k <> Some (timer_id t))).
  { unfold w1, cancel. change (intervals q0) with (intervals (vq w)).
    destruct (intervals (vq w)) as [im|] eqn:Eim.
    - unfold bind.
      destruct (clearIntervals_spec (map_to_list im) w0) as (A & B & C).
      destruct (forEach _ (map_to_list im) w0) as [[] w2]. cbn [snd] in A, B, C.
      cbn [modifyVq snd vq env]. rewrite A, B. cbn.
      repeat split; try reflexivity.
      + apply C in H. apply H.
      + intros im' k [= <-] Hk. apply C in H. destruct H as [_ H].
        apply (H (k, timer_id t)); [|reflexivity].
        apply elem_of_map_to_list. exact Hk.
    - cbn. repeat split; try reflexivity; try discriminate. exact H. }
  destruct H1 as (Hsubs & Hc & Hs & Hq & Hl & Hi & Ht).
  (* the notifications *)
  pose proof (forEach_logs
    (fun ks : string * list Observer => forEach (deliverReset (fst ks)) (snd ks))
    (fun ks => flat_map (resetEventsOf (fst ks)) (snd ks))
    (subscribers (vq w))
    (fun ks w => forEach_logs (deliverReset (fst ks)) (resetEventsOf (fst ks)) (snd ks)
                   (deliverReset_logs (fst ks)) w) w1) as (A2 & B2 & C2).
  assert (Hw' : w' = mkWorld
     (set_subscribers []
        (vq (snd (forEach (fun ks : string * list Observer =>
                             forEach (deliverReset (fst ks)) (snd ks))
                    (subscribers (vq w1)) w1))))
     (env (snd (forEach (fun ks : string * list Observer =>
                           forEach (deliverReset (fst ks)) (snd ks))
                  (subscribers (vq w1)) w1)))).
  { unfold w', clear. rewrite !bind_snd. reflexivity. }
  rewrite Hsubs in Hw'. rewrite Hw'. cbn [vq env set_subscribers cache queryStates queryConfigs subscribers intervals].
  rewrite A2, B2, C2, Hc, Hs, Hq, Hl.
  split.
  { exists (resetEvents (subscribers (vq w))). split; [reflexivity|]. split.
    - intros k c (subs & Hget & Hin).
      apply (notificationsTo_resetEvents k c _ subs Hwf Hget Hin).
    - intros c. apply callsTo_resetEvents, Hwf. }
  split; [repeat split|].
  split; [intros k; unfold getQueryData; cbn; rewrite Hc, lookup_empty; reflexivity|].
  split; [reflexivity|]. split; [reflexivity|]. split; [reflexivity|].
  split; [reflexivity|]. split.
  - intros im Him. split; [apply (Hi im Him)|].
    intros k id t Hk Hin Heq. destruct (Ht t Hin) as [_ Hno].
    apply (Hno im k Him). rewrite Heq. exact Hk.
  - intros Htr. apply elem_of_nil_inv. intros t Hin.
    destruct (Ht t Hin) as [Hin0 Hno].
    destruct (Htr t Hin0) as (im & Him & Hk).
    apply (Hno im _ Him Hk).
Qed.

Lemma clear_resets_all_witness :
  exists evs,
    log (env (snd (clear twoKeysWorld))) = log (env twoKeysWorld) ++ evs /\
    notificationsTo "a" 7 evs = [idleState] /\
    notificationsTo "b" 7 evs = [idleState] /\
    notificationsTo "b" 8 evs = [idleState] /\
    callsTo 7 evs = [idleState; idleState] /\
    callsTo 8 evs = [idleState].
Proof.
  destruct (clear_resets_all twoKeysWorld) as ((evs & Hlog & Hn & Hcalls) & _).
  - split; vm_compute;
      repeat (constructor;
              [try (rewrite ?elem_of_cons, ?elem_of_nil; intuition discriminate)|]);
      constructor.
  - exists evs. split; [exact Hlog|].
    split; [|split; [|split; [|split]]].
    + apply (Hn "a" (quietObserver 7)). eexists. split; reflexivity.
    + apply (Hn "b" (quietObserver 7)). eexists. split; reflexivity.
    + apply (Hn "b" (mkObserver 8 (fun _ => Throw (VStr "oops")))).
      eexists. split; reflexivity.
    + apply (Hcalls (quietObserver 7)).
    + apply (Hcalls (mkObserver 8 (fun _ => Throw (VStr "oops")))).
Defined.

(** The claim as the specification has it, one notification for every
    observer, fails for an observer of two keys: [clear] goes through the
    subscriber set of each key, so the observer subscribed to ["a"] and to
    ["b"] is called twice. *)
Lemma clear_calls_once_per_key :
  subscribed "a" (quietObserver 7) (vq twoKeysWorld) /\
  subscribed "b" (quietObserver 7) (vq twoKeysWorld) /\
  callsTo 7 (traceBetween twoKeysWorld (snd (clear twoKeysWorld))) = [idleState; idleState] /\
  callsTo 7 (traceBetween twoKeysWorld (snd (clear twoKeysWorld))) <> [idleState].
Proof.
  split; [eexists; split; reflexivity|]. split; [eexists; split; reflexivity|].
  assert (H : callsTo 7 (traceBetween twoKeysWorld (snd (clear twoKeysWorld)))
              = [idleState; idleState]) by (vm_compute; reflexivity).
  split; [exact H|]. rewrite H. discriminate.
Qed.

(** *** The subscriber table stays well formed *)

Lemma omap_set_keys {V} k (v : V) (m : list (string * V)) :
  map fst (omap_set k v m)
    = if omap_has k m then map fst m else map fst m ++ [k].
Proof.
  unfold omap_has. induction m as [|[k' v'] m IH]; [reflexivity|].
  simpl. destruct (String.eqb k k') eqn:E; [reflexivity|].
  simpl. rewrite IH. destruct (omap_get k m); reflexivity.
Qed.

Lemma omap_get_none {V} k (m : list (string * V)) :
  omap_get k m = None -> k ∉ map fst m.
Proof.
  induction m as [|[k' v'] m IH]; simpl; intros H.
  - apply not_elem_of_nil.
  - destruct (String.eqb k k') eqn:E; [discriminate|].
    apply String.eqb_neq in E. apply not_elem_of_cons. split; [exact E | apply IH, H].
Qed.

Lemma omap_set_Forall {V} (P : string * V -> Prop) k (v : V) (m : list (string * V)) :
  (forall k', P (k', v)) -> Forall P m -> Forall P (omap_set k v m).
Proof.
  intros Hv. induction m as [|[k' v'] m IH]; intros Hm; simpl.
  - constructor; [apply Hv | constructor].
  - apply Forall_cons in Hm. destruct Hm as [Hh Ht].
    destruct (String.eqb k k'); constructor; auto.
Qed.

Lemma subscribers_wf_set k s (m : list (string * list Observer)) :
  subscribers_wf m -> NoDup (map obs_id s) -> subscribers_wf (omap_set k s m).
Proof.
  intros [Hk Hs] Hnd. split.
  - rewrite omap_set_keys. unfold omap_has.
    destruct (omap_get k m) eqn:E; [exact Hk|].
    apply NoDup_app. split; [exact Hk|]. split.
    + intros x Hx Hx'. apply list_elem_of_singleton in Hx'. subst x.
      apply (omap_get_none _ _ E), Hx.
    + apply NoDup_singleton.
  - apply omap_set_Forall; [intros k'; exact Hnd | exact Hs].
Qed.

Lemma subscribers_wf_get k s (m : list (string * list Observer)) :
  subscribers_wf m -> omap_get k m = Some s -> NoDup (map obs_id s).
Proof.
  intros [_ Hs]. induction m as [|[k' s'] m IH]; simpl; [discriminate|].
  apply Forall_cons in Hs. destruct Hs as [Hh Ht].
  destruct (String.eqb k k'); [intros [= <-]; exact Hh | apply IH, Ht].
Qed.

Lemma set_has_false c (s : list Observer) :
  set_has c s = false -> obs_id c ∉ map obs_id s.
Proof.
  unfold set_has. induction s as [|c' s IH]; simpl; intros H.
  - apply not_elem_of_nil.
  - apply orb_false_iff in H. destruct H as [H1 H2].
    apply Nat.eqb_neq in H1. apply not_elem_of_cons. split; [exact H1 | apply IH, H2].
Qed.

Lemma set_add_NoDup c (s : list Observer) :
  NoDup (map obs_id s) -> NoDup (map obs_id (set_add c s)).
Proof.
  intros Hnd. unfold set_add. destruct (set_has c s) eqn:E; [exact Hnd|].
  rewrite map_app. apply NoDup_app. split; [exact Hnd|]. split.
  - intros x Hx Hx'. apply list_elem_of_singleton in Hx'. subst x.
    apply (set_has_false _ _ E), Hx.
  - apply NoDup_singleton.
Qed.

Lemma set_delete_NoDup c (s : list Observer) :
  NoDup (map obs_id s) -> NoDup (map obs_id (set_delete c s)).
Proof.
  unfold set_delete. induction s as [|c' s IH]; intros Hnd; [exact Hnd|].
  simpl in Hnd. apply NoDup_cons in Hnd. destruct Hnd as [Hc' Hnd].
  rewrite filter_cons. destruct (decide _); [|apply IH, Hnd].
  simpl. apply NoDup_cons. split; [|apply IH, Hnd].
  intros Hin. apply Hc'. apply list_elem_of_fmap in Hin. destruct Hin as (y & Hy & Hin).
  apply list_elem_of_filter in Hin. destruct Hin as [_ Hin].
  apply list_elem_of_fmap. exists y. split; assumption.
Qed.

Lemma subscribers_wf_new : subscribers_wf (subscribers newVanillaQuery).
Proof. split; constructor. Qed.

Lemma subscribeToQuery_wf k c w :
  subscribers_wf (subscribers (vq w)) ->
  subscribers_wf (subscribers (vq (snd (subscribeToQuery k c w)))).
Proof.
  intros Hwf. unfold subscribeToQuery. rewrite !bind_snd.
  cbn [modifyVq getVq emit modifyEnv ret fst snd vq].
  set (q1 := if omap_has k (subscribers (vq w)) then vq w
             else set_subscribers (omap_set k [] (subscribers (vq w))) (vq w)).
  assert (Hwf1 : subscribers_wf (subscribers q1)).
  { unfold q1. destruct (omap_has k (subscribers (vq w))); [exact Hwf|].
    cbn. apply subscribers_wf_set; [exact Hwf | constructor]. }
  destruct (omap_get k (subscribers q1)) as [subs|] eqn:E; [|exact Hwf1].
  cbn. apply subscribers_wf_set; [exact Hwf1|].
  apply set_add_NoDup, (subscribers_wf_get k subs _ Hwf1 E).
Qed.

Lemma unsubscribe_wf k c w :
  subscribers_wf (subscribers (vq w)) ->
  subscribers_wf (subscribers (vq (snd (unsubscribe k c w)))).
Proof.
  intros Hwf. unfold unsubscribe. cbn [modifyVq snd vq].
  destruct (omap_get k (subscribers (vq w))) as [subs|] eqn:E; [|exact Hwf].
  cbn. apply subscribers_wf_set; [exact Hwf|].
  apply set_delete_NoDup, (subscribers_wf_get k subs _ Hwf E).
Qed.

Lemma omap_delete_wf k (m : list (string * list Observer)) :
  subscribers_wf m -> subscribers_wf (omap_delete k m).
Proof.
  intros [Hk Hs]. unfold omap_delete. split.
  - induction m as [|[k' s] m IH]; [constructor|].
    simpl in Hk. apply NoDup_cons in Hk. destruct Hk as [Hk' Hk].
    apply Forall_cons in Hs. destruct Hs as [_ Hs].
    rewrite filter_cons. destruct (decide _); [|apply IH; assumption].
    simpl. apply NoDup_cons. split; [|apply IH; assumption].
    intros Hin. apply Hk'. apply list_elem_of_fmap in Hin. destruct Hin as (y & Hy & Hin).
    apply list_elem_of_filter in Hin. destruct Hin as [_ Hin].
    apply list_elem_of_fmap. exists y. split; assumption.
  - apply Forall_forall. intros x Hx. apply list_elem_of_filter in Hx.
    destruct Hx as [_ Hx]. rewrite Forall_forall in Hs. apply Hs, Hx.
Qed.

Lemma removeQueryData_wf k w :
  subscribers_wf (subscribers (vq w)) ->
  subscribers_wf (subscribers (vq (snd (removeQueryData k w)))).
Proof.
  intros Hwf. unfold removeQueryData. rewrite !bind_snd.
  cbn [modifyVq getVq fst snd vq intervals set_cache set_queryStates set_queryConfigs
       set_subscribers].
  destruct (intervals (vq w)) as [im|]; [destruct (im !! k)|];
    rewrite ?bind_snd; cbn; apply omap_delete_wf, Hwf.
Qed.

(** ** The state a fetch starts in *)

Lemma fetchingState_isLoading st :
  isLoading (fetchingState st) = negb (truthy (data st)) /\
  isFetching (fetchingState st) = true /\
  data (fetchingState st) = data st.
Proof. repeat split. Qed.

(** With truthy data the fetch is shown as a background refresh. *)
Lemma fetchingState_truthy st :
  truthy (data st) = true ->
  status (fetchingState st) = StSuccess /\ isLoading (fetchingState st) = false.
Proof. intros H. unfold fetchingState. cbn. rewrite H. split; reflexivity. Qed.

(** Without data, or with falsy data, it is shown as a first load. *)
Lemma fetchingState_falsy st :
  truthy (data st) = false ->
  status (fetchingState st) = StLoading /\ isLoading (fetchingState st) = true.
Proof. intros H. unfold fetchingState. cbn. rewrite H. split; reflexivity. Qed.

(** C2.  The specification lets a fetch show ['loading'] with [isLoading]
    true only while the key has no data, and otherwise keeps status
    ['success'] and the data.  A key whose producer resolved with [0] has
    data (the cache and the state hold [0]), yet the next [fetchQuery]
    notifies a state with status ['loading'] and [isLoading] true that
    still carries the data [0]: the source tests [currentState.data] for
    truthiness. *)
Theorem fetchQuery_loading_despite_data :
  let w1 :=
    snd (fetchQuery "count"
      (snd (subscribeToQuery "count" (quietObserver 7)
        (snd (useQuery "count" (okFn (VNum 0)) noOptions newWorld))))) in
  let w2 := snd (fetchQuery "count" w1) in
  let shown := fetchingState (successState (VNum 0) 0) in
  getQueryData "count" (vq w1) = VNum 0 /\
  getQueryState "count" (vq w1) = successState (VNum 0) 0 /\
  notificationsTo "count" 7 (log (env w2))
    = notificationsTo "count" 7 (log (env w1)) ++ [shown; successState (VNum 0) 0] /\
  status shown = StLoading /\
  isLoading shown = true /\
  data shown = VNum 0.
Proof. vm_compute. repeat split. Qed.

(** ** [prefetchQuery] *)

(** Without a state entry for the key [prefetchQuery] stores the config
    and returns: [fetchQuery] gives up at [if (!currentState) return]. *)
Lemma prefetchQuery_without_state k fn opts w :
  queryStates (vq w) !! k = None ->
  prefetchQuery k fn opts w =
    (Resolved VUndefined,
     mkWorld
       (set_queryConfigs
          (<[k := mkQueryConfig fn (mergeOptions defaultOptions opts)]> (queryConfigs (vq w)))
          (vq w))
       (env w)).
Proof.
  intros Hst. unfold prefetchQuery, fetchQuery, bind.
  cbn [modifyVq getVq vq queryConfigs queryStates set_queryConfigs].
  rewrite lookup_insert_eq, Hst. reflexivity.
Qed.

(** With a state entry it is a fetch under the new config. *)
Lemma prefetchQuery_with_state k fn opts w :
  prefetchQuery k fn opts w =
    fetchQuery k
      (mkWorld
         (set_queryConfigs
            (<[k := mkQueryConfig fn (mergeOptions defaultOptions opts)]>
               (queryConfigs (vq w)))
            (vq w))
         (env w)).
Proof. reflexivity. Qed.

(** C3.  The specification has [prefetchQuery] store the config and fetch
    at once for any key, also one never registered with [useQuery].  On a fresh engine the call stores
    the config but the producer is not invoked, nothing is cached and no
    state is created; the promise resolves with [undefined]. *)
Theorem prefetchQuery_unregistered_no_fetch :
  let p := prefetchQuery "user" (okFn (VStr "X")) noOptions newWorld in
  fst p = Resolved VUndefined /\
  callsIn (okFn (VStr "X")) (snd p) = 0%nat /\
  log (env (snd p)) = [] /\
  getQueryData "user" (vq (snd p)) = VUndefined /\
  queryStates (vq (snd p)) !! "user" = None /\
  (queryFn <$> queryConfigs (vq (snd p)) !! "user") = Some (okFn (VStr "X")).
Proof. vm_compute. repeat split. Qed.

(** ** [fetchCount] *)

(** The failure branch keeps the count of the fetch that just ran. *)
Lemma errorState_fetchCount st e t :
  fetchCount (errorState (fetchingState st) e t) = Some (default 0 (fetchCount st) + 1).
Proof. reflexivity. Qed.

(** The success branch writes a state without [fetchCount]. *)
Lemma successState_fetchCount d t : fetchCount (successState d t) = None.
Proof. reflexivity. Qed.

(** Any fetch that succeeds leaves the state without [fetchCount]. *)
Lemma fetchQuery_success_fetchCount k cfg st w (j : nat) (d : value) :
  queryConfigs (vq w) !! k = Some cfg ->
  queryStates (vq w) !! k = Some st ->
  (j <= Z.to_nat (maxRetries (retry (options cfg))))%nat ->
  (forall i, (i < j)%nat -> rejectsAt (queryFn cfg) (callsIn (queryFn cfg) w + i)) ->
  fn_run (queryFn cfg) (callsIn (queryFn cfg) w + j) = Resolve d ->
  fetchCount (getQueryState k (vq (snd (fetchQuery k w)))) = None.
Proof.
  intros Hcfg Hst Hj Hrej Hres.
  destruct (fetchQuery_success k cfg st w j d Hcfg Hst Hj Hrej Hres) as (Hvq & _).
  cbv zeta in Hvq. unfold getQueryState. rewrite Hvq. cbn.
  rewrite lookup_insert_eq. reflexivity.
Qed.

(** As long as every fetch fails the count is right: one per top-level
    fetch, whatever the number of retries. *)
Lemma fetchCount_counts_failures k cfg st w (c : Z) (n : nat) :
  queryConfigs (vq w) !! k = Some cfg ->
  queryStates (vq w) !! k = Some st ->
  fetchCount st = Some c ->
  alwaysRejects (queryFn cfg) ->
  fetchCount (getQueryState k (vq (fetches n k w))) = Some (c + Z.of_nat n).
Proof.
  intros Hcfg Hst Hc Hrej.
  assert (H : queryConfigs (vq (fetches n k w)) !! k = Some cfg /\
              exists st', queryStates (vq (fetches n k w)) !! k = Some st' /\
                          fetchCount st' = Some (c + Z.of_nat n)).
  { induction n as [|n (IHcfg & st' & IHst & IHc)].
    - split; [exact Hcfg|]. exists st. split; [exact Hst|]. rewrite Hc. f_equal. lia.
    - cbn [fetches].
      destruct (fetchQuery_failure k cfg st' (fetches n k w) IHcfg IHst)
        as (e & Hvq & _).
      { intros i _. apply Hrej. }
      cbv zeta in Hvq. rewrite Hvq. split; [exact IHcfg|].
      eexists. split; [apply lookup_insert_eq|].
      rewrite errorState_fetchCount, IHc. cbn. f_equal. lia. }
  destruct H as (_ & st' & Hst' & Hc'). unfold getQueryState. rewrite Hst'. exact Hc'.
Qed.

(** C7.  The specification has [fetchCount] grow by one per top-level
    fetch, so that it equals the number of completed fetches, successful
    or not.  After one successful fetch the state has no
    [fetchCount] at all ([successState] omits the field), after a second
    successful fetch it is still missing, and after a success followed by
    a failure it is 1, not 2. *)
Theorem fetchCount_lost_on_success :
  let w0 := snd (useQuery "k" (okFn (VStr "X")) noOptions newWorld) in
  let w1 := snd (fetchQuery "k" w0) in
  let w2 := snd (fetchQuery "k" w1) in
  let v0 := snd (useQuery "k" onceFn (retryOptions (RetryNum 0)) newWorld) in
  let v1 := snd (fetchQuery "k" v0) in
  let v2 := snd (fetchQuery "k" v1) in
  fetchCount (getQueryState "k" (vq w0)) = Some 0 /\
  fst (fetchQuery "k" w0) = Resolved (VStr "X") /\
  fetchCount (getQueryState "k" (vq w1)) = None /\
  fetchCount (getQueryState "k" (vq w2)) = None /\
  status (getQueryState "k" (vq v1)) = StSuccess /\
  status (getQueryState "k" (vq v2)) = StError /\
  fetchCount (getQueryState "k" (vq v2)) = Some 1.
Proof. vm_compute. repeat split. Qed.

(** ** Interval timers *)

(** [removeQueryData] cancels the handle recorded for the key. *)
Lemma removeQueryData_cancels k im id w :
  intervals (vq w) = Some im -> im !! k = Some id ->
  let w' := snd (removeQueryData k w) in
  intervals (vq w') = Some (delete k im) /\
  forall t, t ∈ activeIntervals (env w') -> timer_id t <> id.
Proof.
  intros Him Hk. unfold removeQueryData. rewrite !bind_snd.
  cbn [modifyVq getVq fst snd vq intervals set_cache set_queryStates set_queryConfigs
       set_subscribers].
  rewrite Him, Hk. rewrite !bind_snd. cbn. split; [reflexivity|].
  intros t Ht. apply list_elem_of_filter in Ht. destruct Ht as [Hne _].
  intros Heq. rewrite Heq, Nat.eqb_refl in Hne. exact Hne.
Qed.

(** C8.  The specification has at most one interval timer per key: a new
    registration of the key cancels the interval scheduled before.  Registering ["k"] twice with [refetchInterval: 1000]
    leaves two running timers for ["k"]: [useQuery] overwrites the handle
    in [intervals] without [clearInterval], so the first timer survives the
    second registration, [removeQueryData] and [clear]. *)
Theorem useQuery_leaks_interval :
  let w1 := snd (useQuery "k" (okFn (VStr "X")) (intervalOptions 1000) newWorld) in
  let w2 := snd (useQuery "k" (okFn (VStr "X")) (intervalOptions 1000) w1) in
  map timer_id (activeIntervals (env w1)) = [0%nat] /\
  map (fun t => (timer_id t, timer_key t)) (activeIntervals (env w2))
    = [(0%nat, "k"); (1%nat, "k")] /\
  default ∅ (intervals (vq w2)) !! "k" = Some 1%nat /\
  map timer_id (activeIntervals (env (snd (removeQueryData "k" w2)))) = [0%nat] /\
  map timer_id (activeIntervals (env (snd (clear w2)))) = [0%nat].
Proof. vm_compute. repeat split. Qed.

(** ** Mutations *)

Module MutationFacts.
Import Mutation UseMutation.

Lemma mcalls_of_app fid l1 l2 :
  mcalls_of fid (l1 ++ l2) = (mcalls_of fid l1 + mcalls_of fid l2)%nat.
Proof.
  induction l1 as [|ev l1 IH]; simpl; [reflexivity|].
  destruct ev; simpl; rewrite IH; lia.
Qed.

Lemma mquiet_refl w : mquiet w w.
Proof. split; reflexivity. Qed.

Lemma mquiet_trans w1 w2 w3 : mquiet w1 w2 -> mquiet w2 w3 -> mquiet w1 w3.
Proof.
  intros [A1 B1] [A2 B2]. split; [congruence|]. intros fid. rewrite B2. apply B1.
Qed.

Lemma memit_mquiet ev : msilent ev -> keeps mquiet (memit ev).
Proof.
  intros Hev w. split; [reflexivity|]. intros fid. simpl. rewrite mcalls_of_app.
  destruct ev; simpl in *; first [contradiction | lia].
Qed.

Lemma mdeliver_mquiet st c : keeps mquiet (mdeliver st c).
Proof.
  unfold mdeliver. apply (keeps_bind mquiet mquiet_trans).
  - apply memit_mquiet. exact I.
  - intros _. destruct (mobs_run c st).
    + apply keeps_ret, mquiet_refl.
    + apply memit_mquiet. exact I.
Qed.

Lemma orReject_mquiet c (k : St MWorld promise) :
  keeps mquiet k -> keeps mquiet (orReject c k).
Proof. intros Hk. destruct c; [exact Hk | apply keeps_ret, mquiet_refl]. Qed.

Ltac mquiet_steps :=
  repeat first
    [ apply (keeps_bind mquiet mquiet_trans); [|intros ?]
    | apply memit_mquiet; exact I
    | apply orReject_mquiet
    | apply keeps_ret, mquiet_refl ].

Lemma runOnMutate_mquiet opts v : keeps mquiet (runOnMutate opts v).
Proof.
  unfold runOnMutate. destruct (onMutate opts) as [f|]; [|apply keeps_ret, mquiet_refl].
  apply (keeps_bind mquiet mquiet_trans); [apply memit_mquiet; exact I|intros _].
  destruct (f v); mquiet_steps.
Qed.

(** [setState] replaces the state object and tells the subscribers. *)
Lemma setState_spec u w :
  inst (snd (setState u w))
    = mkInstance (mutationFn (inst w)) (finalOptions (inst w))
        (assign (mutationState (inst w)) u) (subscribers (inst w)) /\
  forall fid, mcalls_of fid (log (menv (snd (setState u w))))
              = mcalls_of fid (log (menv w)).
Proof.
  unfold setState. rewrite bind_snd. cbn [fst snd]. rewrite bind_snd.
  cbn [getInst fst snd inst].
  set (w1 := mkMWorld _ (menv w)).
  destruct (keeps_forEach mquiet mquiet_refl mquiet_trans
              (mdeliver (mutationState (inst w1))) (subscribers (inst w1))
              (mdeliver_mquiet _) w1) as [A B].
  split; [exact A | intros fid; exact (B fid)].
Qed.

(** Whatever the callbacks do, the state after [settle] is the state
    before with the updates of the result, and the mutation function has
    not run again. *)
Lemma settle_state opts v ctx r w :
  mutationState (inst (snd (settle opts v ctx r w)))
    = assign (mutationState (inst w)) (updatesOf r) /\
  forall f, mutationCalls f (snd (settle opts v ctx r w)) = mutationCalls f w.
Proof.
  assert (Hrest : forall (u : Updates) (rest : St MWorld promise),
            keeps mquiet rest ->
            mutationState (inst (snd ((run setState u in rest) w)))
              = assign (mutationState (inst w)) u /\
            forall f, mutationCalls f (snd ((run setState u in rest) w))
                      = mutationCalls f w).
  { intros u rest Hrest. rewrite bind_snd.
    destruct (Hrest (snd (setState u w))) as [A A'].
    destruct (setState_spec u w) as [B B'].
    split; [rewrite A, B; reflexivity|].
    intros f. unfold mutationCalls. rewrite A', B'. reflexivity. }
  unfold settle. destruct r as [d|e]; cbv zeta; apply Hrest.
  - destruct (onSuccess opts), (onSettled opts); mquiet_steps.
  - destruct (onError opts), (onSettled opts), (truthy e); mquiet_steps.
Qed.

Lemma settle_result opts v ctx r w :
  mutationCallbacksReturn opts -> fst (settle opts v ctx r w) = returned r.
Proof.
  intros (HO & HE & HS). unfold settle, bind.
  destruct r as [d|e]; cbv zeta.
  - destruct (setState (successUpdates d) w) as [[] w1].
    destruct (onSuccess opts) as [fo|] eqn:E1; destruct (onSettled opts) as [fs|] eqn:E2;
      cbn; rewrite ?(HO _ eq_refl), ?(HS _ eq_refl); reflexivity.
  - destruct (setState (errorUpdates e) w) as [[] w1].
    destruct (onError opts) as [fe|] eqn:E1; destruct (onSettled opts) as [fs|] eqn:E2;
      destruct (truthy e); cbn; rewrite ?(HE _ eq_refl), ?(HS _ eq_refl); reflexivity.
Qed.

(** The world in which [mutate] starts its retry loop. *)
Lemma mutate_unfold v w :
  exists ctx w2,
    mquiet (mkMWorld
              (mkInstance (mutationFn (inst w)) (finalOptions (inst w))
                 (assign (mutationState (inst w)) loadingUpdates) (subscribers (inst w)))
              (menv w)) w2 /\
    mutate v w =
      let rw := withRetries msleep (performMutation (mutationFn (inst w)) v)
                  (retryDelay (finalOptions (inst w))) (retry (finalOptions (inst w))) w2 in
      settle (finalOptions (inst w)) v ctx (fst rw) (snd rw).
Proof.
  unfold mutate. unfold bind at 1. cbn [getInst]. cbv zeta.
  unfold bind at 1.
  pose proof (runOnMutate_mquiet (finalOptions (inst w)) v w) as [A B].
  destruct (runOnMutate (finalOptions (inst w)) v w) as [ctx w1]. cbn [snd] in A, B.
  unfold bind at 1.
  destruct (setState_spec loadingUpdates w1) as [C D].
  destruct (setState loadingUpdates w1) as [[] w2]. cbn [snd] in C, D.
  exists ctx, w2. split.
  - split; [rewrite C, A; reflexivity|]. intros fid. rewrite D, B. reflexivity.
  - unfold bind. destruct (withRetries _ _ _ _ w2) as [r w3]. reflexivity.
Qed.

Lemma performMutation_calls f v w :
  mutationCalls f (snd (performMutation f v w)) = S (mutationCalls f w).
Proof.
  unfold mutationCalls. simpl. rewrite mcalls_of_app. simpl. rewrite Nat.eqb_refl. lia.
Qed.

Lemma sameInstance_trans w1 w2 w3 :
  sameInstance w1 w2 -> sameInstance w2 w3 -> sameInstance w1 w3.
Proof. unfold sameInstance. congruence. Qed.

(** A mutation whose attempt number [j], within the retry budget, is the
    first to resolve, with [d]: the state becomes a success state with
    data [d]; the promise resolves with [d] only when [d] is truthy. *)
Lemma mutate_first_success v w (j : nat) (d : value) :
  let f := mutationFn (inst w) in
  let opts := finalOptions (inst w) in
  (j <= Z.to_nat (retry opts))%nat ->
  (forall i, (i < j)%nat -> rejects (mfn_run f v) (mutationCalls f w + i)) ->
  mfn_run f v (mutationCalls f w + j) = Resolve d ->
  let m := mutationState (inst (snd (mutate v w))) in
  status m = StSuccess /\ isSuccess m = true /\ isError m = false /\ data m = d /\
  mutationCalls f (snd (mutate v w)) = (mutationCalls f w + S j)%nat /\
  (mutationCallbacksReturn opts ->
     fst (mutate v w) = if truthy d then Resolved d else Rejected VUndefined).
Proof.
  intros f opts Hj Hrej Hres.
  destruct (mutate_unfold v w) as (ctx & w2 & [Hi Hc] & Heq). rewrite Heq. cbv zeta.
  fold f opts.
  assert (Hc2 : mutationCalls f w2 = mutationCalls f w) by apply Hc.
  destruct (withRetries_first_success msleep (performMutation f v) (mutationCalls f)
              (mfn_run f v) sameInstance sameInstance_trans
              (fun ms w => eq_refl) (fun ms w => eq_refl)
              (fun w => eq_refl) (performMutation_calls f v) (fun w => eq_refl)
              (retryDelay opts) (retry opts) w2 j d Hj)
    as (w3 & Hloop & Hf & Hcalls).
  { intros i Hi'. rewrite Hc2. apply Hrej, Hi'. }
  { rewrite Hc2. exact Hres. }
  rewrite Hloop. cbn [fst snd].
  destruct (settle_state opts v ctx (FetchOk d) w3) as [Hst Hq]. rewrite Hst.
  split; [reflexivity|]. split; [reflexivity|]. split; [reflexivity|].
  split; [reflexivity|]. split.
  - rewrite Hq, Hcalls, Hc2. reflexivity.
  - intros Hcb. apply (settle_result opts v ctx (FetchOk d) w3 Hcb).
Qed.

(** A mutation whose every attempt within the retry budget is rejected:
    the state becomes an error state and the promise is rejected with the
    error of the last attempt. *)
Lemma mutate_all_rejected v w :
  let f := mutationFn (inst w) in
  let opts := finalOptions (inst w) in
  (forall i, (i <= Z.to_nat (retry opts))%nat ->
     rejects (mfn_run f v) (mutationCalls f w + i)) ->
  exists e,
    mfn_run f v (mutationCalls f w + Z.to_nat (retry opts)) = Reject e /\
    let m := mutationState (inst (snd (mutate v w))) in
    status m = StError /\ isError m = true /\ isSuccess m = false /\ error m = e /\
    mutationCalls f (snd (mutate v w))
      = (mutationCalls f w + S (Z.to_nat (retry opts)))%nat /\
    (mutationCallbacksReturn opts -> fst (mutate v w) = Rejected e).
Proof.
  intros f opts Hrej.
  destruct (mutate_unfold v w) as (ctx & w2 & [Hi Hc] & Heq). rewrite Heq. cbv zeta.
  fold f opts.
  assert (Hc2 : mutationCalls f w2 = mutationCalls f w) by apply Hc.
  destruct (withRetries_rejects msleep (performMutation f v) (mutationCalls f)
              (mfn_run f v) sameInstance (fun w => eq_refl) sameInstance_trans
              (fun ms w => eq_refl) (fun ms w => eq_refl)
              (fun w => eq_refl) (performMutation_calls f v) (fun w => eq_refl)
              (retryDelay opts) (retry opts) w2)
    as (e & w3 & Hloop & Hf & Hcalls & Hlast).
  { intros i Hi'. rewrite Hc2. apply Hrej, Hi'. }
  exists e. rewrite Hc2 in Hlast. split; [exact Hlast|].
  rewrite Hloop. cbn [fst snd].
  destruct (settle_state opts v ctx (FetchErr e) w3) as [Hst Hq]. rewrite Hst.
  split; [reflexivity|]. split; [reflexivity|]. split; [reflexivity|].
  split; [reflexivity|]. split.
  - rewrite Hq, Hcalls, Hc2. reflexivity.
  - intros Hcb. apply (settle_result opts v ctx (FetchErr e) w3 Hcb).
Qed.
End MutationFacts.



(** The two outcomes of the specification, on a mutation with truthy data
    and on one with a rejecting function. *)
Lemma mutate_examples :
  fst (UseMutation.mutate (VStr "v") (mutationWorld echoMutation)) = Resolved (VStr "v") /\
  fst (UseMutation.mutate (VStr "v") (mutationWorld failingMutation)) = Rejected (VStr "E") /\
  Mutation.isError
    (UseMutation.mutationState
       (UseMutation.inst
          (snd (UseMutation.mutate (VStr "v") (mutationWorld failingMutation))))) = true.
Proof. vm_compute. repeat split. Qed.

(** C5.  The specification has [mutate] resolve with the result data
    whenever the mutation succeeds and reject with the error when it
    fails.  A mutation function that resolves with [0] runs
    once and succeeds: the state is status ['success'] with [isSuccess]
    true and [data] 0; yet the promise of [mutate] is rejected, with
    [undefined], because the source returns the data only when it is
    truthy. *)
Theorem mutate_rejects_falsy_success :
  let p := UseMutation.mutate (VStr "v") (mutationWorld zeroMutation) in
  let m := UseMutation.mutationState (UseMutation.inst (snd p)) in
  fst p = Rejected VUndefined /\
  UseMutation.mcalls_of 0 (log (UseMutation.menv (snd p))) = 1%nat /\
  Mutation.status m = StSuccess /\
  Mutation.isSuccess m = true /\
  Mutation.isError m = false /\
  Mutation.data m = VNum 0.
Proof. vm_compute. repeat split. Qed.

(** * Traces of the engine

    Closed forms: what a method returns and the world it leaves, written
    with [addLog], [atTime] and [withVq]. *)

Lemma addLog_nil w : addLog [] w = w.
Proof. destruct w as [q e]. destruct e. unfold addLog. cbn. rewrite app_nil_r. reflexivity. Qed.

Lemma addLog_addLog l1 l2 w : addLog l2 (addLog l1 w) = addLog (l1 ++ l2) w.
Proof. unfold addLog. cbn. rewrite app_assoc. reflexivity. Qed.

Lemma withVq_id w : withVq (vq w) w = w.
Proof. destruct w. reflexivity. Qed.

Lemma atTime_now w : atTime (now (env w)) w = w.
Proof. destruct w as [q e]. destruct e. reflexivity. Qed.

Lemma forEach_addLog {A} (f : A -> M unit) (evs : A -> list event) (l : list A) :
  (forall a w, f a w = (tt, addLog (evs a) w)) ->
  forall w, forEach f l w = (tt, addLog (flat_map evs l) w).
Proof.
  intros Hf. induction l as [|a l IH]; intros w.
  - cbn. rewrite addLog_nil. reflexivity.
  - cbn [forEach]. unfold bind. rewrite Hf, IH, addLog_addLog. reflexivity.
Qed.

Lemma deliver_addLog k st c w : deliver k st c w = (tt, addLog (deliveryOf k st c) w).
Proof.
  unfold deliver, deliveryOf, bind. cbn [emit modifyEnv].
  destruct (obs_run c st); cbn.
  - reflexivity.
  - unfold emit, modifyEnv, env_emit, addLog. cbn. rewrite <- app_assoc. reflexivity.
Qed.

Lemma notifySubscribers_addLog k st w :
  notifySubscribers k st w = (tt, addLog (deliveries k st (subsOf k (vq w))) w).
Proof.
  unfold notifySubscribers, bind, subsOf. cbn [getVq].
  destruct (omap_get k (subscribers (vq w))) as [subs|]; cbn [default].
  - apply forEach_addLog. intros c w'. apply deliver_addLog.
  - cbn. rewrite addLog_nil. reflexivity.
Qed.

Lemma performFetch_eq f w :
  performFetch f w
    = (toResult (fn_run f (callsIn f w)), snd (emit (EvQueryFn (fn_id f)) w)).
Proof. reflexivity. Qed.

(** The loop of [fetchQuery] does to the world what the loop on the pair
    (calls, clock) does to the pair. *)
Lemma retryLoop_simulation f delay budget :
  forall (fuel : nat) (attempt : Z) (result : FetchResult) (w : World)
         (r : FetchResult) (c' : nat) (t' : Z),
    retryLoop purePause fuel (pureAttempt (fn_run f)) delay budget attempt result
      (callsIn f w, now (env w)) = (r, (c', t')) ->
    retryLoop sleep fuel (performFetch f) delay budget attempt result w =
      (r, atTime t' (addLog (repeat (EvQueryFn (fn_id f)) (c' - callsIn f w)) w)) /\
    (callsIn f w <= c')%nat.
Proof.
  induction fuel as [|fuel IH]; intros attempt result w r c' t' Hpure.
  - cbn in Hpure. injection Hpure as <- <- <-.
    cbn. rewrite Nat.sub_diag. cbn. rewrite addLog_nil, atTime_now. split; [reflexivity|lia].
  - cbn [retryLoop] in *.
    destruct (negb (success result) && (attempt <? budget)).
    + unfold bind in Hpure. cbn [purePause pureAttempt fst snd] in Hpure.
      unfold bind at 1. cbn [sleep modifyEnv].
      unfold bind at 1. rewrite performFetch_eq.
      set (w1 := mkWorld (vq w) (env_sleep (delayFor delay (attempt + 1)) (env w))) in *.
      set (w2 := snd (emit (EvQueryFn (fn_id f)) w1)).
      assert (Hc1 : callsIn f w1 = callsIn f w) by reflexivity.
      assert (Hc2 : callsIn f w2 = S (callsIn f w)).
      { unfold w2. rewrite callsIn_emit. congruence. }
      assert (Hn2 : now (env w2) = now (env w) + Z.max 0 (delayFor delay (attempt + 1)))
        by reflexivity.
      rewrite Hc1. rewrite <- Hc2, <- Hn2 in Hpure.
      destruct (IH _ _ w2 r c' t' Hpure) as [Heq Hle].
      rewrite Heq. split; [|lia]. f_equal. rewrite Hc2 in *.
      replace (c' - callsIn f w)%nat with (S (c' - S (callsIn f w))) by lia.
      unfold atTime, addLog, w2, w1. cbn. rewrite <- app_assoc. reflexivity.
    + cbn in Hpure. injection Hpure as <- <- <-.
      cbn. rewrite Nat.sub_diag. cbn. rewrite addLog_nil, atTime_now.
      split; [reflexivity|lia].
Qed.

Lemma withRetries_simulation f delay budget w (r : FetchResult) (c' : nat) (t' : Z) :
  attemptsFrom (fn_run f) delay budget (callsIn f w) (now (env w)) = (r, (c', t')) ->
  withRetries sleep (performFetch f) delay budget w =
    (r, atTime t' (addLog (repeat (EvQueryFn (fn_id f)) (c' - callsIn f w)) w)) /\
  (callsIn f w < c')%nat.
Proof.
  unfold attemptsFrom, withRetries. intros Hpure.
  unfold bind in Hpure. cbn [pureAttempt fst snd] in Hpure.
  unfold bind at 1. rewrite performFetch_eq.
  set (w1 := snd (emit (EvQueryFn (fn_id f)) w)).
  assert (Hc1 : callsIn f w1 = S (callsIn f w)) by apply callsIn_emit.
  assert (Hn1 : now (env w1) = now (env w)) by reflexivity.
  rewrite <- Hc1, <- Hn1 in Hpure.
  destruct (retryLoop_simulation f delay budget _ _ _ w1 r c' t' Hpure) as [Heq Hle].
  rewrite Heq. split; [|lia]. f_equal. rewrite Hc1 in *.
  replace (c' - callsIn f w)%nat with (S (c' - S (callsIn f w))) by lia.
  unfold atTime, addLog, w1. cbn. rewrite <- app_assoc. reflexivity.
Qed.

Lemma calls_of_deliveries fid k st subs : calls_of fid (deliveries k st subs) = 0%nat.
Proof.
  unfold deliveries. induction subs as [|c subs IH]; [reflexivity|].
  rewrite flat_map_step, calls_of_app, IH. unfold deliveryOf.
  destruct (obs_run c st); reflexivity.
Qed.

Lemma settleSuccess_exact k opts d w :
  settleSuccess k opts d w =
    (snd (successCallbacks opts d),
     addLog (deliveries k (successState d (now (env w))) (subsOf k (vq w))
             ++ fst (successCallbacks opts d))
       (storeSuccess k d w)).
Proof.
  unfold settleSuccess. unfold bind at 1. cbn [dateNow].
  unfold bind at 1. cbn [dateNow].
  unfold bind at 1. cbn [modifyVq].
  unfold bind at 1. cbn [setState modifyVq].
  unfold bind at 1. rewrite notifySubscribers_addLog.
  unfold successCallbacks, settledCall, orReject, bind, emit, modifyEnv, env_emit, ret.
  destruct (onSuccess opts) as [fo|]; [destruct (fo d)|];
    (destruct (onSettled opts) as [fs|]; [destruct (fs d VNull)|]);
    cbn; unfold addLog, storeSuccess, subsOf; cbn;
    rewrite <- ?app_assoc, ?app_nil_r; reflexivity.
Qed.

Lemma settleError_exact k opts ns e w :
  settleError k opts ns e w =
    (snd (errorCallbacks opts e),
     addLog (deliveries k (errorState ns e (now (env w))) (subsOf k (vq w))
             ++ fst (errorCallbacks opts e))
       (withVq (set_queryStates
                  (<[k := errorState ns e (now (env w))]> (queryStates (vq w))) (vq w)) w)).
Proof.
  unfold settleError. unfold bind at 1. cbn [dateNow].
  unfold bind at 1. cbn [setState modifyVq].
  unfold bind at 1. rewrite notifySubscribers_addLog.
  unfold errorCallbacks, settledCall, orReject, bind, emit, modifyEnv, env_emit, ret.
  destruct (truthy e);
    [destruct (onError opts) as [fe|]; [destruct (fe e)|];
     (destruct (onSettled opts) as [fs|]; [destruct (fs VUndefined e)|])|];
    cbn; unfold addLog, withVq, subsOf; cbn;
    rewrite <- ?app_assoc, ?app_nil_r; reflexivity.
Qed.

(** The closed form of a fetch of a registered key: its promise and the
    world it leaves, from the attempts of the producer. *)
Lemma fetchQuery_exact k cfg st w (r : FetchResult) (c' : nat) (t' : Z) :
  queryConfigs (vq w) !! k = Some cfg ->
  queryStates (vq w) !! k = Some st ->
  attemptsFrom (fn_run (queryFn cfg)) (retryDelay (options cfg))
    (maxRetries (retry (options cfg))) (callsIn (queryFn cfg) w) (now (env w))
    = (r, (c', t')) ->
  fetchQuery k w =
    (snd (finalCallbacks (options cfg) r),
     addLog (deliveries k (fetchingState st) (subsOf k (vq w))
             ++ repeat (EvQueryFn (fn_id (queryFn cfg))) (c' - callsIn (queryFn cfg) w)
             ++ deliveries k (finalState st r t') (subsOf k (vq w))
             ++ fst (finalCallbacks (options cfg) r))
       (atTime t' (withVq (finalVq k st r t' (vq w)) w))).
Proof.
  intros Hcfg Hst Hpure. rewrite (fetchQuery_unfold k cfg st w Hcfg Hst). cbv zeta.
  unfold started. rewrite notifySubscribers_addLog. cbn [setState modifyVq snd].
  set (w1 := mkWorld _ (env w)).
  change (subsOf k (vq w1)) with (subsOf k (vq w)).
  set (w2 := addLog _ w1).
  assert (Hc : callsIn (queryFn cfg) w2 = callsIn (queryFn cfg) w).
  { unfold w2, callsIn. cbn. rewrite calls_of_app, calls_of_deliveries. lia. }
  assert (Hn : now (env w2) = now (env w)) by reflexivity.
  rewrite <- Hc, <- Hn in Hpure.
  destruct (withRetries_simulation _ _ _ w2 r c' t' Hpure) as [Heq _].
  rewrite Heq. cbn [fst snd]. rewrite Hc.
  destruct r as [d|e].
  - rewrite settleSuccess_exact. f_equal.
    unfold finalCallbacks, finalState, finalVq, storeSuccess, addLog, atTime, withVq,
      w2, w1, subsOf, set_queryStates, set_cache. cbn.
    rewrite insert_insert_eq, <- !app_assoc. reflexivity.
  - rewrite settleError_exact. f_equal.
    unfold finalCallbacks, finalState, finalVq, addLog, atTime, withVq,
      w2, w1, subsOf, set_queryStates. cbn.
    rewrite insert_insert_eq, <- !app_assoc. reflexivity.
Qed.

(** ** The attempts of one fetch *)

Lemma pureLoop_rejects settles delay budget :
  forall (fuel : nat) (attempt : Z) (e : value) (c : nat) (t : Z),
    fuel = Z.to_nat (budget - attempt) ->
    (forall i, (i < fuel)%nat -> rejects settles (c + i)) ->
    exists e',
      retryLoop purePause fuel (pureAttempt settles) delay budget attempt (FetchErr e) (c, t)
        = (FetchErr e', ((c + fuel)%nat, t + waitsFrom delay attempt fuel)) /\
      (fuel = 0%nat -> e' = e) /\
      (forall n, fuel = S n -> settles (c + n)%nat = Reject e').
Proof.
  induction fuel as [|fuel IH]; intros attempt e c t Hfuel Hrej.
  - exists e. cbn. rewrite Nat.add_0_r, Z.add_0_r.
    split; [reflexivity|]. split; [reflexivity|]. intros n Hn. discriminate Hn.
  - assert (Hlt : (attempt <? budget) = true) by (apply Z.ltb_lt; lia).
    cbn [retryLoop success negb andb]. rewrite Hlt. cbn [andb].
    unfold bind. cbn [purePause pureAttempt fst snd].
    destruct (Hrej 0%nat ltac:(lia)) as [e1 He1]. rewrite Nat.add_0_r in He1.
    rewrite He1. cbn [toResult].
    destruct (IH (attempt + 1) e1 (S c) (t + Z.max 0 (delayFor delay (attempt + 1))))
      as (e' & Heq & Hzero & Hlast).
    + lia.
    + intros i Hi. replace (S c + i)%nat with (c + S i)%nat by lia. apply Hrej. lia.
    + exists e'. rewrite Heq. split.
      * cbn [waitsFrom]. f_equal. f_equal; [lia|]. lia.
      * split; [intros Hn; discriminate Hn|].
        intros n Hn. injection Hn as Hn. subst n. destruct fuel as [|m].
        -- rewrite (Hzero eq_refl), Nat.add_0_r. exact He1.
        -- rewrite <- (Hlast m eq_refl). f_equal. lia.
Qed.

Lemma pureLoop_resolves settles delay budget (d : value) :
  forall (j fuel : nat) (attempt : Z) (e : value) (c : nat) (t : Z),
    fuel = Z.to_nat (budget - attempt) ->
    (j < fuel)%nat ->
    (forall i, (i < j)%nat -> rejects settles (c + i)) ->
    settles (c + j)%nat = Resolve d ->
    retryLoop purePause fuel (pureAttempt settles) delay budget attempt (FetchErr e) (c, t)
      = (FetchOk d, ((c + S j)%nat, t + waitsFrom delay attempt (S j))).
Proof.
  induction j as [|j IH]; intros fuel attempt e c t Hfuel Hj Hrej Hres;
    (destruct fuel as [|fuel]; [lia|]);
    assert (Hlt : (attempt <? budget) = true) by (apply Z.ltb_lt; lia);
    cbn [retryLoop success negb andb]; rewrite Hlt; cbn [andb];
    unfold bind; cbn [purePause pureAttempt fst snd].
  - rewrite Nat.add_0_r in Hres. rewrite Hres. cbn [toResult].
    destruct fuel; cbn; f_equal; f_equal; lia.
  - destruct (Hrej 0%nat ltac:(lia)) as [e1 He1]. rewrite Nat.add_0_r in He1.
    rewrite He1. cbn [toResult].
    rewrite (IH fuel (attempt + 1) e1 (S c) (t + Z.max 0 (delayFor delay (attempt + 1)))).
    + cbn [waitsFrom]. f_equal. f_equal; lia.
    + lia.
    + lia.
    + intros i Hi. replace (S c + i)%nat with (c + S i)%nat by lia. apply Hrej. lia.
    + replace (S c + j)%nat with (c + S j)%nat by lia. exact Hres.
Qed.

(** Every attempt the budget allows is rejected: [1 + budget] calls, all
    the waits, and the last error. *)
Lemma attemptsFrom_rejected settles delay budget (c : nat) (t : Z) :
  (forall i, (i <= Z.to_nat budget)%nat -> rejects settles (c + i)) ->
  exists e,
    attemptsFrom settles delay budget c t
      = (FetchErr e, ((c + S (Z.to_nat budget))%nat, t + waits delay (Z.to_nat budget))) /\
    settles (c + Z.to_nat budget)%nat = Reject e.
Proof.
  intros Hrej. unfold attemptsFrom, withRetries, bind. cbn [pureAttempt fst snd].
  destruct (Hrej 0%nat ltac:(lia)) as [e0 He0]. rewrite Nat.add_0_r in He0.
  rewrite He0. cbn [toResult].
  destruct (pureLoop_rejects settles delay budget (Z.to_nat budget) 0 e0 (S c) t)
    as (e' & Heq & Hzero & Hlast).
  - f_equal. lia.
  - intros i Hi. replace (S c + i)%nat with (c + S i)%nat by lia. apply Hrej. lia.
  - exists e'. rewrite Heq. split.
    + unfold waits. f_equal. f_equal. lia.
    + destruct (Z.to_nat budget) as [|n] eqn:En.
      * rewrite (Hzero eq_refl), Nat.add_0_r. exact He0.
      * rewrite <- (Hlast n eq_refl). f_equal. lia.
Qed.

(** Attempt number [j], within budget, is the first to resolve: [1 + j]
    calls and the waits before attempt [j]. *)
Lemma attemptsFrom_resolved settles delay budget (c : nat) (t : Z) (j : nat) (d : value) :
  (j <= Z.to_nat budget)%nat ->
  (forall i, (i < j)%nat -> rejects settles (c + i)) ->
  settles (c + j)%nat = Resolve d ->
  attemptsFrom settles delay budget c t
    = (FetchOk d, ((c + S j)%nat, t + waits delay j)).
Proof.
  intros Hj Hrej Hres. unfold attemptsFrom, withRetries, bind. cbn [pureAttempt fst snd].
  destruct j as [|j].
  - rewrite Nat.add_0_r in Hres. rewrite Hres. cbn [toResult].
    destruct (Z.to_nat budget); cbn; f_equal; f_equal; unfold waits; cbn; lia.
  - destruct (Hrej 0%nat ltac:(lia)) as [e0 He0]. rewrite Nat.add_0_r in He0.
    rewrite He0. cbn [toResult].
    rewrite (pureLoop_resolves settles delay budget d j (Z.to_nat budget) 0 e0 (S c) t).
    + unfold waits. f_equal. f_equal. lia.
    + f_equal. lia.
    + lia.
    + intros i Hi. replace (S c + i)%nat with (c + S i)%nat by lia. apply Hrej. lia.
    + replace (S c + j)%nat with (c + S j)%nat by lia. exact Hres.
Qed.

Lemma waitsFrom_nonneg delay a m : 0 <= waitsFrom delay a m.
Proof. revert a. induction m as [|m IH]; intros a; cbn; [lia|]. specialize (IH (a + 1)). lia. Qed.

(** The attempts of a fetch never move the clock back and make at least
    one call. *)
Lemma attemptsFrom_cases settles delay budget (c : nat) (t : Z) :
  exists r c' t',
    attemptsFrom settles delay budget c t = (r, (c', t')) /\
    (c < c')%nat /\ t <= t' /\
    ((exists e, r = FetchErr e /\ c' = (c + S (Z.to_nat budget))%nat /\
                t' = t + waits delay (Z.to_nat budget) /\
                settles (c + Z.to_nat budget)%nat = Reject e) \/
     (exists j d, r = FetchOk d /\ (j <= Z.to_nat budget)%nat /\ c' = (c + S j)%nat /\
                  t' = t + waits delay j /\ settles (c + j)%nat = Resolve d /\
                  forall i, (i < j)%nat -> rejects settles (c + i))).
Proof.
  destruct (attempts_cases settles c (Z.to_nat budget)) as [Hrej|(j & d & Hj & Hrej & Hres)].
  - destruct (attemptsFrom_rejected settles delay budget c t Hrej) as (e & Heq & Hlast).
    eexists _, _, _. split; [exact Heq|]. split; [lia|].
    split; [pose proof (waitsFrom_nonneg delay 0 (Z.to_nat budget)); unfold waits; lia|].
    left. exists e. auto.
  - pose proof (attemptsFrom_resolved settles delay budget c t j d Hj Hrej Hres) as Heq.
    eexists _, _, _. split; [exact Heq|]. split; [lia|].
    split; [pose proof (waitsFrom_nonneg delay 0 j); unfold waits; lia|].
    right. exists j, d. auto 10.
Qed.

(** ** What a trace holds *)

Lemma traceBetween_addLog evs w w0 :
  log (env w0) = log (env w) -> traceBetween w (addLog evs w0) = evs.
Proof.
  intros H. unfold traceBetween, addLog. cbn. rewrite H. apply drop_app_length.
Qed.

Lemma notificationsTo_deliveries_other k id k' st (s : list Observer) :
  k <> k' -> notificationsTo k id (deliveries k' st s) = [].
Proof.
  intros Hne. unfold deliveries. induction s as [|c s IH]; [reflexivity|].
  rewrite flat_map_step, notificationsTo_app, IH. unfold deliveryOf. cbn.
  apply String.eqb_neq in Hne. rewrite Hne. cbn. destruct (obs_run c st); reflexivity.
Qed.

Lemma notificationsTo_deliveries_absent k id st (s : list Observer) :
  id ∉ map obs_id s -> notificationsTo k id (deliveries k st s) = [].
Proof.
  unfold deliveries. induction s as [|c s IH]; intros Hid; [reflexivity|].
  rewrite flat_map_step, notificationsTo_app. cbn in Hid.
  rewrite not_elem_of_cons in Hid. destruct Hid as [Hne Hid]. rewrite (IH Hid).
  unfold deliveryOf. cbn. apply Nat.eqb_neq in Hne. rewrite Hne, andb_false_r.
  destruct (obs_run c st); reflexivity.
Qed.

Lemma notificationsTo_deliveries_member k (c : Observer) st (s : list Observer) :
  NoDup (map obs_id s) -> set_has c s = true ->
  notificationsTo k (obs_id c) (deliveries k st s) = [st].
Proof.
  unfold deliveries. induction s as [|c' s IH]; intros Hnd Hin; [discriminate Hin|].
  cbn in Hnd. apply NoDup_cons in Hnd. destruct Hnd as [Hc' Hnd].
  rewrite flat_map_step, notificationsTo_app. cbn in Hin.
  destruct (Nat.eqb (obs_id c) (obs_id c')) eqn:E.
  - apply Nat.eqb_eq in E. rewrite E.
    pose proof (notificationsTo_deliveries_absent k _ st s Hc') as Hrest.
    unfold deliveries in Hrest. rewrite Hrest.
    unfold deliveryOf. cbn. rewrite String.eqb_refl, Nat.eqb_refl. cbn.
    destruct (obs_run c' st); reflexivity.
  - cbn in Hin. rewrite (IH Hnd Hin).
    unfold deliveryOf. cbn. rewrite E, andb_false_r.
    destruct (obs_run c' st); reflexivity.
Qed.

Lemma notificationsTo_calls k id fid m : notificationsTo k id (repeat (EvQueryFn fid) m) = [].
Proof. induction m; [reflexivity | exact IHm]. Qed.

Lemma notificationsTo_callbacks k id opts r :
  notificationsTo k id (fst (finalCallbacks opts r)) = [].
Proof.
  unfold finalCallbacks, successCallbacks, errorCallbacks, settledCall.
  destruct r as [d|e].
  - destruct (onSuccess opts) as [f|]; [destruct (f d)|];
      destruct (onSettled opts); reflexivity.
  - destruct (truthy e); [|reflexivity].
    destruct (onError opts) as [f|]; [destruct (f e)|];
      destruct (onSettled opts); reflexivity.
Qed.

Lemma calls_of_repeat fid f m :
  calls_of fid (repeat (EvQueryFn f) m) = if Nat.eqb f fid then m else 0%nat.
Proof.
  induction m as [|m IH]; [destruct (Nat.eqb f fid); reflexivity|].
  cbn. rewrite IH. destruct (Nat.eqb f fid); lia.
Qed.

Lemma calls_of_callbacks fid opts r : calls_of fid (fst (finalCallbacks opts r)) = 0%nat.
Proof.
  unfold finalCallbacks, successCallbacks, errorCallbacks, settledCall.
  destruct r as [d|e].
  - destruct (onSuccess opts) as [f|]; [destruct (f d)|];
      destruct (onSettled opts); reflexivity.
  - destruct (truthy e); [|reflexivity].
    destruct (onError opts) as [f|]; [destruct (f e)|];
      destruct (onSettled opts); reflexivity.
Qed.

Lemma subscribers_wf_subsOf k q :
  subscribers_wf (subscribers q) -> NoDup (map obs_id (subsOf k q)).
Proof.
  intros Hwf. unfold subsOf. destruct (omap_get k (subscribers q)) as [s|] eqn:E.
  - exact (subscribers_wf_get k s _ Hwf E).
  - constructor.
Qed.

Lemma subscribed_subsOf k c q : subscribed k c q <-> set_has c (subsOf k q) = true.
Proof.
  unfold subscribed, subsOf. split.
  - intros (s & Hs & Hin). rewrite Hs. exact Hin.
  - destruct (omap_get k (subscribers q)) as [s|]; [|discriminate]. eauto.
Qed.

(** A fetch of a key without config or state does nothing. *)
Lemma fetchQuery_unregistered k w :
  queryConfigs (vq w) !! k = None \/ queryStates (vq w) !! k = None ->
  fetchQuery k w = (Resolved VUndefined, w).
Proof.
  intros H. unfold fetchQuery, bind. cbn [getVq].
  destruct (queryConfigs (vq w) !! k); [|reflexivity].
  destruct H as [H|H]; [discriminate|]. rewrite H. reflexivity.
Qed.

(** The closed form of any fetch of a registered key. *)
Lemma fetchQuery_trace k cfg st w :
  queryConfigs (vq w) !! k = Some cfg ->
  queryStates (vq w) !! k = Some st ->
  exists r c' t',
    attemptsFrom (fn_run (queryFn cfg)) (retryDelay (options cfg))
      (maxRetries (retry (options cfg))) (callsIn (queryFn cfg) w) (now (env w))
      = (r, (c', t')) /\
    now (env w) <= t' /\
    fetchQuery k w =
      (snd (finalCallbacks (options cfg) r),
       addLog (deliveries k (fetchingState st) (subsOf k (vq w))
               ++ repeat (EvQueryFn (fn_id (queryFn cfg))) (c' - callsIn (queryFn cfg) w)
               ++ deliveries k (finalState st r t') (subsOf k (vq w))
               ++ fst (finalCallbacks (options cfg) r))
         (atTime t' (withVq (finalVq k st r t' (vq w)) w))).
Proof.
  intros Hcfg Hst.
  destruct (attemptsFrom_cases (fn_run (queryFn cfg)) (retryDelay (options cfg))
              (maxRetries (retry (options cfg))) (callsIn (queryFn cfg) w) (now (env w)))
    as (r & c' & t' & Heq & _ & Ht & _).
  exists r, c', t'. split; [exact Heq|]. split; [exact Ht|].
  apply (fetchQuery_exact k cfg st w r c' t' Hcfg Hst Heq).
Qed.

(** X1.  A fetch of key [k] whose producer only settles and whose
    callbacks return or throw without calling the engine, whatever the
    producer settles to and whichever callbacks throw: it leaves the
    configs, the subscriber sets and the interval table as they are,
    leaves the cache entry and the state of every other key as they are,
    leaves the pending timeouts, the focus listeners and the interval
    timers of the host as they are, never moves the clock back, notifies
    no subscriber of another key and calls no other producer than the one
    registered for [k]. *)
Theorem fetchQuery_touches_only_its_key (k : string) (w : World) :
  let w' := snd (fetchQuery k w) in
  queryConfigs (vq w') = queryConfigs (vq w) /\
  subscribers (vq w') = subscribers (vq w) /\
  intervals (vq w') = intervals (vq w) /\
  (forall k', k' <> k ->
     cache (vq w') !! k' = cache (vq w) !! k' /\
     queryStates (vq w') !! k' = queryStates (vq w) !! k') /\
  timeouts (env w') = timeouts (env w) /\
  focusListeners (env w') = focusListeners (env w) /\
  activeIntervals (env w') = activeIntervals (env w) /\
  nextTimerId (env w') = nextTimerId (env w) /\
  now (env w) <= now (env w') /\
  exists evs,
    log (env w') = log (env w) ++ evs /\
    (forall k' id, k' <> k -> notificationsTo k' id evs = []) /\
    (forall fid,
       (forall cfg, queryConfigs (vq w) !! k = Some cfg -> fn_id (queryFn cfg) <> fid) ->
       calls_of fid evs = 0%nat).
Proof.
  intros w'.
  destruct (queryConfigs (vq w) !! k) as [cfg|] eqn:Hcfg;
    [destruct (queryStates (vq w) !! k) as [st|] eqn:Hst|].
  - destruct (fetchQuery_trace k cfg st w Hcfg Hst) as (r & c' & t' & _ & Ht & Heq).
    unfold w'. rewrite Heq. cbn [snd].
    split; [destruct r; reflexivity|]. split; [destruct r; reflexivity|].
    split; [destruct r; reflexivity|]. split.
    { intros k' Hne. destruct r; cbn; rewrite ?lookup_insert_ne by congruence; auto. }
    split; [reflexivity|]. split; [reflexivity|]. split; [reflexivity|].
    split; [reflexivity|]. split; [exact Ht|].
    eexists. split; [reflexivity|]. split.
    + intros k' id Hne.
      rewrite !notificationsTo_app, !notificationsTo_deliveries_other by exact Hne.
      rewrite notificationsTo_calls, notificationsTo_callbacks. reflexivity.
    + intros fid Hfid. specialize (Hfid cfg eq_refl). apply Nat.eqb_neq in Hfid.
      rewrite !calls_of_app, !calls_of_deliveries, calls_of_repeat, calls_of_callbacks, Hfid.
      reflexivity.
  - unfold w'. rewrite fetchQuery_unregistered by (right; exact Hst). cbn [snd].
    repeat split; try lia; try (intros; split; reflexivity).
    exists []. rewrite app_nil_r. repeat split.
  - unfold w'. rewrite fetchQuery_unregistered by (left; exact Hcfg). cbn [snd].
    repeat split; try lia; try (intros; split; reflexivity).
    exists []. rewrite app_nil_r. repeat split.
Qed.

(** X2.  During a fetch of a registered key every subscriber of the key is
    told exactly twice: first the fetching state ([isFetching] true), then
    the state the fetch ends in, which is the state stored for the key
    ([isFetching] and [isLoading] false). *)
Theorem fetchQuery_notifies_twice (k : string) (cfg : QueryConfig) (st : QueryState)
    (w : World) (c : Observer) :
  queryConfigs (vq w) !! k = Some cfg ->
  queryStates (vq w) !! k = Some st ->
  subscribers_wf (subscribers (vq w)) ->
  subscribed k c (vq w) ->
  let w' := snd (fetchQuery k w) in
  notificationsTo k (obs_id c) (traceBetween w w')
    = [fetchingState st; getQueryState k (vq w')] /\
  isFetching (fetchingState st) = true /\
  isFetching (getQueryState k (vq w')) = false /\
  isLoading (getQueryState k (vq w')) = false.
Proof.
  intros Hcfg Hst Hwf Hsub w'.
  destruct (fetchQuery_trace k cfg st w Hcfg Hst) as (r & c' & t' & _ & _ & Heq).
  unfold w'. rewrite Heq. cbn [snd].
  rewrite traceBetween_addLog by reflexivity.
  pose proof (subscribers_wf_subsOf k _ Hwf) as Hnd.
  apply subscribed_subsOf in Hsub.
  rewrite !notificationsTo_app.
  rewrite !(notificationsTo_deliveries_member k c _ _ Hnd Hsub).
  rewrite notificationsTo_calls, notificationsTo_callbacks.
  assert (Hfinal : getQueryState k (finalVq k st r t' (vq w)) = finalState st r t').
  { unfold getQueryState, finalVq. destruct r; cbn; rewrite lookup_insert_eq; reflexivity. }
  cbn [addLog atTime withVq vq]. rewrite Hfinal.
  split; [reflexivity|]. split; [reflexivity|]. destruct r; split; reflexivity.
Qed.

Lemma fetchQuery_notifies_twice_witness :
  let w' := snd (fetchQuery "a" twoKeysWorld) in
  notificationsTo "a" 7 (traceBetween twoKeysWorld w')
    = [fetchingState initialState; getQueryState "a" (vq w')].
Proof.
  intros w'.
  refine (proj1 (fetchQuery_notifies_twice "a"
            (mkQueryConfig (okFn (VStr "X")) (mergeOptions defaultOptions noOptions))
            initialState twoKeysWorld (quietObserver 7) _ _ _ _)).
  - reflexivity.
  - reflexivity.
  - split; vm_compute;
      repeat (constructor;
              [try (rewrite ?elem_of_cons, ?elem_of_nil; intuition discriminate)|]);
      constructor.
  - eexists. split; reflexivity.
Defined.

(** ** Callbacks and timing of a fetch *)

Lemma deliveries_no_callback k st subs :
  Forall (fun ev => isCallback ev = false) (deliveries k st subs).
Proof.
  unfold deliveries. induction subs as [|c subs IH]; [constructor|].
  rewrite flat_map_step. apply Forall_app. split; [|exact IH].
  unfold deliveryOf. destruct (obs_run c st); repeat constructor.
Qed.

Lemma calls_no_callback fid m :
  Forall (fun ev => isCallback ev = false) (repeat (EvQueryFn fid) m).
Proof. induction m; [constructor | constructor; [reflexivity | exact IHm]]. Qed.

Lemma before_callbacks k st st' subs fid m :
  Forall (fun ev => isCallback ev = false)
    (deliveries k st subs ++ repeat (EvQueryFn fid) m ++ deliveries k st' subs).
Proof.
  apply Forall_app. split; [apply deliveries_no_callback|].
  apply Forall_app. split; [apply calls_no_callback | apply deliveries_no_callback].
Qed.

Lemma waitsFrom_S delay m :
  forall a, waitsFrom delay a (S m)
            = waitsFrom delay a m + Z.max 0 (delayFor delay (a + Z.of_nat m + 1)).
Proof.
  induction m as [|m IH]; intros a.
  - cbn. rewrite !Z.add_0_r. reflexivity.
  - change (waitsFrom delay a (S (S m)))
      with (Z.max 0 (delayFor delay (a + 1)) + waitsFrom delay (a + 1) (S m)).
    rewrite (IH (a + 1)). cbn [waitsFrom].
    replace (a + 1 + Z.of_nat m + 1) with (a + Z.of_nat (S m) + 1) by lia. lia.
Qed.

Lemma waits_S delay m :
  waits delay (S m) = waits delay m + Z.max 0 (delayFor delay (Z.of_nat (S m))).
Proof.
  unfold waits. rewrite waitsFrom_S. do 3 f_equal. lia.
Qed.

Lemma waits_constant ms m : waits (DelayNum ms) m = Z.of_nat m * Z.max 0 ms.
Proof.
  induction m as [|m IH]; [reflexivity|]. rewrite waits_S, IH. cbn [delayFor]. lia.
Qed.

(** X3.  With the three callbacks configured and returning, a fetch calls
    them last, after every notification: [onSuccess(data)] then
    [onSettled(data, null)] when an attempt resolved, [onError(error)]
    then [onSettled(undefined, error)] when every attempt was rejected and
    the last error is truthy. *)
Theorem fetchQuery_callbacks_last (k : string) (cfg : QueryConfig) (st : QueryState)
    (w : World) (fs fe : value -> completion) (fd : value -> value -> completion) :
  queryConfigs (vq w) !! k = Some cfg ->
  queryStates (vq w) !! k = Some st ->
  onSuccess (options cfg) = Some fs ->
  onError (options cfg) = Some fe ->
  onSettled (options cfg) = Some fd ->
  callbacksReturn (options cfg) ->
  let f := queryFn cfg in
  let n := Z.to_nat (maxRetries (retry (options cfg))) in
  let w' := snd (fetchQuery k w) in
  (forall (j : nat) (d : value),
     (j <= n)%nat ->
     (forall i, (i < j)%nat -> rejectsAt f (callsIn f w + i)) ->
     fn_run f (callsIn f w + j) = Resolve d ->
     exists pre,
       traceBetween w w' = pre ++ [EvOnSuccess d; EvOnSettled d VNull] /\
       Forall (fun ev => isCallback ev = false) pre) /\
  (forall e : value,
     (forall i, (i <= n)%nat -> rejectsAt f (callsIn f w + i)) ->
     fn_run f (callsIn f w + n) = Reject e ->
     truthy e = true ->
     exists pre,
       traceBetween w w' = pre ++ [EvOnError e; EvOnSettled VUndefined e] /\
       Forall (fun ev => isCallback ev = false) pre).
Proof.
  intros Hcfg Hst Hs He Hd (HS & HE & HD) f n w'. split.
  - intros j d Hj Hrej Hres.
    pose proof (attemptsFrom_resolved (fn_run f) (retryDelay (options cfg))
                  (maxRetries (retry (options cfg))) (callsIn f w) (now (env w)) j d
                  Hj Hrej Hres) as Hpure.
    unfold w'. rewrite (fetchQuery_exact k cfg st w _ _ _ Hcfg Hst Hpure). cbn [snd].
    rewrite traceBetween_addLog by reflexivity.
    eexists. split; [|apply before_callbacks].
    rewrite <- !app_assoc. do 3 f_equal.
    cbn [finalCallbacks]. unfold successCallbacks, settledCall.
    rewrite Hs, Hd, (HS _ Hs). reflexivity.
  - intros e Hrej Hlast Htruthy.
    destruct (attemptsFrom_rejected (fn_run f) (retryDelay (options cfg))
                (maxRetries (retry (options cfg))) (callsIn f w) (now (env w)) Hrej)
      as (e' & Hpure & Hlast').
    fold n in Hlast'. rewrite Hlast in Hlast'. injection Hlast' as <-.
    unfold w'. rewrite (fetchQuery_exact k cfg st w _ _ _ Hcfg Hst Hpure). cbn [snd].
    rewrite traceBetween_addLog by reflexivity.
    eexists. split; [|apply before_callbacks].
    rewrite <- !app_assoc. do 3 f_equal.
    cbn [finalCallbacks]. unfold errorCallbacks, settledCall.
    rewrite Htruthy, He, Hd, (HE _ He). reflexivity.
Qed.

Lemma fetchQuery_callbacks_last_witness :
  let w := callbackWorld (okFn (VStr "X")) (RetryNum 0) in
  exists pre,
    traceBetween w (snd (fetchQuery "cb" w))
      = pre ++ [EvOnSuccess (VStr "X"); EvOnSettled (VStr "X") VNull] /\
    Forall (fun ev => isCallback ev = false) pre.
Proof.
  intros w.
  refine (proj1 (fetchQuery_callbacks_last "cb"
    (mkQueryConfig (okFn (VStr "X"))
       (mergeOptions defaultOptions
          (callbackOptions (fun _ => Normal) (fun _ => Normal) (fun _ _ => Normal)
             (RetryNum 0))))
    initialState w (fun _ => Normal) (fun _ => Normal) (fun _ _ => Normal)
    _ _ _ _ _ _) 0%nat (VStr "X") _ _ _).
  - reflexivity.
  - reflexivity.
  - reflexivity.
  - reflexivity.
  - reflexivity.
  - repeat split; intros g Hg; injection Hg as <-; reflexivity.
  - cbn. lia.
  - intros i Hi. lia.
  - reflexivity.
Defined.

(** X4.  An [onSuccess] that throws makes the promise of [fetchQuery]
    reject with what was thrown and [onSettled] is not called, but the
    fetch has already taken effect: the data is cached and the state is a
    success state. *)
Theorem fetchQuery_throwing_onSuccess (k : string) (cfg : QueryConfig) (st : QueryState)
    (w : World) (fs : value -> completion) (j : nat) (d x : value) :
  queryConfigs (vq w) !! k = Some cfg ->
  queryStates (vq w) !! k = Some st ->
  onSuccess (options cfg) = Some fs ->
  fs d = Throw x ->
  (j <= Z.to_nat (maxRetries (retry (options cfg))))%nat ->
  (forall i, (i < j)%nat -> rejectsAt (queryFn cfg) (callsIn (queryFn cfg) w + i)) ->
  fn_run (queryFn cfg) (callsIn (queryFn cfg) w + j) = Resolve d ->
  let w' := snd (fetchQuery k w) in
  fst (fetchQuery k w) = Rejected x /\
  getQueryData k (vq w') = d /\
  status (getQueryState k (vq w')) = StSuccess /\
  data (getQueryState k (vq w')) = d /\
  exists pre,
    traceBetween w w' = pre ++ [EvOnSuccess d] /\
    Forall (fun ev => isCallback ev = false) pre.
Proof.
  intros Hcfg Hst Hs Hthrow Hj Hrej Hres w'.
  pose proof (attemptsFrom_resolved (fn_run (queryFn cfg)) (retryDelay (options cfg))
                (maxRetries (retry (options cfg))) (callsIn (queryFn cfg) w) (now (env w))
                j d Hj Hrej Hres) as Hpure.
  unfold w'. rewrite (fetchQuery_exact k cfg st w _ _ _ Hcfg Hst Hpure). cbn [fst snd].
  assert (Hcb : finalCallbacks (options cfg) (FetchOk d) = ([EvOnSuccess d], Rejected x)).
  { cbn [finalCallbacks]. unfold successCallbacks. rewrite Hs, Hthrow. reflexivity. }
  rewrite Hcb. cbn [fst snd].
  split; [reflexivity|].
  split; [unfold getQueryData; cbn; rewrite lookup_insert_eq; reflexivity|].
  split; [unfold getQueryState; cbn; rewrite lookup_insert_eq; reflexivity|].
  split; [unfold getQueryState; cbn; rewrite lookup_insert_eq; reflexivity|].
  rewrite traceBetween_addLog by reflexivity.
  eexists. split; [|apply before_callbacks].
  rewrite <- !app_assoc. reflexivity.
Qed.

Lemma fetchQuery_throwing_onSuccess_witness :
  fst (fetchQuery "cb" throwingWorld) = Rejected (VStr "bad callback") /\
  getQueryData "cb" (vq (snd (fetchQuery "cb" throwingWorld))) = VStr "X".
Proof.
  destruct (fetchQuery_throwing_onSuccess "cb"
    (mkQueryConfig (okFn (VStr "X"))
       (mergeOptions defaultOptions
          (callbackOptions (fun _ => Throw (VStr "bad callback")) (fun _ => Normal)
             (fun _ _ => Normal) (RetryNum 0))))
    initialState throwingWorld (fun _ => Throw (VStr "bad callback")) 0%nat (VStr "X")
    (VStr "bad callback")) as (H1 & H2 & _).
  - reflexivity.
  - reflexivity.
  - reflexivity.
  - reflexivity.
  - cbn. lia.
  - intros i Hi. lia.
  - reflexivity.
  - split; [exact H1 | exact H2].
Defined.

(** X5.  A producer whose rejections carry a falsy value (for instance
    [undefined]) leaves an error state whose [error] is [null], and no
    callback is called, not even a configured [onError] or [onSettled];
    the promise resolves with [undefined]. *)
Theorem fetchQuery_falsy_rejection (k : string) (cfg : QueryConfig) (st : QueryState)
    (w : World) (e : value) :
  queryConfigs (vq w) !! k = Some cfg ->
  queryStates (vq w) !! k = Some st ->
  truthy e = false ->
  (forall i, (i <= Z.to_nat (maxRetries (retry (options cfg))))%nat ->
     fn_run (queryFn cfg) (callsIn (queryFn cfg) w + i) = Reject e) ->
  let w' := snd (fetchQuery k w) in
  fst (fetchQuery k w) = Resolved VUndefined /\
  status (getQueryState k (vq w')) = StError /\
  isError (getQueryState k (vq w')) = true /\
  error (getQueryState k (vq w')) = VNull /\
  Forall (fun ev => isCallback ev = false) (traceBetween w w').
Proof.
  intros Hcfg Hst Hfalsy Hrej w'.
  destruct (attemptsFrom_rejected (fn_run (queryFn cfg)) (retryDelay (options cfg))
              (maxRetries (retry (options cfg))) (callsIn (queryFn cfg) w) (now (env w)))
    as (e' & Hpure & Hlast).
  { intros i Hi. exists e. apply Hrej, Hi. }
  rewrite (Hrej _ (Nat.le_refl _)) in Hlast. injection Hlast as <-.
  unfold w'. rewrite (fetchQuery_exact k cfg st w _ _ _ Hcfg Hst Hpure). cbn [fst snd].
  assert (Hcb : finalCallbacks (options cfg) (FetchErr e) = ([], Resolved VUndefined)).
  { cbn [finalCallbacks]. unfold errorCallbacks. rewrite Hfalsy. reflexivity. }
  rewrite Hcb. cbn [fst snd].
  split; [reflexivity|].
  unfold getQueryState. cbn. rewrite lookup_insert_eq. cbn.
  split; [reflexivity|]. split; [reflexivity|].
  split; [unfold js_or; rewrite Hfalsy; reflexivity|].
  rewrite traceBetween_addLog by reflexivity. rewrite app_nil_r. apply before_callbacks.
Qed.

Lemma fetchQuery_falsy_rejection_witness :
  let w := callbackWorld voidFailFn (RetryNum 1) in
  fst (fetchQuery "cb" w) = Resolved VUndefined /\
  Forall (fun ev => isCallback ev = false) (traceBetween w (snd (fetchQuery "cb" w))).
Proof.
  intros w.
  destruct (fetchQuery_falsy_rejection "cb"
    (mkQueryConfig voidFailFn
       (mergeOptions defaultOptions
          (callbackOptions (fun _ => Normal) (fun _ => Normal) (fun _ _ => Normal)
             (RetryNum 1))))
    initialState w VUndefined) as (H1 & _ & _ & _ & H2).
  - reflexivity.
  - reflexivity.
  - reflexivity.
  - intros i _. reflexivity.
  - split; [exact H1 | exact H2].
Defined.

(** X6.  The clock of a fetch whose retry delays are in the range of the
    host's timers (at most [2^31 - 1] ms; a longer delay the host does not
    wait for): a fetch that fails after [n] retries has waited for the
    delays of the retries 1 to [n] (the delay function is given 1 for the
    first retry, a negative delay is no wait) and stamps [errorUpdatedAt]
    with the time it ends; a fetch whose attempt number [j] resolves has
    waited for the retries 1 to [j] only, nothing at all when the first
    attempt resolves, and stamps [dataUpdatedAt] and the cache entry with
    that time.  With a fixed delay of [ms] the wait before attempt [m] is
    [m * max 0 ms]. *)
Theorem fetchQuery_waits (k : string) (cfg : QueryConfig) (st : QueryState) (w : World) :
  queryConfigs (vq w) !! k = Some cfg ->
  queryStates (vq w) !! k = Some st ->
  (forall a, 1 <= a <= maxRetries (retry (options cfg)) ->
     delayFor (retryDelay (options cfg)) a <= maxTimerDelay) ->
  let f := queryFn cfg in
  let n := Z.to_nat (maxRetries (retry (options cfg))) in
  let delay := retryDelay (options cfg) in
  let w' := snd (fetchQuery k w) in
  ((forall i, (i <= n)%nat -> rejectsAt f (callsIn f w + i)) ->
     now (env w') = now (env w) + waits delay n /\
     errorUpdatedAt (getQueryState k (vq w')) = Some (now (env w'))) /\
  (forall (j : nat) (d : value),
     (j <= n)%nat ->
     (forall i, (i < j)%nat -> rejectsAt f (callsIn f w + i)) ->
     fn_run f (callsIn f w + j) = Resolve d ->
     now (env w') = now (env w) + waits delay j /\
     dataUpdatedAt (getQueryState k (vq w')) = Some (now (env w')) /\
     (timestamp <$> cache (vq w') !! k) = Some (now (env w'))) /\
  waits delay 0 = 0 /\
  (forall m, (m < n)%nat ->
     waits delay (S m) = waits delay m + Z.max 0 (delayFor delay (Z.of_nat (S m)))) /\
  (forall ms m, delay = DelayNum ms -> (m <= n)%nat ->
     waits delay m = Z.of_nat m * Z.max 0 ms).
Proof.
  intros Hcfg Hst Hrange f n delay w'. split; [|split; [|split; [|split]]].
  - intros Hrej.
    destruct (attemptsFrom_rejected (fn_run f) delay (maxRetries (retry (options cfg)))
                (callsIn f w) (now (env w)) Hrej) as (e & Hpure & _).
    unfold w'. rewrite (fetchQuery_exact k cfg st w _ _ _ Hcfg Hst Hpure). cbn [snd].
    split; [reflexivity|].
    unfold getQueryState. cbn. rewrite lookup_insert_eq. reflexivity.
  - intros j d Hj Hrej Hres.
    pose proof (attemptsFrom_resolved (fn_run f) delay (maxRetries (retry (options cfg)))
                  (callsIn f w) (now (env w)) j d Hj Hrej Hres) as Hpure.
    unfold w'. rewrite (fetchQuery_exact k cfg st w _ _ _ Hcfg Hst Hpure). cbn [snd].
    split; [reflexivity|].
    unfold getQueryState. cbn. rewrite !lookup_insert_eq. split; reflexivity.
  - reflexivity.
  - intros m _. apply waits_S.
  - intros ms m -> _. apply waits_constant.
Qed.

Lemma fetchQuery_waits_witness :
  let w := snd (useQuery "slow" thirdTimeFn noOptions newWorld) in
  now (env (snd (fetchQuery "slow" w))) = 6000.
Proof.
  intros w.
  refine (proj1 (proj1 (proj2 (fetchQuery_waits "slow"
    (mkQueryConfig thirdTimeFn (mergeOptions defaultOptions noOptions)) initialState w _ _ _))
    2%nat (VStr "late") _ _ _)).
  - reflexivity.
  - reflexivity.
  - intros a Ha. cbn. unfold defaultRetryDelay, maxTimerDelay.
    pose proof (Z.le_min_r (1000 * 2 ^ a) 30000). lia.
  - cbn. lia.
  - intros i Hi. exists (VStr "busy").
    destruct i as [|[|i]]; [reflexivity | reflexivity | lia].
  - reflexivity.
Defined.

(** X7.  A fetch stops at the first attempt that resolves: with attempt
    number [j] the first to resolve, the producer is called exactly
    [j + 1] times, the data is what [getQueryData] returns afterwards and
    the state is the success state with that data. *)
Theorem fetchQuery_stops_at_first_success (k : string) (cfg : QueryConfig)
    (st : QueryState) (w : World) (j : nat) (d : value) :
  queryConfigs (vq w) !! k = Some cfg ->
  queryStates (vq w) !! k = Some st ->
  (j <= Z.to_nat (maxRetries (retry (options cfg))))%nat ->
  (forall i, (i < j)%nat -> rejectsAt (queryFn cfg) (callsIn (queryFn cfg) w + i)) ->
  fn_run (queryFn cfg) (callsIn (queryFn cfg) w + j) = Resolve d ->
  let w' := snd (fetchQuery k w) in
  callsIn (queryFn cfg) w' = (callsIn (queryFn cfg) w + (j + 1))%nat /\
  getQueryData k (vq w') = d /\
  getQueryState k (vq w') = successState d (now (env w')) /\
  status (getQueryState k (vq w')) = StSuccess /\
  isSuccess (getQueryState k (vq w')) = true /\
  isError (getQueryState k (vq w')) = false /\
  error (getQueryState k (vq w')) = VNull.
Proof.
  intros Hcfg Hst Hj Hrej Hres w'.
  destruct (fetchQuery_success k cfg st w j d Hcfg Hst Hj Hrej Hres) as (Hvq & Hc & _).
  cbv zeta in Hvq, Hc. fold w' in Hvq, Hc.
  split; [rewrite Hc; lia|].
  unfold getQueryData, getQueryState. rewrite Hvq. cbn. rewrite !lookup_insert_eq. cbn.
  repeat split.
Qed.

Lemma fetchQuery_stops_at_first_success_witness :
  let w := snd (useQuery "slow" thirdTimeFn noOptions newWorld) in
  callsIn thirdTimeFn (snd (fetchQuery "slow" w)) = 3%nat /\
  getQueryData "slow" (vq (snd (fetchQuery "slow" w))) = VStr "late".
Proof.
  intros w.
  destruct (fetchQuery_stops_at_first_success "slow"
    (mkQueryConfig thirdTimeFn (mergeOptions defaultOptions noOptions)) initialState w
    2%nat (VStr "late")) as (H1 & H2 & _).
  - reflexivity.
  - reflexivity.
  - cbn. lia.
  - intros i Hi. exists (VStr "busy").
    destruct i as [|[|i]]; [reflexivity | reflexivity | lia].
  - reflexivity.
  - split; [exact H1 | exact H2].
Defined.

(** X8.  The default retry delay, for the attempt numbers the loops pass
    to it: it starts at 2000 ms for the first retry, doubles with every
    retry until it reaches the cap of 30000 ms at the fifth, and stays
    there; it is never below 1000 ms. *)
Theorem defaultRetryDelay_backoff (a : Z) :
  0 <= a ->
  1000 <= defaultRetryDelay a <= 30000 /\
  defaultRetryDelay (a + 1) = Z.min (2 * defaultRetryDelay a) 30000 /\
  defaultRetryDelay a <= defaultRetryDelay (a + 1) /\
  (a <= 4 -> defaultRetryDelay a = 1000 * 2 ^ a) /\
  (5 <= a -> defaultRetryDelay a = 30000) /\
  defaultRetryDelay 1 = 2000.
Proof.
  intros Ha. unfold defaultRetryDelay.
  assert (Hpos : 1 <= 2 ^ a) by (apply Z.lt_pred_le, Z.pow_pos_nonneg; lia).
  assert (Hsucc : 2 ^ (a + 1) = 2 * 2 ^ a) by (rewrite Z.pow_add_r by lia; lia).
  rewrite Hsucc.
  assert (Hbig : 5 <= a -> 32 <= 2 ^ a).
  { intros H5. change 32 with (2 ^ 5). apply Z.pow_le_mono_r; lia. }
  assert (Hsmall : a <= 4 -> 2 ^ a <= 16).
  { intros H4. change 16 with (2 ^ 4). apply Z.pow_le_mono_r; lia. }
  split; [lia|]. split; [lia|]. split; [lia|]. split; [lia|]. split; [lia|]. reflexivity.
Qed.

Lemma defaultRetryDelay_backoff_witness :
  defaultRetryDelay 3 = 8000 /\ defaultRetryDelay 7 = 30000.
Proof.
  destruct (defaultRetryDelay_backoff 3 ltac:(lia)) as (_ & _ & _ & H3 & _).
  destruct (defaultRetryDelay_backoff 7 ltac:(lia)) as (_ & _ & _ & _ & H7 & _).
  split; [apply H3; lia | apply H7; lia].
Defined.

(** ** The subscriber registry *)

Lemma omap_get_set_eq {V} k (v : V) (m : list (string * V)) :
  omap_get k (omap_set k v m) = Some v.
Proof.
  induction m as [|[k' v'] m IH]; cbn.
  - rewrite String.eqb_refl. reflexivity.
  - destruct (String.eqb k k') eqn:E; cbn; rewrite E; [reflexivity | exact IH].
Qed.

Lemma omap_get_set_ne {V} k k' (v : V) (m : list (string * V)) :
  k' <> k -> omap_get k' (omap_set k v m) = omap_get k' m.
Proof.
  intros Hne. induction m as [|[k0 v0] m IH]; cbn.
  - apply String.eqb_neq in Hne. rewrite Hne. reflexivity.
  - destruct (String.eqb k k0) eqn:E; cbn.
    + apply String.eqb_eq in E. subst k0.
      apply String.eqb_neq in Hne. rewrite Hne. reflexivity.
    + rewrite IH. reflexivity.
Qed.

Lemma omap_set_same {V} k (v : V) (m : list (string * V)) :
  omap_get k m = Some v -> omap_set k v m = m.
Proof.
  induction m as [|[k' v'] m IH]; cbn; [discriminate|].
  destruct (String.eqb k k') eqn:E.
  - intros [= ->]. reflexivity.
  - intros H. rewrite (IH H). reflexivity.
Qed.

Lemma omap_set_set {V} k (v1 v2 : V) (m : list (string * V)) :
  omap_set k v2 (omap_set k v1 m) = omap_set k v2 m.
Proof.
  induction m as [|[k' v'] m IH]; cbn.
  - rewrite String.eqb_refl. reflexivity.
  - destruct (String.eqb k k') eqn:E; cbn; rewrite E; [reflexivity|]. rewrite IH. reflexivity.
Qed.

Lemma filter_bool_step {A} (p : A -> bool) (a : A) (l : list A) :
  filter (fun x => p x) (a :: l)
    = if p a then a :: filter (fun x => p x) l else filter (fun x => p x) l.
Proof. rewrite filter_cons. destruct (p a); reflexivity. Qed.

Lemma omap_delete_step {V} k k' (v' : V) (m : list (string * V)) :
  omap_delete k ((k', v') :: m)
    = if String.eqb k k' then omap_delete k m else (k', v') :: omap_delete k m.
Proof.
  unfold omap_delete. rewrite filter_bool_step. cbn [fst].
  destruct (String.eqb k k'); reflexivity.
Qed.

Lemma omap_delete_absent {V} k (m : list (string * V)) :
  omap_get k m = None -> omap_delete k m = m.
Proof.
  induction m as [|[k' v'] m IH]; [reflexivity|].
  rewrite omap_delete_step. cbn [omap_get].
  destruct (String.eqb k k'); [discriminate|]. intros H. rewrite (IH H). reflexivity.
Qed.

Lemma omap_get_delete_eq {V} k (m : list (string * V)) :
  omap_get k (omap_delete k m) = None.
Proof.
  induction m as [|[k' v'] m IH]; [reflexivity|].
  rewrite omap_delete_step. destruct (String.eqb k k') eqn:E; [exact IH|].
  cbn [omap_get]. rewrite E. exact IH.
Qed.

Lemma omap_get_delete_ne {V} k k' (m : list (string * V)) :
  k' <> k -> omap_get k' (omap_delete k m) = omap_get k' m.
Proof.
  intros Hne. induction m as [|[k0 v0] m IH]; [reflexivity|].
  rewrite omap_delete_step. destruct (String.eqb k k0) eqn:E; cbn [omap_get].
  - apply String.eqb_eq in E. subst k0. apply String.eqb_neq in Hne. rewrite Hne. exact IH.
  - rewrite IH. reflexivity.
Qed.

Lemma set_has_app c s1 s2 : set_has c (s1 ++ s2) = set_has c s1 || set_has c s2.
Proof. unfold set_has. apply existsb_app. Qed.

Lemma set_has_add_same c s : set_has c (set_add c s) = true.
Proof.
  unfold set_add. destruct (set_has c s) eqn:E; [exact E|].
  rewrite set_has_app, E. cbn. rewrite Nat.eqb_refl. reflexivity.
Qed.

Lemma set_has_add_other c c' s : set_has c' s = true -> set_has c' (set_add c s) = true.
Proof.
  intros H. unfold set_add. destruct (set_has c s); [exact H|].
  rewrite set_has_app, H. reflexivity.
Qed.

Lemma set_delete_step c c' s :
  set_delete c (c' :: s)
    = if Nat.eqb (obs_id c) (obs_id c') then set_delete c s else c' :: set_delete c s.
Proof.
  unfold set_delete. rewrite filter_bool_step.
  destruct (Nat.eqb (obs_id c) (obs_id c')); reflexivity.
Qed.

Lemma set_has_step c c' s :
  set_has c (c' :: s) = Nat.eqb (obs_id c) (obs_id c') || set_has c s.
Proof. reflexivity. Qed.

Lemma set_has_delete_same c s : set_has c (set_delete c s) = false.
Proof.
  induction s as [|c' s IH]; [reflexivity|].
  rewrite set_delete_step. destruct (Nat.eqb (obs_id c) (obs_id c')) eqn:E; [exact IH|].
  rewrite set_has_step, E, IH. reflexivity.
Qed.

Lemma set_has_delete_other c c' s :
  obs_id c' <> obs_id c -> set_has c' (set_delete c s) = set_has c' s.
Proof.
  intros Hne. induction s as [|c0 s IH]; [reflexivity|].
  rewrite set_delete_step, (set_has_step c' c0 s).
  destruct (Nat.eqb (obs_id c) (obs_id c0)) eqn:E.
  - apply Nat.eqb_eq in E. rewrite <- E.
    apply Nat.eqb_neq in Hne. rewrite Hne. exact IH.
  - rewrite set_has_step, IH. reflexivity.
Qed.

Lemma set_delete_absent c s : set_has c s = false -> set_delete c s = s.
Proof.
  induction s as [|c' s IH]; [reflexivity|].
  rewrite set_has_step, set_delete_step. intros H.
  apply orb_false_iff in H. destruct H as [H1 H2]. rewrite H1, (IH H2). reflexivity.
Qed.

Lemma set_delete_app c s1 s2 : set_delete c (s1 ++ s2) = set_delete c s1 ++ set_delete c s2.
Proof.
  induction s1 as [|c' s1 IH]; [reflexivity|].
  rewrite <- app_comm_cons, !set_delete_step, IH.
  destruct (Nat.eqb (obs_id c) (obs_id c')); reflexivity.
Qed.

Lemma set_delete_add c s : set_has c s = false -> set_delete c (set_add c s) = s.
Proof.
  intros H. unfold set_add. rewrite H, set_delete_app, (set_delete_absent c s H).
  rewrite set_delete_step, Nat.eqb_refl. apply app_nil_r.
Qed.

Lemma consoleErrors_app l1 l2 : consoleErrors (l1 ++ l2) = consoleErrors l1 ++ consoleErrors l2.
Proof.
  induction l1 as [|ev l1 IH]; [reflexivity|].
  destruct ev; cbn; rewrite ?IH; reflexivity.
Qed.

Lemma consoleErrors_deliveries k st subs :
  consoleErrors (deliveries k st subs) = thrownBy st subs.
Proof.
  unfold deliveries. induction subs as [|c subs IH]; [reflexivity|].
  rewrite flat_map_step, consoleErrors_app, IH. unfold deliveryOf. cbn.
  destruct (obs_run c st); reflexivity.
Qed.

Lemma set_has_elem_of c s : set_has c s = true <-> obs_id c ∈ map obs_id s.
Proof.
  unfold set_has. induction s as [|c' s IH]; cbn.
  - split; [discriminate | intros H; inversion H].
  - rewrite orb_true_iff, IH, elem_of_cons, Nat.eqb_eq. reflexivity.
Qed.

(** X9.  [notifySubscribers] reaches every subscriber of the key exactly
    once with the given state, also when some callbacks throw: what is
    thrown goes to [console.error], in order, and nothing else happens (no
    table of the engine changes, nobody else is told). *)
Theorem notifySubscribers_reaches_everyone (k : string) (st : QueryState) (w : World) :
  subscribers_wf (subscribers (vq w)) ->
  exists evs,
    notifySubscribers k st w = (tt, addLog evs w) /\
    (forall c, subscribed k c (vq w) -> notificationsTo k (obs_id c) evs = [st]) /\
    (forall c, ~ subscribed k c (vq w) -> notificationsTo k (obs_id c) evs = []) /\
    (forall k' id, k' <> k -> notificationsTo k' id evs = []) /\
    consoleErrors evs = thrownBy st (subsOf k (vq w)) /\
    (forall fid, calls_of fid evs = 0%nat).
Proof.
  intros Hwf. exists (deliveries k st (subsOf k (vq w))).
  split; [apply notifySubscribers_addLog|].
  pose proof (subscribers_wf_subsOf k _ Hwf) as Hnd.
  split; [|split; [|split; [|split]]].
  - intros c Hsub. apply subscribed_subsOf in Hsub.
    apply (notificationsTo_deliveries_member k c st _ Hnd Hsub).
  - intros c Hsub. apply notificationsTo_deliveries_absent.
    intros Hin. apply Hsub. apply subscribed_subsOf, set_has_elem_of, Hin.
  - intros k' id Hne. apply notificationsTo_deliveries_other, Hne.
  - apply consoleErrors_deliveries.
  - intros fid. apply calls_of_deliveries.
Qed.

Lemma notifySubscribers_reaches_everyone_witness :
  exists evs,
    snd (notifySubscribers "b" idleState twoKeysWorld) = addLog evs twoKeysWorld /\
    notificationsTo "b" 7 evs = [idleState] /\
    notificationsTo "b" 8 evs = [idleState] /\
    consoleErrors evs = [VStr "oops"].
Proof.
  destruct (notifySubscribers_reaches_everyone "b" idleState twoKeysWorld)
    as (evs & Heq & Hall & _ & _ & Herr & _).
  - split; vm_compute;
      repeat (constructor;
              [try (rewrite ?elem_of_cons, ?elem_of_nil; intuition discriminate)|]);
      constructor.
  - exists evs. rewrite Heq. split; [reflexivity|].
    split; [|split].
    + apply (Hall (quietObserver 7)). eexists. split; reflexivity.
    + apply (Hall (mkObserver 8 (fun _ => Throw (VStr "oops")))). eexists. split; reflexivity.
    + rewrite Herr. reflexivity.
Defined.

(** ** Subscribing and unsubscribing *)

Lemma VanillaQuery_eta q :
  mkVanillaQuery (cache q) (subscribers q) (queryConfigs q) (queryStates q) (intervals q) = q.
Proof. destruct q; reflexivity. Qed.

Lemma World_eta w : mkWorld (vq w) (env w) = w.
Proof. destruct w; reflexivity. Qed.

Lemma set_subscribers_same q : set_subscribers (subscribers q) q = q.
Proof. apply VanillaQuery_eta. Qed.

Lemma set_has_add_inv c c' s :
  set_has c' (set_add c s) = true -> set_has c' s = true \/ obs_id c' = obs_id c.
Proof.
  unfold set_add. destruct (set_has c s); [left; assumption|].
  rewrite set_has_app. intros H. apply orb_true_iff in H. destruct H as [H|H]; [left; exact H|].
  right. cbn in H. rewrite orb_false_r in H. apply Nat.eqb_eq in H. exact H.
Qed.

Lemma set_add_member c s : set_has c s = true -> set_add c s = s.
Proof. intros H. unfold set_add. rewrite H. reflexivity. Qed.

Lemma omap_has_set {V} k k' (v : V) (m : list (string * V)) :
  omap_has k' (omap_set k v m) = (String.eqb k' k || omap_has k' m).
Proof.
  unfold omap_has. destruct (String.eqb k' k) eqn:E.
  - apply String.eqb_eq in E. subst k'. rewrite omap_get_set_eq. reflexivity.
  - apply String.eqb_neq in E. rewrite (omap_get_set_ne k k' v m E). reflexivity.
Qed.

Lemma subscribeToQuery_exact k c w :
  subscribeToQuery k c w =
    (obs_run c (getQueryState k (vq w)),
     addLog [EvNotify k (obs_id c) (getQueryState k (vq w))]
       (withVq (withSubscriber k c (vq w)) w)).
Proof.
  unfold subscribeToQuery, withSubscriber, subsOf, omap_has, bind, modifyVq, getVq, emit,
    modifyEnv, ret, addLog, withVq, env_emit.
  cbn. destruct (omap_get k (subscribers (vq w))) as [subs|] eqn:E; cbn.
  - rewrite E. reflexivity.
  - rewrite omap_get_set_eq. cbn. rewrite omap_set_set. reflexivity.
Qed.

Lemma unsubscribe_exact k c w :
  unsubscribe k c w =
    (tt, withVq (match omap_get k (subscribers (vq w)) with
                 | Some subs =>
                     set_subscribers (omap_set k (set_delete c subs) (subscribers (vq w))) (vq w)
                 | None => vq w
                 end) w).
Proof. reflexivity. Qed.

(** X10.  [subscribeToQuery] calls the new callback once, at once, with
    the current state of the key (the idle state when the key has none);
    what the callback throws is thrown by the method, but the callback is
    subscribed all the same.  Nobody else is called, no subscription is
    lost, none but this one is added, subscribing twice is subscribing
    once, and the cache, the states and the configs stay as they are. *)
Theorem subscribeToQuery_immediate (k : string) (c : Observer) (w : World) :
  let st := getQueryState k (vq w) in
  let w' := snd (subscribeToQuery k c w) in
  fst (subscribeToQuery k c w) = obs_run c st /\
  traceBetween w w' = [EvNotify k (obs_id c) st] /\
  subscribed k c (vq w') /\
  (forall k' c', subscribed k' c' (vq w) -> subscribed k' c' (vq w')) /\
  (forall k' c', subscribed k' c' (vq w') ->
     subscribed k' c' (vq w) \/ (k' = k /\ obs_id c' = obs_id c)) /\
  (subscribed k c (vq w) -> subscribers (vq w') = subscribers (vq w)) /\
  cache (vq w') = cache (vq w) /\
  queryStates (vq w') = queryStates (vq w) /\
  queryConfigs (vq w') = queryConfigs (vq w) /\
  intervals (vq w') = intervals (vq w).
Proof.
  cbv zeta. rewrite subscribeToQuery_exact. cbn [fst snd].
  split; [reflexivity|].
  split; [apply traceBetween_addLog; reflexivity|].
  unfold subscribed, withSubscriber, withVq, addLog. cbn [vq subscribers set_subscribers].
  split; [|split; [|split; [|split]]].
  - exists (set_add c (subsOf k (vq w))). rewrite omap_get_set_eq.
    split; [reflexivity | apply set_has_add_same].
  - intros k' c' (subs & Hget & Hhas).
    destruct (String.eqb_spec k' k) as [->|Hne].
    + exists (set_add c (subsOf k (vq w))). rewrite omap_get_set_eq.
      split; [reflexivity|]. apply set_has_add_other. unfold subsOf. rewrite Hget. exact Hhas.
    + exists subs. rewrite (omap_get_set_ne k k' _ _ Hne). split; assumption.
  - intros k' c' (subs & Hget & Hhas).
    destruct (String.eqb_spec k' k) as [->|Hne].
    + rewrite omap_get_set_eq in Hget. injection Hget as <-.
      apply set_has_add_inv in Hhas. destruct Hhas as [Hhas|Hid].
      * left. apply (subscribed_subsOf k c' (vq w)). exact Hhas.
      * right. split; [reflexivity | exact Hid].
    + rewrite (omap_get_set_ne k k' _ _ Hne) in Hget. left. exists subs. split; assumption.
  - intros (subs & Hget & Hhas). unfold subsOf. rewrite Hget. cbn.
    rewrite (set_add_member c subs Hhas). apply omap_set_same, Hget.
  - cbn. repeat split; reflexivity.
Qed.

(** X11.  The unsubscribe function removes its callback from the set of
    its key and nothing else: every other subscription stays, nobody is
    notified, the (possibly empty) set of the key stays in the map, and
    calling it when the callback is not subscribed changes nothing. *)
Theorem unsubscribe_removes_one (k : string) (c : Observer) (w : World) :
  let w' := snd (unsubscribe k c w) in
  ~ subscribed k c (vq w') /\
  (forall k' c', k' <> k \/ obs_id c' <> obs_id c ->
     (subscribed k' c' (vq w') <-> subscribed k' c' (vq w))) /\
  (forall k', omap_has k' (subscribers (vq w')) = omap_has k' (subscribers (vq w))) /\
  (~ subscribed k c (vq w) -> w' = w) /\
  env w' = env w /\
  cache (vq w') = cache (vq w) /\
  queryStates (vq w') = queryStates (vq w) /\
  queryConfigs (vq w') = queryConfigs (vq w) /\
  intervals (vq w') = intervals (vq w).
Proof.
  cbv zeta. rewrite unsubscribe_exact. cbn [snd].
  destruct (omap_get k (subscribers (vq w))) as [subs|] eqn:E.
  - split; [|split; [|split; [|split]]].
    + intros (s & Hget & Hhas). cbn in Hget. rewrite omap_get_set_eq in Hget.
      injection Hget as <-. rewrite set_has_delete_same in Hhas. discriminate.
    + intros k' c' Hor. unfold subscribed. cbn.
      destruct (String.eqb_spec k' k) as [->|Hne].
      * destruct Hor as [Hor|Hid]; [contradiction|].
        rewrite omap_get_set_eq, E. split; intros (s & Hget & Hhas); injection Hget as <-.
        -- exists subs. split; [reflexivity|].
           rewrite (set_has_delete_other c c' subs Hid) in Hhas. exact Hhas.
        -- exists (set_delete c subs). split; [reflexivity|].
           rewrite (set_has_delete_other c c' subs Hid). exact Hhas.
      * rewrite (omap_get_set_ne k k' _ _ Hne). reflexivity.
    + intros k'. cbn. rewrite omap_has_set. destruct (String.eqb_spec k' k) as [->|Hne].
      * unfold omap_has. rewrite E. reflexivity.
      * reflexivity.
    + intros Hnot. assert (Hhas : set_has c subs = false).
      { destruct (set_has c subs) eqn:Hh; [|reflexivity].
        exfalso. apply Hnot. exists subs. split; assumption. }
      rewrite (set_delete_absent c subs Hhas), (omap_set_same k subs _ E).
      rewrite set_subscribers_same. unfold withVq. apply World_eta.
    + cbn. repeat split; reflexivity.
  - rewrite withVq_id. split; [|split; [|split; [|split]]].
    + intros (s & Hget & _). rewrite E in Hget. discriminate.
    + intros; reflexivity.
    + intros; reflexivity.
    + intros; reflexivity.
    + repeat split; reflexivity.
Qed.

(** X12.  Subscribing a callback that was not subscribed and then
    unsubscribing it gives back the subscriber map, in the same order, when
    the key already had a set; when it had none, an empty set is left
    behind for the key.  The subscriptions are the same either way. *)
Theorem subscribe_unsubscribe_round_trip (k : string) (c : Observer) (w : World) :
  set_has c (subsOf k (vq w)) = false ->
  let w' := snd (unsubscribe k c (snd (subscribeToQuery k c w))) in
  subscribers (vq w') = omap_set k (subsOf k (vq w)) (subscribers (vq w)) /\
  (omap_has k (subscribers (vq w)) = true -> vq w' = vq w) /\
  (omap_has k (subscribers (vq w)) = false -> omap_get k (subscribers (vq w')) = Some []) /\
  (forall k' c', subscribed k' c' (vq w') <-> subscribed k' c' (vq w)).
Proof.
  intros Hhas. cbv zeta. rewrite subscribeToQuery_exact. cbn [snd].
  rewrite unsubscribe_exact. cbn [snd].
  unfold withSubscriber, withVq, addLog.
  cbn [vq env subscribers cache queryStates queryConfigs intervals set_subscribers].
  rewrite omap_get_set_eq.
  cbn [vq env subscribers cache queryStates queryConfigs intervals set_subscribers].
  rewrite omap_set_set, (set_delete_add c _ Hhas).
  split; [reflexivity|]. split; [|split].
  - unfold omap_has, subsOf. destruct (omap_get k (subscribers (vq w))) as [subs|] eqn:E;
      [|discriminate].
    intros _. unfold set_subscribers. cbn. rewrite (omap_set_same k subs _ E).
    apply VanillaQuery_eta.
  - unfold omap_has, subsOf. destruct (omap_get k (subscribers (vq w))) as [subs|] eqn:E;
      [discriminate|].
    intros _. cbn. apply omap_get_set_eq.
  - intros k' c'. unfold subscribed, set_subscribers. cbn [subscribers].
    destruct (String.eqb_spec k' k) as [->|Hne].
    + rewrite omap_get_set_eq. unfold subsOf.
      destruct (omap_get k (subscribers (vq w))) as [subs|] eqn:E; cbn; [reflexivity|].
      split; intros (s & Hget & Hs); [|discriminate].
      injection Hget as <-. discriminate.
    + rewrite (omap_get_set_ne k k' _ _ Hne). reflexivity.
Qed.

Lemma subscribe_unsubscribe_round_trip_witness :
  vq (snd (unsubscribe "a" (quietObserver 9)
             (snd (subscribeToQuery "a" (quietObserver 9) twoKeysWorld))))
    = vq twoKeysWorld /\
  omap_get "z" (subscribers (vq (snd (unsubscribe "z" (quietObserver 9)
             (snd (subscribeToQuery "z" (quietObserver 9) twoKeysWorld))))))
    = Some [].
Proof.
  split.
  - apply (subscribe_unsubscribe_round_trip "a" (quietObserver 9) twoKeysWorld); reflexivity.
  - apply (subscribe_unsubscribe_round_trip "z" (quietObserver 9) twoKeysWorld); reflexivity.
Defined.

(** ** Writing, cancelling and removing by hand *)

Lemma setQueryData_exact k d w :
  setQueryData k d w =
    (d, addLog (deliveries k (successState d (now (env w))) (subsOf k (vq w)))
          (storeSuccess k d w)).
Proof.
  unfold setQueryData, bind, dateNow, setState, modifyVq, ret. cbv beta iota.
  rewrite notifySubscribers_addLog. reflexivity.
Qed.

Lemma cancelQuery_exact k w :
  cancelQuery k w =
    (tt, match queryStates (vq w) !! k with
         | Some st =>
             if isFetching st
             then addLog (deliveries k (cancelledState st) (subsOf k (vq w)))
                    (withVq (set_queryStates (<[k := cancelledState st]> (queryStates (vq w)))
                               (vq w)) w)
             else w
         | None => w
         end).
Proof.
  unfold cancelQuery, bind, getVq. destruct (queryStates (vq w) !! k) as [st|]; [|reflexivity].
  destruct (isFetching st); [|reflexivity].
  unfold setState, modifyVq. cbv beta iota. rewrite notifySubscribers_addLog. reflexivity.
Qed.

(** X13.  [setQueryData] writes the value through: it returns it,
    [getQueryData] returns it, the state of the key becomes the success
    state with it (stamped with the current time, as the cache entry is),
    also for a key that was never registered.  Every subscriber of the key
    is told that state once; no producer runs, and no other key, no
    config, no subscription and no timer is touched. *)
Theorem setQueryData_round_trip (k : string) (d : value) (w : World) :
  subscribers_wf (subscribers (vq w)) ->
  let st := successState d (now (env w)) in
  let w' := snd (setQueryData k d w) in
  fst (setQueryData k d w) = d /\
  getQueryData k (vq w') = d /\
  cache (vq w') !! k = Some (mkCacheEntry d (now (env w))) /\
  getQueryState k (vq w') = st /\
  (forall k', k' <> k ->
     cache (vq w') !! k' = cache (vq w) !! k' /\
     queryStates (vq w') !! k' = queryStates (vq w) !! k') /\
  (forall c, subscribed k c (vq w) ->
     notificationsTo k (obs_id c) (traceBetween w w') = [st]) /\
  (forall k' id, k' <> k -> notificationsTo k' id (traceBetween w w') = []) /\
  (forall fid, calls_of fid (traceBetween w w') = 0%nat) /\
  queryConfigs (vq w') = queryConfigs (vq w) /\
  subscribers (vq w') = subscribers (vq w) /\
  intervals (vq w') = intervals (vq w) /\
  now (env w') = now (env w) /\
  timeouts (env w') = timeouts (env w) /\
  activeIntervals (env w') = activeIntervals (env w).
Proof.
  intros Hwf. cbv zeta. rewrite setQueryData_exact. cbn [fst snd].
  rewrite (traceBetween_addLog _ w (storeSuccess k d w) eq_refl).
  pose proof (subscribers_wf_subsOf k _ Hwf) as Hnd.
  unfold getQueryData, getQueryState, addLog, storeSuccess.
  cbn [vq env cache queryStates queryConfigs subscribers intervals set_cache set_queryStates
       now timeouts activeIntervals].
  rewrite !lookup_insert_eq. cbn.
  split; [reflexivity|]. split; [reflexivity|]. split; [reflexivity|]. split; [reflexivity|].
  split; [|split; [|split; [|split]]].
  - intros k' Hne. rewrite !lookup_insert_ne by congruence. split; reflexivity.
  - intros c Hsub. apply subscribed_subsOf in Hsub.
    apply (notificationsTo_deliveries_member k c _ _ Hnd Hsub).
  - intros k' id Hne. apply notificationsTo_deliveries_other, Hne.
  - intros fid. apply calls_of_deliveries.
  - repeat split; reflexivity.
Qed.

Lemma setQueryData_round_trip_witness :
  getQueryData "b" (vq (snd (setQueryData "b" (VNum 5) twoKeysWorld))) = VNum 5 /\
  notificationsTo "b" 8
    (traceBetween twoKeysWorld (snd (setQueryData "b" (VNum 5) twoKeysWorld)))
    = [successState (VNum 5) 0].
Proof.
  assert (Hwf : subscribers_wf (subscribers (vq twoKeysWorld))).
  { split; vm_compute;
      repeat (constructor;
              [try (rewrite ?elem_of_cons, ?elem_of_nil; intuition discriminate)|]);
      constructor. }
  destruct (setQueryData_round_trip "b" (VNum 5) twoKeysWorld Hwf)
    as (_ & Hget & _ & _ & _ & Hall & _).
  split; [exact Hget|].
  apply (Hall (mkObserver 8 (fun _ => Throw (VStr "oops")))).
  eexists. split; reflexivity.
Defined.

(** X14.  [cancelQuery] only rewrites a flag: when the state of the key
    has [isFetching] set, the state is stored again with the flag cleared
    and every other field as it was, and each subscriber is told once.
    When the flag is not set, or the key has no state, nothing happens at
    all.  In no case is a producer run or stopped, the cache, the configs
    and the timers are not touched, and a second call does nothing. *)
Theorem cancelQuery_clears_flag (k : string) (w : World) :
  subscribers_wf (subscribers (vq w)) ->
  let w' := snd (cancelQuery k w) in
  (forall st, queryStates (vq w) !! k = Some st -> isFetching st = true ->
     queryStates (vq w') !! k = Some (cancelledState st) /\
     (forall c, subscribed k c (vq w) ->
        notificationsTo k (obs_id c) (traceBetween w w') = [cancelledState st])) /\
  ((forall st, queryStates (vq w) !! k = Some st -> isFetching st = false) -> w' = w) /\
  (forall k', k' <> k -> queryStates (vq w') !! k' = queryStates (vq w) !! k') /\
  (forall fid, calls_of fid (traceBetween w w') = 0%nat) /\
  snd (cancelQuery k w') = w' /\
  cache (vq w') = cache (vq w) /\
  queryConfigs (vq w') = queryConfigs (vq w) /\
  subscribers (vq w') = subscribers (vq w) /\
  intervals (vq w') = intervals (vq w) /\
  now (env w') = now (env w) /\
  timeouts (env w') = timeouts (env w) /\
  activeIntervals (env w') = activeIntervals (env w).
Proof.
  intros Hwf. cbv zeta.
  pose proof (subscribers_wf_subsOf k _ Hwf) as Hnd.
  rewrite (cancelQuery_exact k (snd (cancelQuery k w))).
  rewrite (cancelQuery_exact k w). cbn [snd].
  destruct (queryStates (vq w) !! k) as [st|] eqn:Est.
  - destruct (isFetching st) eqn:Ef.
    + rewrite (traceBetween_addLog _ w (withVq _ w) eq_refl).
      unfold addLog, withVq.
      cbn [vq env cache queryStates queryConfigs subscribers intervals set_queryStates
           now timeouts activeIntervals].
      rewrite !lookup_insert_eq. cbn [isFetching cancelledState].
      split; [|split; [|split; [|split]]].
      * intros st' [= <-] _. split; [reflexivity|].
        intros c Hsub. apply subscribed_subsOf in Hsub.
        apply (notificationsTo_deliveries_member k c _ _ Hnd Hsub).
      * intros Hall. specialize (Hall st eq_refl). congruence.
      * intros k' Hne. rewrite lookup_insert_ne by congruence. reflexivity.
      * intros fid. apply calls_of_deliveries.
      * repeat split; reflexivity.
    + rewrite Est, Ef. unfold traceBetween. rewrite drop_all.
      split; [intros st' [= <-] Hf; congruence|].
      repeat split; try reflexivity.
  - rewrite Est. unfold traceBetween. rewrite drop_all.
    split; [intros st' [=]|].
    repeat split; try reflexivity.
Qed.

Lemma cancelQuery_clears_flag_witness :
  isFetching (getQueryState "a" (vq fetchingWorld)) = true /\
  getQueryState "a" (vq (snd (cancelQuery "a" fetchingWorld)))
    = cancelledState (fetchingState initialState) /\
  notificationsTo "a" 7 (traceBetween fetchingWorld (snd (cancelQuery "a" fetchingWorld)))
    = [cancelledState (fetchingState initialState)].
Proof.
  assert (Hwf : subscribers_wf (subscribers (vq fetchingWorld))).
  { split; vm_compute;
      repeat (constructor;
              [try (rewrite ?elem_of_cons, ?elem_of_nil; intuition discriminate)|]);
      constructor. }
  destruct (cancelQuery_clears_flag "a" fetchingWorld Hwf) as (Hset & _).
  destruct (Hset (fetchingState initialState)) as (Hst & Hall); [reflexivity | reflexivity |].
  split; [reflexivity|]. split.
  - unfold getQueryState. rewrite Hst. reflexivity.
  - apply (Hall (quietObserver 7)). eexists. split; reflexivity.
Defined.

Lemma removeQueryData_exact k w :
  removeQueryData k w =
    (tt, let w1 := withVq (forgetKey k (vq w)) w in
         match intervals (vq w) with
         | Some im =>
             match im !! k with
             | Some id =>
                 withVq (set_intervals (Some (delete k im)) (vq w1)) (snd (clearInterval id w1))
             | None => w1
             end
         | None => w1
         end).
Proof.
  unfold removeQueryData, bind, modifyVq, getVq. cbv beta iota zeta.
  cbn [vq env intervals set_cache set_queryStates set_queryConfigs set_subscribers].
  destruct (intervals (vq w)) as [im|]; [|reflexivity].
  destruct (im !! k); reflexivity.
Qed.

Lemma forgetKey_unknown k q :
  cache q !! k = None -> queryStates q !! k = None -> queryConfigs q !! k = None ->
  omap_get k (subscribers q) = None -> forgetKey k q = q.
Proof.
  intros Hc Hs Hg Hsub. unfold forgetKey.
  rewrite (delete_id _ _ Hc), (delete_id _ _ Hs), (delete_id _ _ Hg),
    (omap_delete_absent k _ Hsub).
  apply VanillaQuery_eta.
Qed.

(** X15.  A key the engine has no entry for is inert: fetching,
    refetching and invalidating it resolve with [undefined] and change
    nothing, cancelling, removing, notifying and unsubscribing it change
    nothing either; its data reads as [undefined] and its state as the idle
    state. *)
Theorem unknown_key_is_inert (k : string) (w : World) :
  unknownKey k (vq w) ->
  fetchQuery k w = (Resolved VUndefined, w) /\
  refetchQuery k w = (Resolved VUndefined, w) /\
  invalidateQuery k w = (Resolved VUndefined, w) /\
  cancelQuery k w = (tt, w) /\
  removeQueryData k w = (tt, w) /\
  (forall st, notifySubscribers k st w = (tt, w)) /\
  (forall c, unsubscribe k c w = (tt, w)) /\
  getQueryData k (vq w) = VUndefined /\
  getQueryState k (vq w) = idleState.
Proof.
  intros (Hc & Hs & Hg & Hsub & Hi).
  assert (Hfetch : fetchQuery k w = (Resolved VUndefined, w)).
  { apply fetchQuery_unregistered. left. exact Hg. }
  split; [exact Hfetch|]. split; [exact Hfetch|].
  split; [|split; [|split; [|split; [|split; [|split]]]]].
  - unfold invalidateQuery, bind, modifyVq. cbn.
    rewrite (delete_id _ _ Hc).
    change (set_cache (cache (vq w)) (vq w)) with
      (mkVanillaQuery (cache (vq w)) (subscribers (vq w)) (queryConfigs (vq w))
         (queryStates (vq w)) (intervals (vq w))).
    rewrite VanillaQuery_eta, World_eta. exact Hfetch.
  - rewrite cancelQuery_exact, Hs. reflexivity.
  - rewrite removeQueryData_exact. cbv zeta.
    rewrite (forgetKey_unknown k _ Hc Hs Hg Hsub), withVq_id.
    destruct (intervals (vq w)) as [im|] eqn:Ei; [|reflexivity].
    rewrite (Hi im eq_refl). reflexivity.
  - intros st. rewrite notifySubscribers_addLog. unfold subsOf. rewrite Hsub. cbn.
    rewrite addLog_nil. reflexivity.
  - intros c. rewrite unsubscribe_exact, Hsub, withVq_id. reflexivity.
  - unfold getQueryData. rewrite Hc. reflexivity.
  - unfold getQueryState. rewrite Hs. reflexivity.
Qed.

Lemma unknown_key_is_inert_witness :
  invalidateQuery "nowhere" twoKeysWorld = (Resolved VUndefined, twoKeysWorld) /\
  removeQueryData "nowhere" twoKeysWorld = (tt, twoKeysWorld).
Proof.
  assert (H : unknownKey "nowhere" (vq twoKeysWorld)).
  { repeat split; try reflexivity. intros im [=]. }
  destruct (unknown_key_is_inert "nowhere" twoKeysWorld H) as (_ & _ & Hi & _ & Hr & _).
  split; [exact Hi | exact Hr].
Defined.

(** X16.  [removeQueryData] forgets the key: afterwards the engine has no
    entry for it in any table, so a later fetch of it does nothing.  The
    entries of every other key stay; the subscribers of the key are
    dropped without being told; the only host timer that is stopped is
    the one recorded for the key, and pending timeouts and focus
    listeners are left in place. *)
Theorem removeQueryData_forgets_key (k : string) (w : World) :
  let w' := snd (removeQueryData k w) in
  unknownKey k (vq w') /\
  fetchQuery k w' = (Resolved VUndefined, w') /\
  (forall k', k' <> k ->
     cache (vq w') !! k' = cache (vq w) !! k' /\
     queryStates (vq w') !! k' = queryStates (vq w) !! k' /\
     queryConfigs (vq w') !! k' = queryConfigs (vq w) !! k' /\
     omap_get k' (subscribers (vq w')) = omap_get k' (subscribers (vq w)) /\
     default ∅ (intervals (vq w')) !! k' = default ∅ (intervals (vq w)) !! k') /\
  (forall t, t ∈ activeIntervals (env w') <->
     t ∈ activeIntervals (env w) /\
     default ∅ (intervals (vq w)) !! k <> Some (timer_id t)) /\
  log (env w') = log (env w) /\
  now (env w') = now (env w) /\
  timeouts (env w') = timeouts (env w) /\
  focusListeners (env w') = focusListeners (env w).
Proof.
  cbv zeta. rewrite removeQueryData_exact. cbn [snd]. cbv zeta.
  assert (Hforget : forall k', k' <> k ->
     cache (forgetKey k (vq w)) !! k' = cache (vq w) !! k' /\
     queryStates (forgetKey k (vq w)) !! k' = queryStates (vq w) !! k' /\
     queryConfigs (forgetKey k (vq w)) !! k' = queryConfigs (vq w) !! k' /\
     omap_get k' (subscribers (forgetKey k (vq w))) = omap_get k' (subscribers (vq w))).
  { intros k' Hne. unfold forgetKey. cbn [cache queryStates queryConfigs subscribers].
    rewrite !lookup_delete_ne by congruence.
    rewrite (omap_get_delete_ne k k' _ Hne). repeat split; reflexivity. }
  assert (Hgone :
     cache (forgetKey k (vq w)) !! k = None /\
     queryStates (forgetKey k (vq w)) !! k = None /\
     queryConfigs (forgetKey k (vq w)) !! k = None /\
     omap_get k (subscribers (forgetKey k (vq w))) = None).
  { unfold forgetKey. cbn [cache queryStates queryConfigs subscribers].
    rewrite !lookup_delete_eq, omap_get_delete_eq. repeat split; reflexivity. }
  destruct Hgone as (G1 & G2 & G3 & G4).
  destruct (intervals (vq w)) as [im|] eqn:Ei; [destruct (im !! k) as [id|] eqn:Ek|].
  - split; [|split; [|split; [|split]]].
    + unfold unknownKey, withVq, set_intervals.
      cbn [vq cache queryStates queryConfigs subscribers intervals].
      repeat split; try assumption. intros im' [= <-]. apply lookup_delete_eq.
    + apply fetchQuery_unregistered. left. exact G3.
    + intros k' Hne. destruct (Hforget k' Hne) as (F1 & F2 & F3 & F4).
      unfold withVq, set_intervals.
      cbn [vq cache queryStates queryConfigs subscribers intervals default from_option Datatypes.id].
      rewrite lookup_delete_ne by congruence. repeat split; assumption.
    + intros t. unfold withVq, clearInterval, modifyEnv.
      cbn [snd env vq activeIntervals default from_option Datatypes.id].
      rewrite list_elem_of_filter. rewrite Ek. split.
      * intros [Hid Hin]. split; [exact Hin|]. intros [= ->].
        rewrite Nat.eqb_refl in Hid. exact Hid.
      * intros [Hin Hid]. split; [|exact Hin].
        destruct (Nat.eqb (timer_id t) id) eqn:E; [|exact I].
        apply Nat.eqb_eq in E. subst id. exfalso. apply Hid. reflexivity.
    + repeat split; reflexivity.
  - split; [|split; [|split; [|split]]].
    + unfold unknownKey, withVq. cbn [vq]. repeat split; try assumption.
      unfold forgetKey. cbn [intervals]. rewrite Ei. intros im' [= <-]. exact Ek.
    + apply fetchQuery_unregistered. left. exact G3.
    + intros k' Hne. destruct (Hforget k' Hne) as (F1 & F2 & F3 & F4).
      unfold withVq. cbn [vq]. repeat split; try assumption.
      unfold forgetKey. cbn [intervals]. rewrite Ei. reflexivity.
    + intros t. unfold withVq. cbn [env default from_option Datatypes.id]. rewrite Ek.
      split; [intros H; split; [exact H | discriminate] | intros [H _]; exact H].
    + repeat split; reflexivity.
  - split; [|split; [|split; [|split]]].
    + unfold unknownKey, withVq. cbn [vq]. repeat split; try assumption.
      unfold forgetKey. cbn [intervals]. rewrite Ei. intros im' [=].
    + apply fetchQuery_unregistered. left. exact G3.
    + intros k' Hne. destruct (Hforget k' Hne) as (F1 & F2 & F3 & F4).
      unfold withVq. cbn [vq]. repeat split; try assumption.
      unfold forgetKey. cbn [intervals]. rewrite Ei. reflexivity.
    + intros t. unfold withVq. cbn [env default from_option Datatypes.id]. rewrite lookup_empty.
      split; [intros H; split; [exact H | discriminate] | intros [H _]; exact H].
    + repeat split; reflexivity.
Qed.

(** ** What every call preserves *)

Lemma coherent_same_data q q' :
  cache q' = cache q -> queryStates q' = queryStates q -> coherent q -> coherent q'.
Proof. intros Hc Hs [H1 H2]. split; rewrite ?Hc, Hs; assumption. Qed.

Lemma coherent_new : coherent newVanillaQuery.
Proof.
  split.
  - intros k st H. cbn in H. rewrite lookup_empty in H. discriminate.
  - intros k e H. cbn in H. rewrite lookup_empty in H. discriminate.
Qed.

Lemma settled_successState d t : settled (successState d t).
Proof. repeat split. Qed.

Lemma settled_errorState st e t : settled (errorState st e t).
Proof. repeat split. Qed.

Lemma settled_finalState st r t : settled (finalState st r t).
Proof. destruct r; [apply settled_successState | apply settled_errorState]. Qed.

Lemma coherent_finalVq k st r t q :
  queryStates q !! k = Some st -> coherent q -> coherent (finalVq k st r t q).
Proof.
  intros Hst [H1 H2]. split.
  - intros k' st'. unfold finalVq. cbn [queryStates set_queryStates].
    destruct (decide (k' = k)) as [->|Hne].
    + rewrite lookup_insert_eq. intros [= <-]. apply settled_finalState.
    + rewrite lookup_insert_ne by congruence. apply H1.
  - intros k' e. unfold finalVq. cbn [queryStates cache set_queryStates].
    destruct r as [d|e0]; cbn [cache set_cache finalState].
    + destruct (decide (k' = k)) as [->|Hne].
      * rewrite !lookup_insert_eq. intros [= <-]. eexists. split; reflexivity.
      * rewrite !lookup_insert_ne by congruence. apply H2.
    + intros He. destruct (H2 k' e He) as (st0 & Hst0 & Hd).
      destruct (decide (k' = k)) as [->|Hne].
      * rewrite lookup_insert_eq. eexists. split; [reflexivity|].
        rewrite Hst in Hst0. injection Hst0 as <-. exact Hd.
      * rewrite lookup_insert_ne by congruence. exists st0. split; assumption.
Qed.

Lemma fetchQuery_coherent k w :
  coherent (vq w) -> coherent (vq (snd (fetchQuery k w))).
Proof.
  intros Hco.
  destruct (queryConfigs (vq w) !! k) as [cfg|] eqn:Ec;
    [destruct (queryStates (vq w) !! k) as [st|] eqn:Es|].
  - destruct (fetchQuery_trace k cfg st w Ec Es) as (r & c' & t' & _ & _ & Heq).
    rewrite Heq. cbn [snd]. unfold addLog, atTime, withVq. cbn [vq].
    apply coherent_finalVq; assumption.
  - rewrite fetchQuery_unregistered by (right; exact Es). exact Hco.
  - rewrite fetchQuery_unregistered by (left; exact Ec). exact Hco.
Qed.

Lemma coherent_delete_cache k q :
  coherent q -> coherent (set_cache (delete k (cache q)) q).
Proof.
  intros [H1 H2]. split; [exact H1|].
  intros k' e. cbn [cache set_cache queryStates].
  destruct (decide (k' = k)) as [->|Hne].
  - rewrite lookup_delete_eq. discriminate.
  - rewrite lookup_delete_ne by congruence. apply H2.
Qed.

Lemma useQuery_tables k fn opts w :
  cache (vq (snd (useQuery k fn opts w))) = cache (vq w) /\
  queryStates (vq (snd (useQuery k fn opts w))) =
    match queryStates (vq w) !! k with
    | Some _ => queryStates (vq w)
    | None => <[k := initialState]> (queryStates (vq w))
    end /\
  queryConfigs (vq (snd (useQuery k fn opts w))) =
    <[k := mkQueryConfig fn (mergeOptions defaultOptions opts)]> (queryConfigs (vq w)) /\
  subscribers (vq (snd (useQuery k fn opts w))) = subscribers (vq w) /\
  log (env (snd (useQuery k fn opts w))) = log (env w) /\
  now (env (snd (useQuery k fn opts w))) = now (env w).
Proof.
  unfold useQuery. generalize (mergeOptions defaultOptions opts) as o. intros o.
  unfold bind, modifyVq, getEnv, setTimeout0, addFocusListener, setInterval,
    modifyEnv, ret.
  cbn [vq env queryStates queryConfigs set_queryConfigs].
  destruct (queryStates (vq w) !! k);
    destruct (enabled o);
    destruct (refetchOnWindowFocus o);
    destruct (hasWindow (env w)) eqn:Ew; cbn; rewrite ?Ew; cbn;
    destruct (intervalTruthy (refetchInterval o));
    cbn; repeat split; reflexivity.
Qed.

Lemma useQuery_coherent k fn opts w :
  coherent (vq w) -> coherent (vq (snd (useQuery k fn opts w))).
Proof.
  intros [H1 H2]. destruct (useQuery_tables k fn opts w) as (Hc & Hs & _).
  split.
  - intros k' st. rewrite Hs. destruct (queryStates (vq w) !! k) eqn:E; [apply H1|].
    destruct (decide (k' = k)) as [->|Hne].
    + rewrite lookup_insert_eq. intros [= <-]. repeat split.
    + rewrite lookup_insert_ne by congruence. apply H1.
  - intros k' e. rewrite Hc, Hs. intros He. destruct (H2 k' e He) as (st0 & Hst0 & Hd).
    exists st0. split; [|exact Hd].
    destruct (queryStates (vq w) !! k) eqn:E; [exact Hst0|].
    destruct (decide (k' = k)) as [->|Hne]; [congruence|].
    rewrite lookup_insert_ne by congruence. exact Hst0.
Qed.

Lemma cancelQuery_settled k w :
  coherent (vq w) -> cancelQuery k w = (tt, w).
Proof.
  intros [H1 _]. rewrite cancelQuery_exact.
  destruct (queryStates (vq w) !! k) as [st|] eqn:E; [|reflexivity].
  destruct (H1 k st E) as (Hf & _). rewrite Hf. reflexivity.
Qed.

Lemma sameData_refl w : sameData w w.
Proof. split; reflexivity. Qed.

Lemma sameData_trans w1 w2 w3 : sameData w1 w2 -> sameData w2 w3 -> sameData w1 w3.
Proof. intros [A1 B1] [A2 B2]. split; congruence. Qed.

Lemma clear_rest_sameData :
  keeps sameData
    (let* q := getVq in
     run match intervals q with
         | Some im =>
             run forEach (fun kv => clearInterval (snd kv)) (map_to_list im) in
             modifyVq (set_intervals (Some ∅))
         | None => ret tt
         end in
     let* q := getVq in
     run forEach (fun ks => forEach (deliverReset (fst ks)) (snd ks)) (subscribers q) in
     modifyVq (set_subscribers [])).
Proof.
  apply (keeps_bind sameData sameData_trans); [intros w; apply sameData_refl | intros q].
  apply (keeps_bind sameData sameData_trans).
  { destruct (intervals q) as [im|]; [|apply keeps_ret, sameData_refl].
    apply (keeps_bind sameData sameData_trans).
    - apply (keeps_forEach sameData sameData_refl sameData_trans).
      intros kv w. split; reflexivity.
    - intros _ w. split; reflexivity. }
  intros _. apply (keeps_bind sameData sameData_trans); [intros w; apply sameData_refl|].
  intros q'. apply (keeps_bind sameData sameData_trans).
  - apply (keeps_forEach sameData sameData_refl sameData_trans). intros ks.
    apply (keeps_forEach sameData sameData_refl sameData_trans). intros c.
    unfold deliverReset. apply (keeps_bind sameData sameData_trans).
    + intros w. split; reflexivity.
    + intros _. destruct (obs_run c idleState); intros w; split; reflexivity.
  - intros _ w. split; reflexivity.
Qed.

Lemma clear_tables w :
  cache (vq (snd (clear w))) = ∅ /\ queryStates (vq (snd (clear w))) = ∅.
Proof.
  unfold clear. do 3 rewrite bind_snd. cbn [modifyVq fst snd].
  match goal with
  | |- cache (vq (snd (_ ?w0))) = _ /\ _ => destruct (clear_rest_sameData w0) as [A B]
  end.
  split; [etransitivity; [exact A | reflexivity] | etransitivity; [exact B | reflexivity]].
Qed.

Lemma focus_coherent (l : list (string * bool)) :
  forall w, coherent (vq w) ->
    coherent (vq (snd (forEach (fun l : string * bool =>
                                  if snd l then run fetchQuery (fst l) in ret tt else ret tt)
                         l w))).
Proof.
  induction l as [|a l IH]; intros w H; [exact H|].
  cbn [forEach]. rewrite bind_snd. apply IH.
  destruct (snd a); [|exact H].
  rewrite bind_snd. apply fetchQuery_coherent, H.
Qed.

Lemma runOp_coherent o w : coherent (vq w) -> coherent (vq (runOp o w)).
Proof.
  intros Hco. destruct o; cbn [runOp].
  - apply useQuery_coherent, Hco.
  - unfold prefetchQuery. rewrite bind_snd. apply fetchQuery_coherent.
    revert Hco. apply coherent_same_data; reflexivity.
  - apply fetchQuery_coherent, Hco.
  - apply fetchQuery_coherent, Hco.
  - unfold invalidateQuery. rewrite bind_snd. apply fetchQuery_coherent.
    apply coherent_delete_cache, Hco.
  - rewrite (cancelQuery_settled k w Hco). exact Hco.
  - rewrite subscribeToQuery_exact. revert Hco. apply coherent_same_data; reflexivity.
  - rewrite unsubscribe_exact. revert Hco. cbn [snd].
    destruct (omap_get k (subscribers (vq w))); apply coherent_same_data; reflexivity.
  - rewrite setQueryData_exact. cbn [snd]. destruct Hco as [H1 H2]. split.
    + intros k' st. unfold addLog, storeSuccess. cbn [vq queryStates set_queryStates].
      destruct (decide (k' = k)) as [->|Hne].
      * rewrite lookup_insert_eq. intros [= <-]. apply settled_successState.
      * rewrite lookup_insert_ne by congruence. apply H1.
    + intros k' e. unfold addLog, storeSuccess.
      cbn [vq queryStates cache set_queryStates set_cache].
      destruct (decide (k' = k)) as [->|Hne].
      * rewrite !lookup_insert_eq. intros [= <-]. eexists. split; reflexivity.
      * rewrite !lookup_insert_ne by congruence. apply H2.
  - rewrite removeQueryData_exact. cbn [snd]. cbv zeta.
    assert (Hf : coherent (forgetKey k (vq w))).
    { destruct Hco as [H1 H2]. split.
      - intros k' st. unfold forgetKey. cbn [queryStates].
        destruct (decide (k' = k)) as [->|Hne].
        + rewrite lookup_delete_eq. discriminate.
        + rewrite lookup_delete_ne by congruence. apply H1.
      - intros k' e. unfold forgetKey. cbn [queryStates cache].
        destruct (decide (k' = k)) as [->|Hne].
        + rewrite lookup_delete_eq. discriminate.
        + rewrite !lookup_delete_ne by congruence. apply H2. }
    destruct (intervals (vq w)) as [im|]; [destruct (im !! k)|]; exact Hf.
  - destruct (clear_tables w) as [A B]. split.
    + intros k st. rewrite B, lookup_empty. discriminate.
    + intros k e. rewrite A, lookup_empty. discriminate.
  - unfold runTimeout. destruct (timeouts (env w)); [exact Hco|].
    apply fetchQuery_coherent. exact Hco.
  - unfold focusWindow. rewrite bind_snd. apply focus_coherent. exact Hco.
  - unfold tickInterval. destruct (timer_inBackground t || documentVisible (env w));
      [apply fetchQuery_coherent|]; exact Hco.
Qed.

(** X17.  For producers that settle, delay functions that return and
    callbacks that return or throw without calling the engine: every
    sequence of calls of the client and the host in which each call runs
    to its end before the next starts (so a focus event with at most one
    enabled listener) keeps the engine coherent.  Every stored state has
    [isFetching] and [isLoading] false and flags that agree with its
    status (an idle state is the initial one, a success state has no
    error), and every cache entry belongs to a key whose state carries the
    cached data.  So [cancelQuery] never finds anything to cancel. *)
Theorem engine_stays_coherent (ops : list Op) (w : World) :
  coherent (vq w) ->
  admissible ops w ->
  coherent (vq (runOps ops w)) /\
  (forall k, cancelQuery k (runOps ops w) = (tt, runOps ops w)) /\
  (forall k, getQueryData k (vq (runOps ops w)) <> VUndefined ->
     data (getQueryState k (vq (runOps ops w))) = getQueryData k (vq (runOps ops w))).
Proof.
  intros Hco _.
  assert (H : coherent (vq (runOps ops w))).
  { unfold runOps. revert w Hco. induction ops as [|o ops IH]; intros w Hco; [exact Hco|].
    cbn [fold_left]. apply IH, runOp_coherent, Hco. }
  split; [exact H|]. split.
  - intros k. apply cancelQuery_settled, H.
  - intros k. unfold getQueryData, getQueryState. destruct H as [_ H2].
    destruct (cache (vq (runOps ops w)) !! k) as [e|] eqn:E; [|congruence].
    intros _. destruct (H2 k e E) as (st & Hst & Hd). rewrite Hst. exact Hd.
Qed.

Lemma engine_stays_coherent_witness :
  coherent (vq (runOps [OpUseQuery "a" failFn noOptions; OpTimeout; OpFocus;
                        OpSetData "a" (VNum 1); OpSubscribe "a" (quietObserver 7);
                        OpInvalidate "a"; OpCancel "a"] newWorld)).
Proof.
  apply (engine_stays_coherent
           [OpUseQuery "a" failFn noOptions; OpTimeout; OpFocus;
            OpSetData "a" (VNum 1); OpSubscribe "a" (quietObserver 7);
            OpInvalidate "a"; OpCancel "a"] newWorld).
  - split; intros k x H; cbn in H; rewrite lookup_empty in H; discriminate.
  - cbn [admissible sequential]. repeat split. vm_compute. lia.
Defined.

(** ** Registration *)

Lemma useQuery_host k fn opts w :
  let o := mergeOptions defaultOptions opts in
  let w' := snd (useQuery k fn opts w) in
  timeouts (env w') = timeouts (env w) ++ (if enabled o then [k] else []) /\
  focusListeners (env w') =
    focusListeners (env w)
      ++ (if refetchOnWindowFocus o && hasWindow (env w) then [(k, enabled o)] else []) /\
  activeIntervals (env w') =
    activeIntervals (env w)
      ++ match intervalTruthy (refetchInterval o) with
         | Some ms =>
             if enabled o
             then [mkIntervalTimer (nextTimerId (env w)) k ms (refetchIntervalInBackground o)]
             else []
         | None => []
         end /\
  intervals (vq w') =
    match intervalTruthy (refetchInterval o) with
    | Some ms =>
        if enabled o
        then Some (<[k := nextTimerId (env w)]> (default ∅ (intervals (vq w))))
        else intervals (vq w)
    | None => intervals (vq w)
    end.
Proof.
  cbv zeta. unfold useQuery. generalize (mergeOptions defaultOptions opts) as o. intros o.
  unfold bind, modifyVq, getEnv, setTimeout0, addFocusListener, setInterval,
    modifyEnv, ret.
  cbn [vq env queryStates queryConfigs set_queryConfigs].
  destruct (queryStates (vq w) !! k);
    destruct (enabled o);
    destruct (refetchOnWindowFocus o);
    destruct (hasWindow (env w)) eqn:Ew; cbn; rewrite ?Ew; cbn;
    destruct (intervalTruthy (refetchInterval o));
    cbn; rewrite ?app_nil_r; repeat split; reflexivity.
Qed.

(** X18.  [useQuery] only registers: the config of the key is replaced
    by the producer and the options merged over the defaults; a state the
    key already has is kept, as is the cache (otherwise the key gets the
    initial state); no producer runs and nobody is notified.  What it
    leaves with the host: one zero-delay timeout when the query is
    enabled, one focus listener when [refetchOnWindowFocus] is set and
    there is a window, one interval timer when [refetchInterval] is a
    non-zero number and the query is enabled.  Other keys are not
    touched. *)
Theorem useQuery_only_registers (k : string) (fn : QueryFn) (opts : QueryOptions)
    (w : World) :
  let o := mergeOptions defaultOptions opts in
  let w' := snd (useQuery k fn opts w) in
  queryConfigs (vq w') !! k = Some (mkQueryConfig fn o) /\
  getQueryState k (vq w') = default initialState (queryStates (vq w) !! k) /\
  (forall k', k' <> k ->
     queryConfigs (vq w') !! k' = queryConfigs (vq w) !! k' /\
     queryStates (vq w') !! k' = queryStates (vq w) !! k') /\
  cache (vq w') = cache (vq w) /\
  subscribers (vq w') = subscribers (vq w) /\
  traceBetween w w' = [] /\
  now (env w') = now (env w) /\
  timeouts (env w') = timeouts (env w) ++ (if enabled o then [k] else []) /\
  focusListeners (env w') =
    focusListeners (env w)
      ++ (if refetchOnWindowFocus o && hasWindow (env w) then [(k, enabled o)] else []) /\
  activeIntervals (env w') =
    activeIntervals (env w)
      ++ match intervalTruthy (refetchInterval o) with
         | Some ms =>
             if enabled o
             then [mkIntervalTimer (nextTimerId (env w)) k ms (refetchIntervalInBackground o)]
             else []
         | None => []
         end.
Proof.
  cbv zeta.
  destruct (useQuery_tables k fn opts w) as (Hc & Hs & Hg & Hsub & Hlog & Hnow).
  destruct (useQuery_host k fn opts w) as (Ht & Hf & Ha & _).
  rewrite Hg, Hc, Hsub, Hnow, Ht, Hf, Ha. unfold getQueryState, traceBetween.
  rewrite Hs, Hlog, drop_all, lookup_insert_eq.
  split; [reflexivity|]. split; [|split].
  - destruct (queryStates (vq w) !! k) as [st|] eqn:E.
    + rewrite E. reflexivity.
    + rewrite lookup_insert_eq. reflexivity.
  - intros k' Hne. rewrite lookup_insert_ne by congruence. split; [reflexivity|].
    destruct (queryStates (vq w) !! k); [reflexivity|].
    rewrite lookup_insert_ne by congruence. reflexivity.
  - repeat split; reflexivity.
Qed.

(** X19.  The automatic first fetch.  Registering an enabled key does not
    run its producer; the producer runs when the host fires the timeout
    that the registration left behind.  If that first call resolves with
    [d], the data is cached, the state is the success state with [d], the
    producer has run once and no timeout is pending.  Registering with
    [enabled: false] leaves no timeout, so the host has nothing to fire. *)
Theorem useQuery_fetches_later (k : string) (fn : QueryFn) (opts : QueryOptions)
    (w : World) :
  timeouts (env w) = [] ->
  let o := mergeOptions defaultOptions opts in
  let w1 := snd (useQuery k fn opts w) in
  let w2 := snd (runTimeout w1) in
  callsIn fn w1 = callsIn fn w /\
  (enabled o = false -> runTimeout w1 = (Resolved VUndefined, w1)) /\
  (enabled o = true ->
   forall d, fn_run fn (callsIn fn w) = Resolve d ->
     callsIn fn w2 = S (callsIn fn w) /\
     getQueryData k (vq w2) = d /\
     getQueryState k (vq w2) = successState d (now (env w)) /\
     timeouts (env w2) = [] /\
     (callbacksReturn o -> fst (runTimeout w1) = Resolved d)).
Proof.
  intros Hno. cbv zeta.
  destruct (useQuery_tables k fn opts w) as (Hc & Hs & Hg & Hsub & Hlog & Hnow).
  destruct (useQuery_host k fn opts w) as (Ht & _).
  rewrite Hno in Ht. cbn [app] in Ht.
  split; [unfold callsIn; rewrite Hlog; reflexivity|]. split.
  - intros Hen. rewrite Hen in Ht. unfold runTimeout. rewrite Ht. reflexivity.
  - intros Hen d Hres. rewrite Hen in Ht. unfold runTimeout. rewrite Ht.
    set (w1 := snd (useQuery k fn opts w)) in *.
    set (w1' := mkWorld (vq w1) _).
    set (o := mergeOptions defaultOptions opts) in *.
    assert (Hcfg : queryConfigs (vq w1') !! k = Some (mkQueryConfig fn o)).
    { unfold w1'. cbn [vq]. rewrite Hg. apply lookup_insert_eq. }
    assert (Hst : queryStates (vq w1') !! k
                  = Some (default initialState (queryStates (vq w) !! k))).
    { unfold w1'. cbn [vq]. rewrite Hs.
      destruct (queryStates (vq w) !! k) as [st|] eqn:E; [exact E|].
      apply lookup_insert_eq. }
    assert (Hcalls : callsIn fn w1' = callsIn fn w).
    { unfold callsIn, w1'. cbn [env log]. rewrite Hlog. reflexivity. }
    assert (Hclock : now (env w1') = now (env w)).
    { unfold w1'. cbn [env now]. exact Hnow. }
    destruct (fetchQuery_trace k _ _ w1' Hcfg Hst) as (r & c' & t' & Hatt & _ & Heq).
    cbn [queryFn options] in Hatt, Heq.
    rewrite (attemptsFrom_resolved (fn_run fn) (retryDelay o) (maxRetries (retry o))
               (callsIn fn w1') (now (env w1')) 0 d) in Hatt.
    + injection Hatt as <- <- <-. rewrite Heq. cbn [fst snd].
      split; [|split; [|split; [|split]]].
      * unfold callsIn in *. unfold addLog, atTime, withVq. cbn [env log].
        rewrite !calls_of_app, calls_of_deliveries, calls_of_repeat. cbn [finalState].
        rewrite calls_of_deliveries.
        rewrite (calls_of_callbacks (fn_id fn) o (FetchOk d)).
        rewrite Nat.eqb_refl, Hcalls. lia.
      * unfold getQueryData, addLog, atTime, withVq, finalVq.
        cbn [vq cache set_queryStates set_cache]. rewrite lookup_insert_eq. reflexivity.
      * unfold getQueryState, addLog, atTime, withVq, finalVq.
        cbn [vq queryStates set_queryStates]. rewrite lookup_insert_eq.
        cbn [finalState]. rewrite Hnow. unfold waits. cbn [waitsFrom].
        rewrite Z.add_0_r. reflexivity.
      * reflexivity.
      * intros (Hs1 & _ & Hs3). cbn [finalCallbacks]. unfold successCallbacks, settledCall.
        destruct (onSuccess o) as [f1|] eqn:E1; destruct (onSettled o) as [f3|] eqn:E3;
          rewrite ?(Hs1 _ eq_refl), ?(Hs3 _ eq_refl); reflexivity.
    + lia.
    + intros i Hi. lia.
    + rewrite Nat.add_0_r, Hcalls. exact Hres.
Qed.

Lemma useQuery_fetches_later_witness :
  let w1 := snd (useQuery "a" (okFn (VStr "X")) noOptions newWorld) in
  callsIn (okFn (VStr "X")) w1 = 0%nat /\
  getQueryData "a" (vq (snd (runTimeout w1))) = VStr "X" /\
  callsIn (okFn (VStr "X")) (snd (runTimeout w1)) = 1%nat.
Proof.
  intros w1.
  destruct (useQuery_fetches_later "a" (okFn (VStr "X")) noOptions newWorld eq_refl)
    as (H0 & _ & Hen).
  destruct (Hen eq_refl (VStr "X") eq_refl) as (H1 & H2 & _).
  split; [exact H0|]. split; [exact H2 | exact H1].
Defined.

(** ** What a fetch does not look at *)

Lemma finalCallbacks_ext o1 o2 r :
  onSuccess o1 = onSuccess o2 -> onError o1 = onError o2 -> onSettled o1 = onSettled o2 ->
  finalCallbacks o1 r = finalCallbacks o2 r.
Proof.
  intros H1 H2 H3. unfold finalCallbacks, successCallbacks, errorCallbacks.
  rewrite H1, H2, H3. reflexivity.
Qed.

(** X20.  [fetchQuery] reads the producer, the retry options and the
    callbacks of the config, the state of the key and its subscribers, and
    nothing else: in two worlds that agree on these (and on the clock and
    the number of calls made), whatever their caches hold and whatever
    [enabled], [staleTime], [cacheTime] and [keepPreviousData] say, the
    fetch returns the same, logs the same and ends in the same state.  In
    particular the producer is always run at least once: data is never
    served from the cache, and a disabled query is fetched like any
    other. *)
Theorem fetchQuery_ignores_freshness (k : string) (cfg1 cfg2 : QueryConfig)
    (st : QueryState) (w1 w2 : World) :
  queryConfigs (vq w1) !! k = Some cfg1 ->
  queryConfigs (vq w2) !! k = Some cfg2 ->
  sameFetchSetup cfg1 cfg2 ->
  queryStates (vq w1) !! k = Some st ->
  queryStates (vq w2) !! k = Some st ->
  subsOf k (vq w1) = subsOf k (vq w2) ->
  callsIn (queryFn cfg1) w1 = callsIn (queryFn cfg1) w2 ->
  now (env w1) = now (env w2) ->
  fst (fetchQuery k w1) = fst (fetchQuery k w2) /\
  traceBetween w1 (snd (fetchQuery k w1)) = traceBetween w2 (snd (fetchQuery k w2)) /\
  getQueryState k (vq (snd (fetchQuery k w1))) = getQueryState k (vq (snd (fetchQuery k w2))) /\
  now (env (snd (fetchQuery k w1))) = now (env (snd (fetchQuery k w2))) /\
  (callsIn (queryFn cfg1) w1 < callsIn (queryFn cfg1) (snd (fetchQuery k w1)))%nat.
Proof.
  intros Hc1 Hc2 (Hfn & Hr & Hd & Hs & He & Hse) Hs1 Hs2 Hsubs Hcalls Hnow.
  destruct (fetchQuery_trace k cfg1 st w1 Hc1 Hs1) as (r & c' & t' & Hatt & _ & Heq1).
  destruct (fetchQuery_trace k cfg2 st w2 Hc2 Hs2) as (r2 & c2 & t2 & Hatt2 & _ & Heq2).
  rewrite <- Hfn, <- Hr, <- Hd, <- Hcalls, <- Hnow, Hatt in Hatt2.
  injection Hatt2 as <- <- <-.
  destruct (attemptsFrom_cases (fn_run (queryFn cfg1)) (retryDelay (options cfg1))
              (maxRetries (retry (options cfg1))) (callsIn (queryFn cfg1) w1) (now (env w1)))
    as (r0 & c0 & t0 & Hatt0 & Hlt & _).
  rewrite Hatt in Hatt0. injection Hatt0 as <- <- <-.
  rewrite Heq1, Heq2. cbn [fst snd].
  rewrite (traceBetween_addLog _ w1 (atTime t' (withVq _ w1)) eq_refl).
  rewrite (traceBetween_addLog _ w2 (atTime t' (withVq _ w2)) eq_refl).
  rewrite (finalCallbacks_ext _ _ r Hs He Hse), <- Hfn, <- Hsubs, <- Hcalls.
  split; [reflexivity|]. split; [reflexivity|]. split; [|split].
  - unfold getQueryState, addLog, atTime, withVq, finalVq.
    cbn [vq queryStates set_queryStates]. rewrite !lookup_insert_eq. reflexivity.
  - reflexivity.
  - unfold callsIn, addLog, atTime, withVq. cbn [env log].
    rewrite !calls_of_app, !calls_of_deliveries, calls_of_repeat, Nat.eqb_refl.
    rewrite (calls_of_callbacks (fn_id (queryFn cfg1)) (options cfg2) r).
    unfold callsIn in Hlt. lia.
Qed.

Lemma fetchQuery_ignores_freshness_witness :
  let fresh := snd (setQueryData "a" (VStr "kept") newWorld) in
  let w1 := snd (useQuery "a" (okFn (VStr "X")) noOptions fresh) in
  let w2 := snd (useQuery "a" (okFn (VStr "X")) (freshnessOptions false 60000 60000) fresh) in
  traceBetween w1 (snd (fetchQuery "a" w1)) = traceBetween w2 (snd (fetchQuery "a" w2)) /\
  (0 < callsIn (okFn (VStr "X")) (snd (fetchQuery "a" w2)))%nat.
Proof.
  intros fresh w1 w2.
  destruct (fetchQuery_ignores_freshness "a"
    (mkQueryConfig (okFn (VStr "X")) (mergeOptions defaultOptions noOptions))
    (mkQueryConfig (okFn (VStr "X"))
       (mergeOptions defaultOptions (freshnessOptions false 60000 60000)))
    (successState (VStr "kept") 0) w1 w2) as (_ & Ht & _ & _ & _);
    try reflexivity.
  { repeat split. }
  destruct (fetchQuery_ignores_freshness "a"
    (mkQueryConfig (okFn (VStr "X"))
       (mergeOptions defaultOptions (freshnessOptions false 60000 60000)))
    (mkQueryConfig (okFn (VStr "X"))
       (mergeOptions defaultOptions (freshnessOptions false 60000 60000)))
    (successState (VStr "kept") 0) w2 w2) as (_ & _ & _ & _ & Hlt);
    try reflexivity.
  { repeat split. }
  split; [exact Ht | exact Hlt].
Defined.

(** ** Refetching on focus and on a timer *)

(** X21.  What [useQuery] arms.  After a registration in a world without
    focus listeners, a focus event fetches the key once when
    [refetchOnWindowFocus] is set, there is a window and the query is
    enabled, and does nothing otherwise.  Every interval timer the
    registration starts is for this key and, when it fires, fetches the
    key if [refetchIntervalInBackground] is set or the document is
    visible, and does nothing otherwise. *)
Theorem useQuery_refetch_triggers (k : string) (fn : QueryFn) (opts : QueryOptions)
    (w : World) :
  focusListeners (env w) = [] ->
  let o := mergeOptions defaultOptions opts in
  let w1 := snd (useQuery k fn opts w) in
  focusWindow w1 =
    (tt, if refetchOnWindowFocus o && hasWindow (env w) && enabled o
         then snd (fetchQuery k w1) else w1) /\
  (forall t, t ∈ activeIntervals (env w1) -> t ∉ activeIntervals (env w) ->
     timer_key t = k /\
     intervalTruthy (refetchInterval o) = Some (timer_period t) /\
     enabled o = true /\
     forall w', documentVisible (env w') = documentVisible (env w) ->
       tickInterval t w' =
         if refetchIntervalInBackground o || documentVisible (env w)
         then fetchQuery k w' else (Resolved VUndefined, w')).
Proof.
  intros Hno. cbv zeta.
  destruct (useQuery_host k fn opts w) as (_ & Hf & Ha & _).
  rewrite Hno in Hf. cbn [app] in Hf. split.
  - unfold focusWindow, bind, getEnv. rewrite Hf.
    destruct (refetchOnWindowFocus _ && hasWindow (env w)); [|reflexivity].
    cbn [forEach andb fst snd]. destruct (enabled _); [|reflexivity].
    unfold bind, ret. destruct (fetchQuery k _) as [p w2]. reflexivity.
  - intros t Hin Hnew. rewrite Ha in Hin. apply elem_of_app in Hin.
    destruct Hin as [Hin|Hin]; [contradiction|].
    destruct (intervalTruthy (refetchInterval _)) as [ms|]; [|inversion Hin].
    destruct (enabled _); [|inversion Hin].
    apply list_elem_of_singleton in Hin. subst t. cbn [timer_key timer_period].
    split; [reflexivity|]. split; [reflexivity|]. split; [reflexivity|].
    intros w' Hvis. unfold tickInterval. cbn [timer_inBackground timer_key].
    rewrite Hvis. reflexivity.
Qed.

Lemma useQuery_refetch_triggers_witness :
  let w1 := snd (useQuery "a" (okFn (VStr "X")) noOptions newWorld) in
  focusWindow w1 = (tt, snd (fetchQuery "a" w1)).
Proof.
  intros w1.
  apply (useQuery_refetch_triggers "a" (okFn (VStr "X")) noOptions newWorld eq_refl).
Defined.

(** * Traces of a mutation *)

Section MutationTraces.
Import Mutation UseMutation MutationFacts.

Lemma maddLog_nil w : maddLog [] w = w.
Proof.
  destruct w as [i e]. destruct e. unfold maddLog. cbn. rewrite app_nil_r. reflexivity.
Qed.

Lemma maddLog_maddLog l1 l2 w : maddLog l2 (maddLog l1 w) = maddLog (l1 ++ l2) w.
Proof. unfold maddLog. cbn. rewrite app_assoc. reflexivity. Qed.

Lemma matTime_now w : matTime (now (menv w)) w = w.
Proof. destruct w as [i e]. destruct e. reflexivity. Qed.

Lemma mforEach_maddLog {A} (f : A -> St MWorld unit) (evs : A -> list event) (l : list A) :
  (forall a w, f a w = (tt, maddLog (evs a) w)) ->
  forall w, forEach f l w = (tt, maddLog (flat_map evs l) w).
Proof.
  intros Hf. induction l as [|a l IH]; intros w.
  - cbn. rewrite maddLog_nil. reflexivity.
  - cbn [forEach flat_map]. unfold bind. rewrite Hf, IH, maddLog_maddLog. reflexivity.
Qed.

Lemma mdeliver_maddLog st c w : mdeliver st c w = (tt, maddLog (mdeliveryOf st c) w).
Proof.
  unfold mdeliver, mdeliveryOf, bind, memit, env_emit, maddLog. cbn.
  destruct (mobs_run c st); cbn; [reflexivity|].
  rewrite <- app_assoc. reflexivity.
Qed.

Lemma setState_exact u w :
  setState u w =
    (tt, maddLog (mdeliveries (assign (mutationState (inst w)) u) (subscribers (inst w)))
           (withState (assign (mutationState (inst w)) u) w)).
Proof.
  unfold setState, bind, getInst. cbv beta iota zeta. cbn [inst mutationState subscribers].
  rewrite (mforEach_maddLog _ (mdeliveryOf (assign (mutationState (inst w)) u)));
    [reflexivity|].
  intros c w0. apply mdeliver_maddLog.
Qed.

Lemma performMutation_eq f v w :
  performMutation f v w
    = (toResult (mfn_run f v (mutationCalls f w)), maddLog [EvMutationFn (mfn_id f) v] w).
Proof. reflexivity. Qed.

Lemma mutationCalls_maddLog f evs w :
  mutationCalls f (maddLog evs w) = (mutationCalls f w + mcalls_of (mfn_id f) evs)%nat.
Proof. unfold mutationCalls, maddLog. cbn [menv log]. apply mcalls_of_app. Qed.

(** The loop of [mutate] does to the world what the loop on the pair
    (calls, clock) does to the pair. *)
Lemma mutationLoop_simulation f v delay budget :
  forall (fuel : nat) (attempt : Z) (result : FetchResult) (w : MWorld)
         (r : FetchResult) (c' : nat) (t' : Z),
    retryLoop purePause fuel (pureAttempt (mfn_run f v)) delay budget attempt result
      (mutationCalls f w, now (menv w)) = (r, (c', t')) ->
    retryLoop msleep fuel (performMutation f v) delay budget attempt result w =
      (r, matTime t' (maddLog (repeat (EvMutationFn (mfn_id f) v) (c' - mutationCalls f w)) w))
    /\ (mutationCalls f w <= c')%nat.
Proof.
  induction fuel as [|fuel IH]; intros attempt result w r c' t' Hpure.
  - cbn in Hpure. injection Hpure as <- <- <-.
    cbn [retryLoop ret]. rewrite Nat.sub_diag. cbn [repeat].
    rewrite maddLog_nil, matTime_now. split; [reflexivity|lia].
  - cbn [retryLoop] in *.
    destruct (negb (success result) && (attempt <? budget)).
    + unfold bind in Hpure. cbn [purePause pureAttempt fst snd] in Hpure.
      unfold bind at 1. cbn [msleep].
      unfold bind at 1. rewrite performMutation_eq.
      set (w1 := mkMWorld (inst w) (env_sleep (delayFor delay (attempt + 1)) (menv w))) in *.
      set (w2 := maddLog [EvMutationFn (mfn_id f) v] w1).
      assert (Hc1 : mutationCalls f w1 = mutationCalls f w) by reflexivity.
      assert (Hc2 : mutationCalls f w2 = S (mutationCalls f w)).
      { unfold w2. rewrite mutationCalls_maddLog, Hc1. cbn. rewrite Nat.eqb_refl. lia. }
      assert (Hn2 : now (menv w2) = now (menv w) + Z.max 0 (delayFor delay (attempt + 1)))
        by reflexivity.
      rewrite Hc1. rewrite <- Hc2, <- Hn2 in Hpure.
      destruct (IH _ _ w2 r c' t' Hpure) as [Heq Hle].
      rewrite Heq. split; [|lia]. f_equal. rewrite Hc2 in *.
      replace (c' - mutationCalls f w)%nat with (S (c' - S (mutationCalls f w))) by lia.
      unfold matTime, maddLog, w2, w1. cbn. rewrite <- app_assoc. reflexivity.
    + cbn in Hpure. injection Hpure as <- <- <-.
      cbn [ret]. rewrite Nat.sub_diag. cbn [repeat]. rewrite maddLog_nil, matTime_now.
      split; [reflexivity|lia].
Qed.

Lemma mutationRetries_simulation f v delay budget w (r : FetchResult) (c' : nat) (t' : Z) :
  attemptsFrom (mfn_run f v) delay budget (mutationCalls f w) (now (menv w)) = (r, (c', t')) ->
  withRetries msleep (performMutation f v) delay budget w =
    (r, matTime t' (maddLog (repeat (EvMutationFn (mfn_id f) v) (c' - mutationCalls f w)) w))
  /\ (mutationCalls f w < c')%nat.
Proof.
  unfold attemptsFrom, withRetries. intros Hpure.
  unfold bind in Hpure. cbn [pureAttempt fst snd] in Hpure.
  unfold bind at 1. rewrite performMutation_eq.
  set (w1 := maddLog [EvMutationFn (mfn_id f) v] w).
  assert (Hc1 : mutationCalls f w1 = S (mutationCalls f w)).
  { unfold w1. rewrite mutationCalls_maddLog. cbn. rewrite Nat.eqb_refl. lia. }
  assert (Hn1 : now (menv w1) = now (menv w)) by reflexivity.
  rewrite <- Hc1, <- Hn1 in Hpure.
  destruct (mutationLoop_simulation f v delay budget _ _ _ w1 r c' t' Hpure) as [Heq Hle].
  rewrite Heq. split; [|lia]. f_equal. rewrite Hc1 in *.
  replace (c' - mutationCalls f w)%nat with (S (c' - S (mutationCalls f w))) by lia.
  unfold matTime, maddLog, w1. cbn. rewrite <- app_assoc. reflexivity.
Qed.

Lemma runOnMutate_exact opts v w :
  runOnMutate opts v w
    = (snd (onMutateEvents opts v), maddLog (fst (onMutateEvents opts v)) w).
Proof.
  unfold runOnMutate, onMutateEvents. destruct (onMutate opts) as [f|].
  - unfold bind, memit, env_emit, maddLog, ret. cbn.
    destruct (f v); cbn; [reflexivity|]. rewrite <- app_assoc. reflexivity.
  - cbn [fst snd ret]. rewrite maddLog_nil. reflexivity.
Qed.

Lemma settle_exact opts v ctx r w :
  settle opts v ctx r w =
    (snd (mutationCallbacks opts v ctx r),
     maddLog (mdeliveries (assign (mutationState (inst w)) (updatesOf r)) (subscribers (inst w))
              ++ fst (mutationCallbacks opts v ctx r))
       (withState (assign (mutationState (inst w)) (updatesOf r)) w)).
Proof.
  assert (Hfin : forall w0,
    match onSettled opts with
    | Some f =>
        let d := match r with FetchOk d => d | FetchErr _ => VUndefined end in
        let e := match r with FetchOk _ => VNull | FetchErr e => js_or e VNull end in
        run memit (EvOnSettled d e) in orReject (f d e v ctx) (ret (returned r))
    | None => ret (returned r)
    end w0 = (snd (mutationSettled opts v ctx r),
              maddLog (fst (mutationSettled opts v ctx r)) w0)).
  { intros w0. unfold mutationSettled. destruct (onSettled opts) as [f|].
    - cbv zeta. unfold bind, memit, orReject, ret. cbn [fst snd].
      destruct (f _ _ v ctx); reflexivity.
    - cbn [fst snd ret]. rewrite maddLog_nil. reflexivity. }
  unfold settle, mutationCallbacks. destruct r as [d|e]; cbn [updatesOf].
  - unfold bind at 1. rewrite setState_exact.
    destruct (onSuccess opts) as [f|].
    + unfold bind at 1. cbn [memit]. unfold orReject.
      destruct (f d v ctx).
      * rewrite Hfin. cbn [fst snd]. f_equal.
        unfold maddLog, withState, env_emit. cbn. rewrite <- !app_assoc. reflexivity.
      * cbn [fst snd ret]. f_equal.
        unfold maddLog, withState, env_emit. cbn. rewrite <- !app_assoc. reflexivity.
    + rewrite Hfin. f_equal. rewrite maddLog_maddLog. reflexivity.
  - unfold bind at 1. rewrite setState_exact.
    destruct (onError opts) as [f|].
    + destruct (truthy e).
      * unfold bind at 1. cbn [memit]. unfold orReject.
        destruct (f e v ctx).
        -- rewrite Hfin. cbn [fst snd]. f_equal.
           unfold maddLog, withState, env_emit. cbn. rewrite <- !app_assoc. reflexivity.
        -- cbn [fst snd ret]. f_equal.
           unfold maddLog, withState, env_emit. cbn. rewrite <- !app_assoc. reflexivity.
      * rewrite Hfin. f_equal. rewrite maddLog_maddLog. reflexivity.
    + rewrite Hfin. f_equal. rewrite maddLog_maddLog. reflexivity.
Qed.

Lemma mcalls_of_mdeliveries fid st subs : mcalls_of fid (mdeliveries st subs) = 0%nat.
Proof.
  unfold mdeliveries. induction subs as [|c subs IH]; [reflexivity|].
  rewrite flat_map_step, mcalls_of_app, IH. unfold mdeliveryOf. cbn.
  destruct (mobs_run c st); reflexivity.
Qed.

Lemma mcalls_of_onMutate fid opts v : mcalls_of fid (fst (onMutateEvents opts v)) = 0%nat.
Proof.
  unfold onMutateEvents. destruct (onMutate opts) as [f|]; [|reflexivity].
  destruct (f v); reflexivity.
Qed.

Lemma mcalls_of_callbacks fid opts v ctx r :
  mcalls_of fid (fst (mutationCallbacks opts v ctx r)) = 0%nat.
Proof.
  assert (Hs : mcalls_of fid (fst (mutationSettled opts v ctx r)) = 0%nat).
  { unfold mutationSettled. destruct (onSettled opts); reflexivity. }
  unfold mutationCallbacks. destruct r as [d|e].
  - destruct (onSuccess opts) as [f|]; [|exact Hs].
    destruct (f d v ctx); [cbn; exact Hs | reflexivity].
  - destruct (onError opts) as [f|]; [|exact Hs].
    destruct (truthy e); [|exact Hs].
    destruct (f e v ctx); [cbn; exact Hs | reflexivity].
Qed.

(** The closed form of [mutate]. *)
Lemma mutate_exact v w (r : FetchResult) (c' : nat) (t' : Z) :
  let f := mutationFn (inst w) in
  let opts := finalOptions (inst w) in
  let st := mutationState (inst w) in
  attemptsFrom (mfn_run f v) (retryDelay opts) (retry opts) (mutationCalls f w)
    (now (menv w)) = (r, (c', t')) ->
  mutate v w =
    (snd (mutationCallbacks opts v (snd (onMutateEvents opts v)) r),
     maddLog (fst (onMutateEvents opts v)
              ++ mdeliveries (loadingMutation st) (subscribers (inst w))
              ++ repeat (EvMutationFn (mfn_id f) v) (c' - mutationCalls f w)
              ++ mdeliveries (finalMutation st r) (subscribers (inst w))
              ++ fst (mutationCallbacks opts v (snd (onMutateEvents opts v)) r))
       (matTime t' (withState (finalMutation st r) w))).
Proof.
  intros f opts st Hatt. unfold mutate. unfold bind at 1. cbn [getInst]. cbv zeta.
  fold f opts. unfold bind at 1. rewrite runOnMutate_exact.
  unfold bind at 1. rewrite setState_exact.
  set (w2 := maddLog _ (withState _ _)).
  assert (Hc2 : mutationCalls f w2 = mutationCalls f w).
  { unfold w2. rewrite mutationCalls_maddLog, mcalls_of_mdeliveries.
    unfold withState. cbn [menv]. unfold mutationCalls. cbn [menv maddLog log].
    rewrite mcalls_of_app, mcalls_of_onMutate. lia. }
  assert (Hn2 : now (menv w2) = now (menv w)) by reflexivity.
  rewrite <- Hc2, <- Hn2 in Hatt.
  destruct (mutationRetries_simulation f v _ _ w2 r c' t' Hatt) as [Heq _].
  unfold bind. rewrite Heq, settle_exact. rewrite Hc2. f_equal.
  unfold w2, maddLog, matTime, withState, finalMutation, loadingMutation. cbn.
  rewrite <- !app_assoc. reflexivity.
Qed.

Lemma mutate_cases v w :
  let f := mutationFn (inst w) in
  let opts := finalOptions (inst w) in
  let st := mutationState (inst w) in
  exists r c' t',
    attemptsFrom (mfn_run f v) (retryDelay opts) (retry opts) (mutationCalls f w)
      (now (menv w)) = (r, (c', t')) /\
    inst (snd (mutate v w))
      = mkInstance f opts (finalMutation st r) (subscribers (inst w)) /\
    mutationCalls f (snd (mutate v w)) = c' /\
    now (menv (snd (mutate v w))) = t' /\
    fst (mutate v w) = snd (mutationCallbacks opts v (snd (onMutateEvents opts v)) r) /\
    mutationTraceBetween w (snd (mutate v w)) =
      fst (onMutateEvents opts v)
        ++ mdeliveries (loadingMutation st) (subscribers (inst w))
        ++ repeat (EvMutationFn (mfn_id f) v) (c' - mutationCalls f w)
        ++ mdeliveries (finalMutation st r) (subscribers (inst w))
        ++ fst (mutationCallbacks opts v (snd (onMutateEvents opts v)) r).
Proof.
  intros f opts st.
  destruct (attemptsFrom_cases (mfn_run f v) (retryDelay opts) (retry opts)
              (mutationCalls f w) (now (menv w))) as (r & c' & t' & Hatt & Hlt & _).
  exists r, c', t'. split; [exact Hatt|].
  rewrite (mutate_exact v w r c' t' Hatt). cbn [fst snd]. fold f opts st.
  split; [reflexivity|]. split; [|split; [reflexivity|split; [reflexivity|]]].
  - unfold mutationCalls, maddLog, matTime, withState. cbn [menv log].
    rewrite !mcalls_of_app, mcalls_of_onMutate, !mcalls_of_mdeliveries, mcalls_of_callbacks.
    assert (Hrep : forall n, mcalls_of (mfn_id f) (repeat (EvMutationFn (mfn_id f) v) n) = n).
    { induction n as [|n IH]; [reflexivity|]. cbn. rewrite Nat.eqb_refl, IH. reflexivity. }
    rewrite Hrep. unfold mutationCalls in Hlt. lia.
  - unfold mutationTraceBetween, maddLog, matTime, withState. cbn [menv log].
    apply drop_app_length.
Qed.

(** X22.  A mutation whose function settles, whose delay function
    returns and whose callbacks return or throw without calling the
    instance settles, however the function settles, whichever callbacks
    throw and whatever the state was before: afterwards [isLoading] and
    [isIdle] are false and the state is either the success state with the
    data of the last call of the mutation function ([error] null) or the
    error state with the error of the last call and [data] undefined.  The
    function was called at least once and at most [1 + retry] times, all
    [1 + retry] times when the mutation failed; the options, the function
    and the subscribers of the instance are the same. *)
Theorem mutate_always_settles (v : value) (w : MWorld) :
  let f := mutationFn (inst w) in
  let opts := finalOptions (inst w) in
  let w' := snd (mutate v w) in
  let m := mutationState (inst w') in
  isLoading m = false /\ isIdle m = false /\
  (mutationCalls f w < mutationCalls f w' <= mutationCalls f w + S (Z.to_nat (retry opts)))%nat /\
  ((exists d, mfn_run f v (mutationCalls f w' - 1) = Resolve d /\
              m = mkMutationState false false true false d VNull StSuccess) \/
   (exists e, mfn_run f v (mutationCalls f w' - 1) = Reject e /\
              mutationCalls f w' = (mutationCalls f w + S (Z.to_nat (retry opts)))%nat /\
              m = mkMutationState false false false true VUndefined e StError)) /\
  mutationFn (inst w') = f /\
  finalOptions (inst w') = opts /\
  subscribers (inst w') = subscribers (inst w).
Proof.
  cbv zeta.
  destruct (mutate_cases v w) as (r & c' & t' & Hatt & Hinst & Hcalls & _).
  cbv zeta in Hatt, Hinst, Hcalls. rewrite Hcalls, Hinst. cbn [mutationState mutationFn
    finalOptions subscribers].
  destruct (attemptsFrom_cases (mfn_run (mutationFn (inst w)) v)
              (retryDelay (finalOptions (inst w))) (retry (finalOptions (inst w)))
              (mutationCalls (mutationFn (inst w)) w) (now (menv w)))
    as (r0 & c0 & t0 & Hatt0 & Hlt & _ & Hcase).
  rewrite Hatt in Hatt0. injection Hatt0 as <- <- <-.
  destruct Hcase as [(e & -> & -> & _ & Hlast)|(j & d & -> & Hj & -> & _ & Hres & _)].
  - split; [reflexivity|]. split; [reflexivity|]. split; [lia|]. split.
    + right. exists e. split; [|split; [reflexivity|reflexivity]].
      replace (_ + S _ - 1)%nat with
        (mutationCalls (mutationFn (inst w)) w + Z.to_nat (retry (finalOptions (inst w))))%nat
        by lia.
      exact Hlast.
    + repeat split.
  - split; [reflexivity|]. split; [reflexivity|]. split; [lia|]. split.
    + left. exists d. split; [|reflexivity].
      replace (_ + S j - 1)%nat with (mutationCalls (mutationFn (inst w)) w + j)%nat by lia.
      exact Hres.
    + repeat split.
Qed.

Lemma mutationNotificationsTo_app id l1 l2 :
  mutationNotificationsTo id (l1 ++ l2)
    = mutationNotificationsTo id l1 ++ mutationNotificationsTo id l2.
Proof.
  induction l1 as [|ev l1 IH]; [reflexivity|].
  destruct ev; cbn; try exact IH.
  destruct (Nat.eqb id obs); cbn; rewrite IH; reflexivity.
Qed.

Lemma mutationNotificationsTo_mdeliveryOf id st c :
  mutationNotificationsTo id (mdeliveryOf st c)
    = if Nat.eqb id (mobs_id c) then [st] else [].
Proof.
  unfold mdeliveryOf. cbn. destruct (Nat.eqb id (mobs_id c)), (mobs_run c st); reflexivity.
Qed.

Lemma mdeliveries_cons st c subs :
  mdeliveries st (c :: subs) = mdeliveryOf st c ++ mdeliveries st subs.
Proof. reflexivity. Qed.

Lemma mutationNotificationsTo_absent id st (subs : list MObserver) :
  id ∉ map mobs_id subs -> mutationNotificationsTo id (mdeliveries st subs) = [].
Proof.
  induction subs as [|c subs IH]; intros Hid; [reflexivity|].
  rewrite mdeliveries_cons, mutationNotificationsTo_app, mutationNotificationsTo_mdeliveryOf.
  cbn in Hid. rewrite not_elem_of_cons in Hid. destruct Hid as [Hne Hid].
  apply Nat.eqb_neq in Hne. rewrite Hne, (IH Hid). reflexivity.
Qed.

Lemma mutationNotificationsTo_member (c : MObserver) st (subs : list MObserver) :
  NoDup (map mobs_id subs) ->
  existsb (fun c' => Nat.eqb (mobs_id c) (mobs_id c')) subs = true ->
  mutationNotificationsTo (mobs_id c) (mdeliveries st subs) = [st].
Proof.
  induction subs as [|c' subs IH]; intros Hnd Hin; [discriminate Hin|].
  cbn in Hnd. apply NoDup_cons in Hnd. destruct Hnd as [Hc' Hnd].
  rewrite mdeliveries_cons, mutationNotificationsTo_app, mutationNotificationsTo_mdeliveryOf.
  cbn in Hin. destruct (Nat.eqb (mobs_id c) (mobs_id c')) eqn:E.
  - apply Nat.eqb_eq in E. rewrite E.
    rewrite (mutationNotificationsTo_absent _ st subs Hc'). reflexivity.
  - cbn in Hin. rewrite (IH Hnd Hin). reflexivity.
Qed.

Lemma mutationNotificationsTo_repeat id fid v n :
  mutationNotificationsTo id (repeat (EvMutationFn fid v) n) = [].
Proof. induction n as [|n IH]; [reflexivity | exact IH]. Qed.

Lemma mutationNotificationsTo_onMutate id opts v :
  mutationNotificationsTo id (fst (onMutateEvents opts v)) = [].
Proof.
  unfold onMutateEvents. destruct (onMutate opts) as [f|]; [|reflexivity].
  destruct (f v); reflexivity.
Qed.

Lemma mutationNotificationsTo_callbacks id opts v ctx r :
  mutationNotificationsTo id (fst (mutationCallbacks opts v ctx r)) = [].
Proof.
  assert (Hs : mutationNotificationsTo id (fst (mutationSettled opts v ctx r)) = []).
  { unfold mutationSettled. destruct (onSettled opts); reflexivity. }
  unfold mutationCallbacks. destruct r as [d|e].
  - destruct (onSuccess opts) as [f|]; [|exact Hs].
    destruct (f d v ctx); [cbn; exact Hs | reflexivity].
  - destruct (onError opts) as [f|]; [|exact Hs].
    destruct (truthy e); [|exact Hs].
    destruct (f e v ctx); [cbn; exact Hs | reflexivity].
Qed.

Lemma existsb_elem_of_ids (c : MObserver) (subs : list MObserver) :
  existsb (fun c' => Nat.eqb (mobs_id c) (mobs_id c')) subs = true
  <-> mobs_id c ∈ map mobs_id subs.
Proof.
  induction subs as [|c' subs IH]; cbn.
  - split; [discriminate | intros H; inversion H].
  - rewrite orb_true_iff, IH, elem_of_cons, Nat.eqb_eq. reflexivity.
Qed.

(** X23.  During [mutate] every subscriber of the mutation is told
    exactly twice: first the loading state, which has [isLoading] true,
    [isIdle] false and status ['loading'] but still the [data], [error],
    [isSuccess] and [isError] of the run before, then the state the
    mutation ends in.  Nobody else is told. *)
Theorem mutate_notifies_twice (v : value) (w : MWorld) :
  NoDup (map mobs_id (subscribers (inst w))) ->
  let st := mutationState (inst w) in
  let w' := snd (mutate v w) in
  let loading :=
    mkMutationState false true (isSuccess st) (isError st) (data st) (error st) StLoading in
  (forall c, msubscribed c w = true ->
     mutationNotificationsTo (mobs_id c) (mutationTraceBetween w w')
       = [loading; mutationState (inst w')]) /\
  (forall id, id ∉ map mobs_id (subscribers (inst w)) ->
     mutationNotificationsTo id (mutationTraceBetween w w') = []).
Proof.
  intros Hnd. cbv zeta.
  destruct (mutate_cases v w) as (r & c' & t' & _ & Hinst & _ & _ & _ & Htrace).
  cbv zeta in Hinst, Htrace. rewrite Htrace, Hinst. cbn [mutationState].
  split.
  - intros c Hsub. unfold msubscribed in Hsub.
    rewrite !mutationNotificationsTo_app, mutationNotificationsTo_onMutate,
      mutationNotificationsTo_repeat, mutationNotificationsTo_callbacks,
      !(mutationNotificationsTo_member c _ _ Hnd Hsub).
    reflexivity.
  - intros id Hid.
    rewrite !mutationNotificationsTo_app, mutationNotificationsTo_onMutate,
      mutationNotificationsTo_repeat, mutationNotificationsTo_callbacks,
      !(mutationNotificationsTo_absent id _ _ Hid).
    reflexivity.
Qed.

Lemma mutate_notifies_twice_witness :
  let w := snd (mutate (VStr "v") (observedMutation echoMutation noOptions)) in
  mutationNotificationsTo 2 (mutationTraceBetween w (snd (mutate (VStr "w") w)))
    = [mkMutationState false true true false (VStr "v") VNull StLoading;
       mkMutationState false false true false (VStr "w") VNull StSuccess].
Proof.
  intros w.
  assert (Hnd : NoDup (map mobs_id (subscribers (inst w)))).
  { vm_compute.
    repeat (constructor;
            [try (rewrite ?elem_of_cons, ?elem_of_nil; intuition discriminate)|]);
    constructor. }
  destruct (mutate_notifies_twice (VStr "w") w Hnd) as (Hall & _).
  assert (Hsub : msubscribed (mkMObserver 2 (fun _ => Throw (VStr "oops"))) w = true)
    by (vm_compute; reflexivity).
  etransitivity; [exact (Hall _ Hsub) | vm_compute; reflexivity].
Defined.

Lemma not_callback_mdeliveries st subs :
  Forall (fun ev => isCallback ev = false) (mdeliveries st subs).
Proof.
  induction subs as [|c subs IH]; [constructor|].
  rewrite mdeliveries_cons. apply Forall_app. split; [|exact IH].
  unfold mdeliveryOf. destruct (mobs_run c st); repeat constructor.
Qed.

Lemma not_callback_onMutate opts v :
  Forall (fun ev => isCallback ev = false) (fst (onMutateEvents opts v)).
Proof.
  unfold onMutateEvents. destruct (onMutate opts) as [f|]; [|constructor].
  destruct (f v); repeat constructor.
Qed.

Lemma not_callback_repeat fid v n :
  Forall (fun ev => isCallback ev = false) (repeat (EvMutationFn fid v) n).
Proof. induction n as [|n IH]; [constructor | constructor; [reflexivity | exact IH]]. Qed.

(** X24.  With [onSuccess], [onError] and [onSettled] configured and
    returning, [mutate] calls them last, after every notification:
    [onSuccess(data)] then [onSettled(data, null)] when the mutation
    succeeded; [onError(error)] then [onSettled(undefined, error)] when it
    failed with a truthy error; [onSettled(undefined, null)] alone when it
    failed with a falsy one.  The promise resolves with the data only when
    the data is truthy and is rejected with the error otherwise. *)
Theorem mutate_callbacks_last (v : value) (w : MWorld)
    (fs fe : value -> value -> value -> completion)
    (fd : value -> value -> value -> value -> completion) :
  let opts := finalOptions (inst w) in
  onSuccess opts = Some fs ->
  onError opts = Some fe ->
  onSettled opts = Some fd ->
  mutationCallbacksReturn opts ->
  let w' := snd (mutate v w) in
  let m := mutationState (inst w') in
  exists pre last,
    mutationTraceBetween w w' = pre ++ last /\
    Forall (fun ev => isCallback ev = false) pre /\
    (isSuccess m = true ->
       last = [EvOnSuccess (data m); EvOnSettled (data m) VNull] /\
       fst (mutate v w) = if truthy (data m) then Resolved (data m) else Rejected VUndefined) /\
    (isError m = true ->
       last = (if truthy (error m) then [EvOnError (error m)] else [])
              ++ [EvOnSettled VUndefined (js_or (error m) VNull)] /\
       fst (mutate v w) = Rejected (error m)).
Proof.
  intros opts Hs He Hd (HS & HE & HD). cbv zeta.
  destruct (mutate_cases v w) as (r & c' & t' & _ & Hinst & _ & _ & Hres & Htrace).
  cbv zeta in Hinst, Hres, Htrace. fold opts in Hres, Htrace.
  rewrite Htrace, Hinst, Hres. cbn [mutationState].
  match goal with
  | |- context [?a ++ ?b ++ ?c ++ ?d ++ ?e] => exists (a ++ b ++ c ++ d), e
  end.
  split; [rewrite <- !app_assoc; reflexivity|].
  split.
  { apply Forall_app. split; [apply not_callback_onMutate|].
    apply Forall_app. split; [apply not_callback_mdeliveries|].
    apply Forall_app. split; [apply not_callback_repeat | apply not_callback_mdeliveries]. }
  unfold mutationCallbacks, mutationSettled. rewrite Hs, He, Hd.
  destruct r as [d|e]; cbn [finalMutation loadingMutation assign updatesOf successUpdates
    errorUpdates loadingUpdates u_isSuccess u_isError u_data u_error isSuccess isError data
    error default from_option Datatypes.id].
  - rewrite (HS _ Hs), (HD _ Hd). cbn [fst snd returned].
    split; [intros _; split; reflexivity | discriminate].
  - split; [discriminate|]. intros _.
    destruct (truthy e) eqn:Et; rewrite ?(HE _ He), (HD _ Hd); cbn [fst snd returned app];
      split; reflexivity.
Qed.

Lemma mutate_callbacks_last_witness :
  let w := observedMutation voidMutation
             (mutationCallbackOptions (fun _ => Resolve (VStr "ctx")) 1) in
  exists pre,
    mutationTraceBetween w (snd (mutate (VStr "v") w))
      = pre ++ [EvOnSettled VUndefined VNull] /\
    Forall (fun ev => isCallback ev = false) pre.
Proof.
  intros w.
  destruct (mutate_callbacks_last (VStr "v") w (fun _ _ _ => Normal) (fun _ _ _ => Normal)
              (fun _ _ _ _ => Normal) eq_refl eq_refl eq_refl)
    as (pre & last & Htrace & Hpre & _ & Herr).
  - repeat split; intros f [= <-]; reflexivity.
  - assert (Hm : isError (mutationState (inst (snd (mutate (VStr "v") w)))) = true)
      by (vm_compute; reflexivity).
    destruct (Herr Hm) as [Hlast _]. exists pre. rewrite Htrace, Hlast.
    split; [f_equal; vm_compute; reflexivity | exact Hpre].
Defined.

Lemma mutationCallbacks_return opts v ctx r :
  mutationCallbacksReturn opts -> snd (mutationCallbacks opts v ctx r) = returned r.
Proof.
  intros (HS & HE & HD).
  assert (Hs : snd (mutationSettled opts v ctx r) = returned r).
  { unfold mutationSettled. destruct (onSettled opts) as [f|] eqn:E; [|reflexivity].
    cbn [snd]. rewrite (HD _ eq_refl). reflexivity. }
  unfold mutationCallbacks. destruct r as [d|e].
  - destruct (onSuccess opts) as [f|] eqn:E; [|exact Hs].
    rewrite (HS _ eq_refl). exact Hs.
  - destruct (onError opts) as [f|] eqn:E; [|exact Hs].
    destruct (truthy e); [|exact Hs].
    rewrite (HE _ eq_refl). exact Hs.
Qed.

Lemma notOnMutate_mdeliveries st subs : Forall notOnMutate (mdeliveries st subs).
Proof.
  induction subs as [|c subs IH]; [constructor|].
  rewrite mdeliveries_cons. apply Forall_app. split; [|exact IH].
  unfold mdeliveryOf. destruct (mobs_run c st); repeat constructor.
Qed.

Lemma notOnMutate_callbacks opts v ctx r :
  Forall notOnMutate (fst (mutationCallbacks opts v ctx r)).
Proof.
  assert (Hs : Forall notOnMutate (fst (mutationSettled opts v ctx r))).
  { unfold mutationSettled. destruct (onSettled opts); repeat constructor. }
  unfold mutationCallbacks. destruct r as [d|e].
  - destruct (onSuccess opts) as [f|]; [|exact Hs].
    destruct (f d v ctx); [constructor; [exact I | exact Hs] | repeat constructor].
  - destruct (onError opts) as [f|]; [|exact Hs].
    destruct (truthy e); [|exact Hs].
    destruct (f e v ctx); [constructor; [exact I | exact Hs] | repeat constructor].
Qed.

Lemma notOnMutate_repeat fid v n : Forall notOnMutate (repeat (EvMutationFn fid v) n).
Proof. induction n as [|n IH]; [constructor | constructor; [exact I | exact IH]]. Qed.

(** X25.  [onMutate] is called once, first, with the variables, before
    the loading state is shown.  When it rejects, the error goes to
    [console.error] and the mutation goes on as if there were no context:
    the mutation function still runs, the state settles, and (callbacks
    returning) the promise is what the outcome of the mutation function
    makes it. *)
Theorem mutate_survives_onMutate (v : value) (w : MWorld) (fm : value -> outcome)
    (e : value) :
  let opts := finalOptions (inst w) in
  let f := mutationFn (inst w) in
  onMutate opts = Some fm ->
  fm v = Reject e ->
  mutationCallbacksReturn opts ->
  let w' := snd (mutate v w) in
  let m := mutationState (inst w') in
  (exists rest,
     mutationTraceBetween w w' = EvOnMutate v :: EvConsoleError e :: rest /\
     Forall notOnMutate rest) /\
  (mutationCalls f w < mutationCalls f w')%nat /\
  isLoading m = false /\
  fst (mutate v w) =
    (if isSuccess m
     then if truthy (data m) then Resolved (data m) else Rejected VUndefined
     else Rejected (error m)).
Proof.
  intros opts f Hm Hrej Hret. cbv zeta.
  destruct (mutate_cases v w) as (r & c' & t' & Hatt & Hinst & Hcalls & _ & Hres & Htrace).
  cbv zeta in Hatt, Hinst, Hcalls, Hres, Htrace. fold opts f in Hatt, Hinst, Hcalls, Hres, Htrace.
  destruct (attemptsFrom_cases (mfn_run f v) (retryDelay opts) (retry opts)
              (mutationCalls f w) (now (menv w))) as (r0 & c0 & t0 & Hatt0 & Hlt & _).
  rewrite Hatt in Hatt0. injection Hatt0 as <- <- <-.
  rewrite Htrace, Hinst, Hres, Hcalls, (mutationCallbacks_return _ _ _ _ Hret).
  cbn [mutationState]. unfold onMutateEvents. rewrite Hm, Hrej. cbn [fst snd app].
  split; [|split; [exact Hlt|split]].
  - eexists. split; [reflexivity|].
    apply Forall_app. split; [apply notOnMutate_mdeliveries|].
    apply Forall_app. split; [apply notOnMutate_repeat|].
    apply Forall_app. split; [apply notOnMutate_mdeliveries | apply notOnMutate_callbacks].
  - destruct r; reflexivity.
  - destruct r; reflexivity.
Qed.

Lemma mutate_survives_onMutate_witness :
  let w := observedMutation echoMutation
             (mutationCallbackOptions (fun _ => Reject (VStr "no")) 0) in
  fst (mutate (VStr "v") w) = Resolved (VStr "v") /\
  exists rest,
    mutationTraceBetween w (snd (mutate (VStr "v") w))
      = EvOnMutate (VStr "v") :: EvConsoleError (VStr "no") :: rest.
Proof.
  intros w.
  destruct (mutate_survives_onMutate (VStr "v") w (fun _ => Reject (VStr "no")) (VStr "no")
              eq_refl eq_refl) as ((rest & Htrace & _) & _ & _ & Hres).
  - repeat split; intros f [= <-]; reflexivity.
  - split; [|exists rest; exact Htrace].
    etransitivity; [exact Hres | vm_compute; reflexivity].
Defined.

Lemma reset_exact w :
  reset w = (tt, maddLog (mdeliveries idleMutation (subscribers (inst w)))
                   (withState idleMutation w)).
Proof. unfold reset. rewrite setState_exact. reflexivity. Qed.

(** X26.  [reset] puts the state object back to the state the instance
    was created with, whatever it was, and tells every subscriber once;
    the mutation function is not called and the function, the options and
    the subscribers stay. *)
Theorem reset_restores_idle (w : MWorld) :
  NoDup (map mobs_id (subscribers (inst w))) ->
  let w' := snd (reset w) in
  mutationState (inst w') = idleMutation /\
  mutationState (inst w') = mutationState (useMutation (mutationFn (inst w)) noOptions) /\
  (forall c, msubscribed c w = true ->
     mutationNotificationsTo (mobs_id c) (mutationTraceBetween w w') = [idleMutation]) /\
  (forall id, id ∉ map mobs_id (subscribers (inst w)) ->
     mutationNotificationsTo id (mutationTraceBetween w w') = []) /\
  (forall fid, mcalls_of fid (mutationTraceBetween w w') = 0%nat) /\
  mutationFn (inst w') = mutationFn (inst w) /\
  finalOptions (inst w') = finalOptions (inst w) /\
  subscribers (inst w') = subscribers (inst w) /\
  now (menv w') = now (menv w).
Proof.
  intros Hnd. cbv zeta. rewrite reset_exact. cbn [snd].
  assert (Htrace : mutationTraceBetween w
            (maddLog (mdeliveries idleMutation (subscribers (inst w)))
               (withState idleMutation w))
          = mdeliveries idleMutation (subscribers (inst w))).
  { unfold mutationTraceBetween, maddLog, withState. cbn [menv log]. apply drop_app_length. }
  rewrite Htrace.
  split; [reflexivity|]. split; [reflexivity|]. split; [|split; [|split]].
  - intros c Hsub. apply (mutationNotificationsTo_member c _ _ Hnd Hsub).
  - intros id Hid. apply mutationNotificationsTo_absent, Hid.
  - intros fid. apply mcalls_of_mdeliveries.
  - repeat split; reflexivity.
Qed.

Lemma reset_restores_idle_witness :
  let w := snd (mutate (VStr "v") (observedMutation echoMutation noOptions)) in
  data (mutationState (inst w)) = VStr "v" /\
  mutationState (inst (snd (reset w))) = idleMutation /\
  mutationNotificationsTo 1 (mutationTraceBetween w (snd (reset w))) = [idleMutation].
Proof.
  intros w.
  assert (Hnd : NoDup (map mobs_id (subscribers (inst w)))).
  { vm_compute.
    repeat (constructor;
            [try (rewrite ?elem_of_cons, ?elem_of_nil; intuition discriminate)|]);
    constructor. }
  destruct (reset_restores_idle w Hnd) as (Hst & _ & Hall & _).
  split; [vm_compute; reflexivity|]. split; [exact Hst|].
  assert (Hsub : msubscribed (mkMObserver 1 (fun _ => Normal)) w = true)
    by (vm_compute; reflexivity).
  exact (Hall _ Hsub).
Defined.

Lemma msubscribe_exact c w :
  subscribe c w =
    (mobs_run c (mutationState (inst w)),
     maddLog [EvMutationNotify (mobs_id c) (mutationState (inst w))]
       (withObservers (if msubscribed c w then subscribers (inst w)
                       else subscribers (inst w) ++ [c]) w)).
Proof. reflexivity. Qed.

Lemma existsb_ids_app (c : MObserver) s1 s2 :
  existsb (fun c' => Nat.eqb (mobs_id c) (mobs_id c')) (s1 ++ s2)
    = existsb (fun c' => Nat.eqb (mobs_id c) (mobs_id c')) s1
      || existsb (fun c' => Nat.eqb (mobs_id c) (mobs_id c')) s2.
Proof. apply existsb_app. Qed.

Lemma existsb_ids_delete_same (c : MObserver) (s : list MObserver) :
  existsb (fun c' => Nat.eqb (mobs_id c) (mobs_id c'))
    (filter (fun c' => negb (Nat.eqb (mobs_id c) (mobs_id c'))) s) = false.
Proof.
  induction s as [|c0 s IH]; [reflexivity|].
  rewrite filter_bool_step. destruct (Nat.eqb (mobs_id c) (mobs_id c0)) eqn:E; cbn [negb].
  - exact IH.
  - cbn [existsb]. rewrite E, IH. reflexivity.
Qed.

Lemma existsb_ids_delete_other (c c' : MObserver) (s : list MObserver) :
  mobs_id c' <> mobs_id c ->
  existsb (fun c0 => Nat.eqb (mobs_id c') (mobs_id c0))
    (filter (fun c0 => negb (Nat.eqb (mobs_id c) (mobs_id c0))) s)
  = existsb (fun c0 => Nat.eqb (mobs_id c') (mobs_id c0)) s.
Proof.
  intros Hne. induction s as [|c0 s IH]; [reflexivity|].
  rewrite filter_bool_step. cbn [existsb].
  destruct (Nat.eqb (mobs_id c) (mobs_id c0)) eqn:E; cbn [negb].
  - apply Nat.eqb_eq in E. rewrite <- E. apply Nat.eqb_neq in Hne. rewrite Hne. exact IH.
  - cbn [existsb]. rewrite IH. reflexivity.
Qed.

Lemma filter_ids_absent (c : MObserver) (s : list MObserver) :
  existsb (fun c' => Nat.eqb (mobs_id c) (mobs_id c')) s = false ->
  filter (fun c' => negb (Nat.eqb (mobs_id c) (mobs_id c'))) s = s.
Proof.
  induction s as [|c0 s IH]; [reflexivity|].
  cbn [existsb]. intros H. apply orb_false_iff in H. destruct H as [H1 H2].
  rewrite filter_bool_step, H1. cbn [negb]. rewrite (IH H2). reflexivity.
Qed.

Lemma filter_ids_app (c : MObserver) (s1 s2 : list MObserver) :
  filter (fun c' => negb (Nat.eqb (mobs_id c) (mobs_id c'))) (s1 ++ s2)
  = filter (fun c' => negb (Nat.eqb (mobs_id c) (mobs_id c'))) s1
    ++ filter (fun c' => negb (Nat.eqb (mobs_id c) (mobs_id c'))) s2.
Proof.
  induction s1 as [|c0 s1 IH]; [reflexivity|].
  rewrite <- app_comm_cons, !filter_bool_step, IH.
  destruct (negb (Nat.eqb (mobs_id c) (mobs_id c0))); reflexivity.
Qed.

(** X27.  Subscribing to a mutation calls the new callback once, at
    once, with the current state, and adds it to the subscribers also when
    it throws; the other subscribers and the state stay.  The unsubscribe
    function removes the callback and nobody else, silently; subscribing a
    callback that was not subscribed and unsubscribing it gives back the
    instance as it was. *)
Theorem mutation_subscribe_unsubscribe (c : MObserver) (w : MWorld) :
  let st := mutationState (inst w) in
  let w1 := snd (subscribe c w) in
  let w2 := snd (unsubscribe c w1) in
  fst (subscribe c w) = mobs_run c st /\
  mutationTraceBetween w w1 = [EvMutationNotify (mobs_id c) st] /\
  msubscribed c w1 = true /\
  (forall c', mobs_id c' <> mobs_id c -> msubscribed c' w1 = msubscribed c' w) /\
  (msubscribed c w = true -> inst w1 = inst w) /\
  mutationState (inst w1) = st /\
  msubscribed c w2 = false /\
  (forall c', mobs_id c' <> mobs_id c -> msubscribed c' w2 = msubscribed c' w) /\
  menv w2 = menv w1 /\
  mutationState (inst w2) = st /\
  (msubscribed c w = false -> inst w2 = inst w).
Proof.
  cbv zeta. rewrite msubscribe_exact. cbn [fst snd].
  split; [reflexivity|]. split.
  { unfold mutationTraceBetween, maddLog, withObservers. cbn [menv log].
    apply drop_app_length. }
  unfold msubscribed, unsubscribe, maddLog, withObservers.
  cbn [snd inst menv subscribers mutationState mutationFn finalOptions].
  split; [|split; [|split; [|split; [|split; [|split; [|split; [|split]]]]]]].
  - destruct (existsb _ (subscribers (inst w))) eqn:E; [exact E|].
    rewrite existsb_ids_app, E. cbn. rewrite Nat.eqb_refl. reflexivity.
  - intros c' Hne. destruct (existsb (fun c0 => Nat.eqb (mobs_id c) (mobs_id c0)) _);
      [reflexivity|].
    rewrite existsb_ids_app. cbn. apply Nat.eqb_neq in Hne. rewrite Hne.
    rewrite !orb_false_r. reflexivity.
  - intros E. rewrite E. destruct (inst w); reflexivity.
  - reflexivity.
  - apply existsb_ids_delete_same.
  - intros c' Hne. rewrite (existsb_ids_delete_other c c' _ Hne).
    destruct (existsb (fun c0 => Nat.eqb (mobs_id c) (mobs_id c0)) _);
      [reflexivity|].
    rewrite existsb_ids_app. cbn. apply Nat.eqb_neq in Hne. rewrite Hne.
    rewrite !orb_false_r. reflexivity.
  - reflexivity.
  - reflexivity.
  - intros E. rewrite E, filter_ids_app, (filter_ids_absent c _ E), filter_bool_step.
    rewrite Nat.eqb_refl. cbn [negb]. rewrite app_nil_r. destruct (inst w); reflexivity.
Qed.
End MutationTraces.

(** * Prefetching and invalidating *)

Lemma fetchQuery_calls k cfg st w r c' t' :
  queryConfigs (vq w) !! k = Some cfg ->
  queryStates (vq w) !! k = Some st ->
  attemptsFrom (fn_run (queryFn cfg)) (retryDelay (options cfg))
    (maxRetries (retry (options cfg))) (callsIn (queryFn cfg) w) (now (env w))
    = (r, (c', t')) ->
  callsIn (queryFn cfg) (snd (fetchQuery k w)) = c'.
Proof.
  intros Hcfg Hst Hatt.
  destruct (attemptsFrom_cases (fn_run (queryFn cfg)) (retryDelay (options cfg))
              (maxRetries (retry (options cfg))) (callsIn (queryFn cfg) w) (now (env w)))
    as (r0 & c0 & t0 & Hatt0 & Hlt & _).
  rewrite Hatt in Hatt0. injection Hatt0 as <- <- <-.
  rewrite (fetchQuery_exact k cfg st w r c' t' Hcfg Hst Hatt). cbn [snd].
  unfold callsIn, addLog, atTime, withVq. cbn [env log].
  rewrite !calls_of_app, !calls_of_deliveries, calls_of_repeat, Nat.eqb_refl,
    calls_of_callbacks.
  unfold callsIn in Hlt. lia.
Qed.

(** X28.  [prefetchQuery] of a key that has a state replaces its config
    and fetches at once with the new producer and options, whether or not
    the options enable the query: the producer runs at least once and at
    most [1 + maxRetries] times before the method returns, and if its
    first call resolves the data is cached.  Unlike [useQuery] it leaves
    nothing with the host: no timeout, no focus listener, no interval. *)
Theorem prefetchQuery_fetches_now (k : string) (fn : QueryFn) (opts : QueryOptions)
    (st : QueryState) (w : World) :
  queryStates (vq w) !! k = Some st ->
  let o := mergeOptions defaultOptions opts in
  let w' := snd (prefetchQuery k fn opts w) in
  queryConfigs (vq w') !! k = Some (mkQueryConfig fn o) /\
  (callsIn fn w < callsIn fn w' <= callsIn fn w + S (Z.to_nat (maxRetries (retry o))))%nat /\
  (forall d, fn_run fn (callsIn fn w) = Resolve d ->
     callsIn fn w' = S (callsIn fn w) /\
     getQueryData k (vq w') = d /\
     getQueryState k (vq w') = successState d (now (env w))) /\
  timeouts (env w') = timeouts (env w) /\
  focusListeners (env w') = focusListeners (env w) /\
  activeIntervals (env w') = activeIntervals (env w) /\
  intervals (vq w') = intervals (vq w).
Proof.
  intros Hst. cbv zeta. unfold prefetchQuery. rewrite bind_snd. cbn [modifyVq fst snd].
  set (o := mergeOptions defaultOptions opts).
  set (w0 := mkWorld _ (env w)).
  assert (Hcfg : queryConfigs (vq w0) !! k = Some (mkQueryConfig fn o)).
  { unfold w0. cbn [vq queryConfigs set_queryConfigs]. apply lookup_insert_eq. }
  assert (Hst0 : queryStates (vq w0) !! k = Some st) by exact Hst.
  assert (Hcalls : callsIn fn w0 = callsIn fn w) by reflexivity.
  destruct (attemptsFrom_cases (fn_run fn) (retryDelay o) (maxRetries (retry o))
              (callsIn fn w0) (now (env w0)))
    as (r & c' & t' & Hatt & Hlt & _ & Hcase).
  pose proof (fetchQuery_calls k _ st w0 r c' t' Hcfg Hst0 Hatt) as Hc'.
  cbn [queryFn] in Hc'.
  rewrite (fetchQuery_exact k _ st w0 r c' t' Hcfg Hst0 Hatt) in *. cbn [snd] in *.
  split; [|split; [|split]].
  - unfold addLog, atTime, withVq, finalVq. cbn [vq queryConfigs set_queryStates].
    destruct r; exact Hcfg.
  - rewrite Hc', <- Hcalls.
    destruct Hcase as [(e & _ & -> & _)|(j & d & _ & Hj & -> & _)]; lia.
  - intros d Hres. rewrite <- Hcalls in Hres.
    pose proof (attemptsFrom_resolved (fn_run fn) (retryDelay o) (maxRetries (retry o))
                  (callsIn fn w0) (now (env w0)) 0 d) as H0.
    rewrite Nat.add_0_r in H0. rewrite H0 in Hatt; [|lia|intros i Hi; lia|exact Hres].
    injection Hatt as <- <- <-.
    split; [rewrite Hc', <- Hcalls; lia|].
    unfold getQueryData, getQueryState, addLog, atTime, withVq, finalVq.
    cbn [vq cache queryStates set_queryStates set_cache finalState].
    rewrite !lookup_insert_eq. cbn [entry_data default from_option Datatypes.id].
    unfold waits. cbn [waitsFrom]. rewrite Z.add_0_r. split; reflexivity.
  - unfold addLog, atTime, withVq, finalVq. cbn. destruct r; repeat split; reflexivity.
Qed.

Lemma prefetchQuery_fetches_now_witness :
  let w := snd (fetchQuery "a" (snd (useQuery "a" failFn (retryOptions (RetryNum 0)) newWorld))) in
  isError (getQueryState "a" (vq w)) = true /\
  getQueryData "a" (vq (snd (prefetchQuery "a" (okFn (VStr "X")) noOptions w))) = VStr "X" /\
  timeouts (env (snd (prefetchQuery "a" (okFn (VStr "X")) noOptions w))) = timeouts (env w).
Proof.
  intros w.
  destruct (prefetchQuery_fetches_now "a" (okFn (VStr "X")) noOptions
              (errorState (fetchingState initialState) (VStr "Fetch failed") 0) w)
    as (_ & _ & Hres & Ht & _).
  - vm_compute. reflexivity.
  - destruct (Hres (VStr "X") eq_refl) as (_ & Hd & _).
    split; [vm_compute; reflexivity|]. split; [exact Hd | exact Ht].
Defined.

(** X29.  [invalidateQuery] is [fetchQuery] after forgetting the cached
    value: it returns the same, logs the same and leaves the same states,
    configs, subscribers and host as a plain fetch would.  Only the cache
    entry of the key can differ: it is the fresh one when the key is
    registered and the refetch succeeds, and it is gone otherwise (the
    refetch failed, or the key has no config or no state). *)
Theorem invalidateQuery_refetches (k : string) (w : World) :
  let a := invalidateQuery k w in
  let b := fetchQuery k w in
  fst a = fst b /\
  env (snd a) = env (snd b) /\
  queryStates (vq (snd a)) = queryStates (vq (snd b)) /\
  queryConfigs (vq (snd a)) = queryConfigs (vq (snd b)) /\
  subscribers (vq (snd a)) = subscribers (vq (snd b)) /\
  intervals (vq (snd a)) = intervals (vq (snd b)) /\
  (forall k', k' <> k -> cache (vq (snd a)) !! k' = cache (vq (snd b)) !! k') /\
  cache (vq (snd a)) !! k =
    match queryConfigs (vq w) !! k, queryStates (vq w) !! k with
    | Some _, Some _ =>
        if isSuccess (getQueryState k (vq (snd b))) then cache (vq (snd b)) !! k else None
    | _, _ => None
    end.
Proof.
  cbv zeta. unfold invalidateQuery. unfold bind at 1 2 3 4 5 6 7 8. cbn [modifyVq].
  set (w0 := mkWorld _ (env w)).
  assert (Hother : forall k', k' <> k -> cache (vq w0) !! k' = cache (vq w) !! k').
  { intros k' Hne. unfold w0. cbn [vq cache set_cache].
    rewrite lookup_delete_ne by congruence. reflexivity. }
  assert (Hgone : cache (vq w0) !! k = None).
  { unfold w0. cbn [vq cache set_cache]. apply lookup_delete_eq. }
  destruct (queryConfigs (vq w) !! k) as [cfg|] eqn:Ec;
    [destruct (queryStates (vq w) !! k) as [st|] eqn:Es|].
  - destruct (fetchQuery_trace k cfg st w Ec Es) as (r & c' & t' & Hatt & _ & Heq).
    assert (Ec0 : queryConfigs (vq w0) !! k = Some cfg) by exact Ec.
    assert (Es0 : queryStates (vq w0) !! k = Some st) by exact Es.
    rewrite Heq, (fetchQuery_exact k cfg st w0 r c' t' Ec0 Es0 Hatt). cbn [fst snd].
    unfold getQueryState, addLog, atTime, withVq, finalVq, w0.
    cbn [vq env cache queryStates queryConfigs subscribers intervals set_queryStates
         now log hasWindow documentVisible timeouts focusListeners activeIntervals
         nextTimerId].
    rewrite lookup_insert_eq. cbn [default from_option Datatypes.id].
    destruct r as [d|e]; cbn [finalState isSuccess successState errorState set_cache cache
      queryStates queryConfigs subscribers intervals].
    + repeat split; try reflexivity.
      * intros k' Hne. rewrite !lookup_insert_ne by congruence.
        rewrite lookup_delete_ne by congruence. reflexivity.
      * rewrite !lookup_insert_eq. reflexivity.
    + repeat split; try reflexivity.
      * intros k' Hne. rewrite lookup_delete_ne by congruence. reflexivity.
      * apply lookup_delete_eq.
  - rewrite (fetchQuery_unregistered k w) by (right; exact Es).
    rewrite (fetchQuery_unregistered k w0) by (right; exact Es).
    cbn [fst snd]. repeat split; try reflexivity; assumption.
  - rewrite (fetchQuery_unregistered k w) by (left; exact Ec).
    rewrite (fetchQuery_unregistered k w0) by (left; exact Ec).
    cbn [fst snd]. repeat split; try reflexivity; assumption.
Qed.

(** * The Alpine store *)

Lemma syncAll_app s l1 l2 : syncAll s (l1 ++ l2) = syncAll (syncAll s l1) l2.
Proof. apply fold_left_app. Qed.

Lemma mirrors_syncStore s st : mirrors (syncStore s st) st.
Proof. repeat split. Qed.

Lemma mirrors_syncAll_last (l : list QueryState) st :
  l <> [] -> Forall (eq st) l -> forall s, mirrors (syncAll s l) st.
Proof.
  induction l as [|a l IH]; intros Hne Hall s; [contradiction|].
  apply Forall_cons in Hall. destruct Hall as [<- Hall]. cbn [syncAll fold_left].
  destruct l as [|b l]; [apply mirrors_syncStore|].
  apply (IH ltac:(discriminate) Hall).
Qed.

Lemma notificationsTo_deliveries_all key cb k' st (subs : list Observer) :
  Forall (eq st) (notificationsTo key cb (deliveries k' st subs)).
Proof.
  unfold deliveries. induction subs as [|c subs IH]; [constructor|].
  rewrite flat_map_step, notificationsTo_app. apply Forall_app. split; [|exact IH].
  unfold deliveryOf. cbn [notificationsTo].
  destruct (String.eqb key k' && Nat.eqb cb (obs_id c)), (obs_run c st); repeat constructor.
Qed.

Lemma notificationsTo_deliveries_some key (c : Observer) st (subs : list Observer) :
  set_has c subs = true -> notificationsTo key (obs_id c) (deliveries key st subs) <> [].
Proof.
  unfold deliveries. induction subs as [|c' subs IH]; [discriminate|].
  rewrite set_has_step, flat_map_step, notificationsTo_app. intros Hin.
  destruct (Nat.eqb (obs_id c) (obs_id c')) eqn:E.
  - unfold deliveryOf. cbn [notificationsTo]. rewrite String.eqb_refl, E. cbn [andb].
    destruct (obs_run c' st); discriminate.
  - cbn [orb] in Hin. intros Happ. apply app_eq_nil in Happ. destruct Happ as [_ H2].
    exact (IH Hin H2).
Qed.

(** What a round of deliveries to the subscribers of [k'] does to the
    store of [key]. *)
Lemma sync_deliveries key cb k' st q s :
  subscribed key (storeObserver cb) q ->
  (k' = key -> mirrors (syncAll s (notificationsTo key cb (deliveries k' st (subsOf k' q)))) st)
  /\ (k' <> key -> syncAll s (notificationsTo key cb (deliveries k' st (subsOf k' q))) = s).
Proof.
  intros Hsub. split.
  - intros ->. apply mirrors_syncAll_last.
    + apply (notificationsTo_deliveries_some key (storeObserver cb) st).
      apply subscribed_subsOf, Hsub.
    + apply notificationsTo_deliveries_all.
  - intros Hne. rewrite notificationsTo_deliveries_other by congruence. reflexivity.
Qed.

Lemma inSync_same key cb w w' s :
  subscribers (vq w') = subscribers (vq w) ->
  queryStates (vq w') = queryStates (vq w) ->
  inSync key cb w s -> inSync key cb w' s.
Proof.
  intros Hs Hq [Hsub Hm]. split.
  - unfold subscribed in *. rewrite Hs. exact Hsub.
  - unfold getQueryState in *. rewrite Hq. exact Hm.
Qed.

Lemma syncStep_refl key cb w : syncStep key cb w w.
Proof. exists []. split; [rewrite app_nil_r; reflexivity | intros s H; exact H]. Qed.

Lemma syncStep_trans key cb w1 w2 w3 :
  syncStep key cb w1 w2 -> syncStep key cb w2 w3 -> syncStep key cb w1 w3.
Proof.
  intros (e1 & L1 & H1) (e2 & L2 & H2). exists (e1 ++ e2). split.
  - rewrite L2, L1, app_assoc. reflexivity.
  - intros s Hs. rewrite notificationsTo_app, syncAll_app. apply H2, H1, Hs.
Qed.

(** A step that logs nothing and keeps the subscribers and the states. *)
Lemma syncStep_silent key cb w w' :
  log (env w') = log (env w) ->
  subscribers (vq w') = subscribers (vq w) ->
  queryStates (vq w') = queryStates (vq w) ->
  syncStep key cb w w'.
Proof.
  intros Hl Hs Hq. exists []. split; [rewrite app_nil_r; exact Hl|].
  intros s H. apply (inSync_same key cb w w' s Hs Hq H).
Qed.

(** A step from a world that differs from [w] in what a store does not
    look at. *)
Lemma syncStep_from key cb w w0 w' :
  log (env w0) = log (env w) ->
  subscribers (vq w0) = subscribers (vq w) ->
  queryStates (vq w0) = queryStates (vq w) ->
  syncStep key cb w0 w' -> syncStep key cb w w'.
Proof.
  intros Hl Hs Hq H. apply (syncStep_trans key cb w w0 w'); [|exact H].
  apply syncStep_silent; assumption.
Qed.

(** Storing [st] for [k'] and telling the subscribers of [k']. *)
Lemma syncStep_store key cb k' st w q' :
  subscribers q' = subscribers (vq w) ->
  queryStates q' = <[k' := st]> (queryStates (vq w)) ->
  syncStep key cb w (addLog (deliveries k' st (subsOf k' (vq w))) (withVq q' w)).
Proof.
  intros Hs Hq. exists (deliveries k' st (subsOf k' (vq w))). split; [reflexivity|].
  intros s [Hsub Hm]. split.
  - unfold subscribed, addLog, withVq in *. cbn [vq]. rewrite Hs. exact Hsub.
  - unfold getQueryState, addLog, withVq. cbn [vq]. rewrite Hq.
    destruct (sync_deliveries key cb k' st (vq w) s Hsub) as [Heq Hother].
    destruct (String.eqb_spec k' key) as [->|Hne].
    + rewrite lookup_insert_eq. apply Heq. reflexivity.
    + rewrite lookup_insert_ne by congruence. rewrite (Hother Hne). exact Hm.
Qed.

Lemma syncStep_fetchQuery key cb k' w : syncStep key cb w (snd (fetchQuery k' w)).
Proof.
  destruct (queryConfigs (vq w) !! k') as [cfg|] eqn:Ec;
    [destruct (queryStates (vq w) !! k') as [st|] eqn:Es|].
  - destruct (fetchQuery_trace k' cfg st w Ec Es) as (r & c' & t' & _ & _ & Heq).
    rewrite Heq. cbn [snd]. eexists. split; [reflexivity|].
    intros s [Hsub Hm]. split.
    + unfold subscribed, addLog, atTime, withVq, finalVq in *. cbn [vq].
      destruct r; exact Hsub.
    + rewrite !notificationsTo_app, notificationsTo_calls, notificationsTo_callbacks.
      rewrite app_nil_r. cbn [app]. rewrite syncAll_app.
      unfold getQueryState, addLog, atTime, withVq, finalVq.
      cbn [vq queryStates set_queryStates].
      destruct (sync_deliveries key cb k' (fetchingState st) (vq w) s Hsub) as [_ Ho1].
      destruct (sync_deliveries key cb k' (finalState st r t') (vq w)
                  (syncAll s (notificationsTo key cb
                     (deliveries k' (fetchingState st) (subsOf k' (vq w))))) Hsub)
        as [He2 Ho2].
      destruct (String.eqb_spec k' key) as [->|Hne].
      * rewrite lookup_insert_eq. apply He2. reflexivity.
      * rewrite lookup_insert_ne by congruence. rewrite (Ho2 Hne), (Ho1 Hne). exact Hm.
  - rewrite fetchQuery_unregistered by (right; exact Es). apply syncStep_refl.
  - rewrite fetchQuery_unregistered by (left; exact Ec). apply syncStep_refl.
Qed.

Lemma syncStep_focus key cb (l : list (string * bool)) :
  forall w, syncStep key cb w
    (snd (forEach (fun l : string * bool =>
                     if snd l then run fetchQuery (fst l) in ret tt else ret tt) l w)).
Proof.
  induction l as [|a l IH]; intros w; [apply syncStep_refl|].
  cbn [forEach]. rewrite bind_snd.
  eapply syncStep_trans; [|apply IH].
  destruct (snd a); [|apply syncStep_refl].
  rewrite bind_snd. apply syncStep_fetchQuery.
Qed.


Lemma subscribed_withSubscriber key c k' c' q :
  subscribed key c q -> subscribed key c (withSubscriber k' c' q).
Proof.
  intros (subs & Hget & Hhas). unfold subscribed, withSubscriber.
  cbn [subscribers set_subscribers].
  destruct (String.eqb_spec key k') as [<-|Hne].
  - exists (set_add c' (subsOf key q)). rewrite omap_get_set_eq.
    split; [reflexivity|]. apply set_has_add_other. unfold subsOf. rewrite Hget. exact Hhas.
  - exists subs. rewrite (omap_get_set_ne k' key _ _ Hne). split; assumption.
Qed.

Lemma mirrors_initial s : mirrors s idleState -> mirrors s initialState.
Proof. intros H. exact H. Qed.

Lemma runOp_syncStep key cb o w :
  keepsSubscription key cb o -> syncStep key cb w (runOp o w).
Proof.
  intros Hok. destruct o; cbn [runOp keepsSubscription] in *.
  - (* useQuery *)
    destruct (useQuery_tables k fn opts w) as (_ & Hs & _ & Hsub & Hlog & _).
    exists []. split; [rewrite app_nil_r; exact Hlog|].
    intros s [Hin Hm]. split.
    + unfold subscribed in *. rewrite Hsub. exact Hin.
    + cbn [notificationsTo syncAll fold_left]. unfold getQueryState in *. rewrite Hs.
      destruct (queryStates (vq w) !! k) as [st|] eqn:E; [exact Hm|].
      destruct (String.eqb_spec key k) as [->|Hne].
      * rewrite lookup_insert_eq. rewrite E in Hm. apply mirrors_initial, Hm.
      * rewrite lookup_insert_ne by congruence. exact Hm.
  - (* prefetchQuery *)
    unfold prefetchQuery. rewrite bind_snd. cbn [modifyVq fst snd].
    eapply syncStep_from; [| | |apply syncStep_fetchQuery]; reflexivity.
  - apply syncStep_fetchQuery.
  - apply syncStep_fetchQuery.
  - (* invalidateQuery *)
    unfold invalidateQuery. rewrite bind_snd. cbn [modifyVq fst snd].
    eapply syncStep_from; [| | |apply syncStep_fetchQuery]; reflexivity.
  - (* cancelQuery *)
    rewrite cancelQuery_exact. cbn [snd].
    destruct (queryStates (vq w) !! k) as [st|]; [|apply syncStep_refl].
    destruct (isFetching st); [|apply syncStep_refl].
    apply syncStep_store; reflexivity.
  - (* subscribeToQuery *)
    rewrite subscribeToQuery_exact. cbn [snd]. eexists. split; [reflexivity|].
    intros s [Hin Hm]. split.
    + apply subscribed_withSubscriber, Hin.
    + cbn [notificationsTo].
      destruct (String.eqb key k && Nat.eqb cb (obs_id c)) eqn:E.
      * apply andb_true_iff in E. destruct E as [E _]. apply String.eqb_eq in E. subst k.
        cbn [syncAll fold_left]. apply mirrors_syncStore.
      * exact Hm.
  - (* unsubscribe *)
    rewrite unsubscribe_exact. cbn [snd]. exists []. split; [rewrite app_nil_r; reflexivity|].
    intros s [Hin Hm]. split;
      [|destruct (omap_get k (subscribers (vq w))); exact Hm].
    destruct (omap_get k (subscribers (vq w))) as [subs|] eqn:E; [|exact Hin].
    destruct Hin as (subs' & Hget & Hhas). unfold subscribed, withVq.
    cbn [vq subscribers set_subscribers].
    destruct (String.eqb_spec key k) as [->|Hne].
    + destruct Hok as [Hk|Hc]; [contradiction|].
      rewrite omap_get_set_eq. rewrite E in Hget. injection Hget as <-.
      exists (set_delete c subs). split; [reflexivity|].
      rewrite set_has_delete_other; [exact Hhas|]. cbn [storeObserver obs_id]. congruence.
    + exists subs'. rewrite (omap_get_set_ne k key _ _ Hne). split; assumption.
  - (* setQueryData *)
    rewrite setQueryData_exact. cbn [snd].
    apply (syncStep_store key cb k (successState d (now (env w))) w
             (vq (storeSuccess k d w))); reflexivity.
  - (* removeQueryData *)
    rewrite removeQueryData_exact. cbn [snd]. cbv zeta.
    assert (H : syncStep key cb w (withVq (forgetKey k (vq w)) w)).
    { exists []. split; [rewrite app_nil_r; reflexivity|].
      intros s [(subs & Hget & Hhas) Hm]. split.
      - exists subs. unfold withVq, forgetKey. cbn [vq subscribers].
        rewrite (omap_get_delete_ne k key _ ltac:(congruence)). split; assumption.
      - unfold getQueryState, withVq, forgetKey in *. cbn [vq queryStates].
        rewrite lookup_delete_ne by congruence. exact Hm. }
    destruct (intervals (vq w)) as [im|]; [destruct (im !! k)|]; try exact H.
  - contradiction.
  - (* the host fires a timeout *)
    unfold runTimeout. destruct (timeouts (env w)); [apply syncStep_refl|].
    eapply syncStep_from; [| | |apply syncStep_fetchQuery]; reflexivity.
  - (* focus *)
    unfold focusWindow. rewrite bind_snd. apply syncStep_focus.
  - (* interval *)
    unfold tickInterval. destruct (timer_inBackground t || documentVisible (env w));
      [apply syncStep_fetchQuery | apply syncStep_refl].
Qed.

Lemma runOps_syncStep key cb ops :
  Forall (keepsSubscription key cb) ops -> forall w, syncStep key cb w (runOps ops w).
Proof.
  unfold runOps. induction ops as [|o ops IH]; intros Hok w; [apply syncStep_refl|].
  apply Forall_cons in Hok. destruct Hok as [Ho Hok]. cbn [fold_left].
  eapply syncStep_trans; [apply runOp_syncStep, Ho | apply IH, Hok].
Qed.

Lemma alpineGet_exact key fetcher options cb w :
  let w0 := snd (useQuery key fetcher options w) in
  let st := getQueryState key (vq w0) in
  alpineGet key fetcher options cb w =
    (syncStore (newStore st) st, snd (subscribeToQuery key (storeObserver cb) w0)).
Proof.
  cbv zeta. unfold alpineGet. unfold bind at 1.
  destruct (useQuery key fetcher options w) as [[] w0]. cbn [snd].
  unfold bind, getVq, getEnv, ret. rewrite subscribeToQuery_exact. cbn [fst snd].
  f_equal. unfold addLog, withVq. cbn [env log]. rewrite drop_app_length.
  cbn [notificationsTo storeObserver obs_id]. rewrite String.eqb_refl, Nat.eqb_refl.
  reflexivity.
Qed.

(** X30.  The store that [$query.get] of the Alpine plugin returns shows
    the state of its key: its [data], [error], [status], [isLoading],
    [isError], [isSuccess] and [isFetching] are those of
    [getQueryState(key)] when [get] returns and after every later sequence
    of calls on the engine in which each call runs to its end before the
    next starts (so a focus event with at most one enabled listener), as
    long as the key is not removed, the engine is not cleared and the
    callback of the store is not unsubscribed.  Producers settle and
    callbacks return or throw without calling the engine. *)
Theorem alpine_store_in_sync (key : string) (fetcher : QueryFn) (options : QueryOptions)
    (cb : nat) (w : World) (ops : list Op) :
  Forall (keepsSubscription key cb) ops ->
  admissible ops (snd (alpineGet key fetcher options cb w)) ->
  let store := fst (alpineGet key fetcher options cb w) in
  let w1 := snd (alpineGet key fetcher options cb w) in
  let w' := runOps ops w1 in
  mirrors store (getQueryState key (vq w1)) /\
  mirrors (storeAfter key cb store w1 w') (getQueryState key (vq w')).
Proof.
  intros Hok _. cbv zeta. rewrite alpineGet_exact. cbn [fst snd].
  set (w0 := snd (useQuery key fetcher options w)).
  set (st := getQueryState key (vq w0)).
  set (w1 := snd (subscribeToQuery key (storeObserver cb) w0)).
  assert (Hin : inSync key cb w1 (syncStore (newStore st) st)).
  { unfold w1. rewrite subscribeToQuery_exact. cbn [snd]. split.
    - unfold subscribed, addLog, withVq, withSubscriber. cbn [vq subscribers set_subscribers].
      exists (set_add (storeObserver cb) (subsOf key (vq w0))). rewrite omap_get_set_eq.
      split; [reflexivity | apply set_has_add_same].
    - apply mirrors_syncStore. }
  split; [apply Hin|].
  destruct (runOps_syncStep key cb ops Hok w1) as (evs & Hlog & Hstep).
  unfold storeAfter, traceBetween. rewrite Hlog, drop_app_length.
  apply Hstep, Hin.
Qed.

Lemma alpine_store_in_sync_witness :
  let store := fst (alpineGet "a" (okFn (VStr "X")) noOptions 9 newWorld) in
  let w1 := snd (alpineGet "a" (okFn (VStr "X")) noOptions 9 newWorld) in
  let w' := runOps [OpTimeout; OpSetData "a" (VNum 1); OpFocus; OpRemove "b";
                    OpInvalidate "a"] w1 in
  store_data (storeAfter "a" 9 store w1 w') = VStr "X" /\
  store_isSuccess (storeAfter "a" 9 store w1 w') = true.
Proof.
  intros store w1 w'.
  destruct (alpine_store_in_sync "a" (okFn (VStr "X")) noOptions 9 newWorld
              [OpTimeout; OpSetData "a" (VNum 1); OpFocus; OpRemove "b"; OpInvalidate "a"])
    as (_ & Hd & _ & _ & _ & _ & Hs & _).
  - repeat constructor. discriminate.
  - cbn [admissible sequential]. repeat split. vm_compute. lia.
  - fold store w1 w' in Hd, Hs. split.
    + rewrite Hd. vm_compute. reflexivity.
    + rewrite Hs. vm_compute. reflexivity.
Defined.
